(** * docling_processor.py: Markdown segmentation and enrichment extraction

    A shallow embedding of [template/app/scripts/docling_processor.py]:
    the function-based pipeline ([process_sections], [estimate_reading_time],
    [extract_metadata], [extract_title], [extract_code_snippets],
    [extract_formulas], [extract_image_descriptions]) and the class-based
    variant ([_create_sections], [_estimate_reading_time],
    [_extract_title_from_content]).

    Python [str] values are modelled as lists of characters ([list ascii]);
    a character stands for the code point of the same number, so the model
    covers the code points below 256.  Python [int] counters that only count
    upwards from zero are [nat]. *)

From Stdlib Require Import Strings.Ascii Strings.String.
From Stdlib Require Import Numbers.DecimalString.
From Stdlib Require Numbers.DecimalNat.
From Stdlib Require Import List Arith Lia Bool NArith Setoid.
From Stdlib Require Import Sorting.Sorted.
Import ListNotations.

Set Implicit Arguments.

(* ===================================================================== *)
(** ** Python strings *)
(* ===================================================================== *)

Module Py.

Definition pystr := list ascii.

(** A string literal. *)
Definition lit (s : string) : pystr := list_ascii_of_string s.

Definition nl : ascii := "010"%char.
Definition hash : ascii := "#"%char.

(** [str.isspace] on one character: Python treats the code points
    9-13, 28-32, 133 and 160 as whitespace; [str.strip()] and
    [str.split()] use the same set. *)
Definition is_space (c : ascii) : bool :=
  let n := N_of_ascii c in
  ((9 <=? n) && (n <=? 13) || (28 <=? n) && (n <=? 32)
   || (n =? 133) || (n =? 160))%N.

(** The characters matched by [\w] in a [str] pattern: [str.isalnum] or
    the underscore. *)
Definition is_word (c : ascii) : bool :=
  let n := N_of_ascii c in
  ((48 <=? n) && (n <=? 57) || (65 <=? n) && (n <=? 90) || (n =? 95)
   || (97 <=? n) && (n <=? 122)
   || (n =? 170) || (n =? 178) || (n =? 179) || (n =? 181) || (n =? 185)
   || (n =? 186) || (188 <=? n) && (n <=? 190)
   || (192 <=? n) && (n <=? 214) || (216 <=? n) && (n <=? 246)
   || (248 <=? n))%N.

Definition ascii_eqb (a b : ascii) : bool := Ascii.eqb a b.

(** Truth value of a string: non-empty. *)
Definition truthy (s : pystr) : bool :=
  match s with [] => false | _ :: _ => true end.

Fixpoint drop_while (p : ascii -> bool) (s : pystr) : pystr :=
  match s with
  | [] => []
  | a :: t => if p a then drop_while p t else s
  end.

(** [s.lstrip()], [s.rstrip()], [s.strip()]. *)
Definition lstrip (s : pystr) : pystr := drop_while is_space s.
Definition rstrip (s : pystr) : pystr := rev (drop_while is_space (rev s)).
Definition strip (s : pystr) : pystr := rstrip (lstrip s).

(** [s.lstrip(c)] and [s.strip(c)] for a one-character argument. *)
Definition lstrip_char (c : ascii) (s : pystr) : pystr :=
  drop_while (ascii_eqb c) s.
Definition strip_char (c : ascii) (s : pystr) : pystr :=
  rev (drop_while (ascii_eqb c) (rev (drop_while (ascii_eqb c) s))).

(** [s.startswith(p)]. *)
Fixpoint startswith (p s : pystr) : bool :=
  match p, s with
  | [], _ => true
  | _ :: _, [] => false
  | a :: p', b :: s' => ascii_eqb a b && startswith p' s'
  end.

(** [p in s]. *)
Fixpoint contains (p s : pystr) : bool :=
  startswith p s || match s with [] => false | _ :: t => contains p t end.

(** [s.split(c)] for a one-character separator: never an empty list. *)
Fixpoint split_on (c : ascii) (s : pystr) : list pystr :=
  match s with
  | [] => [[]]
  | a :: t =>
      if ascii_eqb a c then [] :: split_on c t
      else match split_on c t with
           | h :: r => (a :: h) :: r
           | [] => [[a]]
           end
  end.

(** [s.split()]: the maximal runs of non-whitespace characters.  [cur] is
    the token being read, reversed. *)
Fixpoint split_ws_from (cur : pystr) (s : pystr) : list pystr :=
  match s with
  | [] => match cur with [] => [] | _ => [rev cur] end
  | a :: t =>
      if is_space a
      then match cur with
           | [] => split_ws_from [] t
           | _ => rev cur :: split_ws_from [] t
           end
      else split_ws_from (a :: cur) t
  end.
Definition split_ws (s : pystr) : list pystr := split_ws_from [] s.

(** [sep.join(parts)]. *)
Fixpoint join (sep : pystr) (parts : list pystr) : pystr :=
  match parts with
  | [] => []
  | [p] => p
  | p :: rest => p ++ sep ++ join sep rest
  end.

(** [s.count(c)] for a one-character argument. *)
Definition count (c : ascii) (s : pystr) : nat :=
  length (filter (ascii_eqb c) s).

(** [s[:n]], [s[n:]] and [s[i:j]] for indices within the usual range. *)
Definition slice_to (n : nat) (s : pystr) : pystr := firstn n s.
Definition slice_from (n : nat) (s : pystr) : pystr := skipn n s.
Definition slice (i j : nat) (s : pystr) : pystr := firstn (j - i) (skipn i s).

(** [s.lower()] on the modelled code points: A-Z and the upper-case
    letters 192-222 (except the multiplication sign 215) move up by 32. *)
Definition lower_char (c : ascii) : ascii :=
  let n := N_of_ascii c in
  if ((65 <=? n) && (n <=? 90)
      || (192 <=? n) && (n <=? 222) && negb (n =? 215))%N
  then ascii_of_N (n + 32) else c.
Definition lower (s : pystr) : pystr := map lower_char s.

(** [str(n)] for a non-negative integer. *)
Definition str_of_nat (n : nat) : pystr :=
  lit (NilEmpty.string_of_uint (Nat.to_uint n)).

(** The text with every whitespace character deleted: two texts agree up
    to whitespace when their images under [remove_ws] are equal. *)
Definition remove_ws (s : pystr) : pystr :=
  filter (fun c => negb (is_space c)) s.

End Py.
Import Py.

Arguments ascii_eqb : simpl never.
Arguments is_space : simpl never.
Arguments is_word : simpl never.
Arguments lower_char : simpl never.

(* ===================================================================== *)
(** ** ReadingTimeEstimator *)
(* ===================================================================== *)

(** [round(n / d)] for non-negative integers [n] and positive [d]: the
    quotient is taken exactly and rounded to the nearest integer, a tie
    going to the even neighbour, as Python's [round] does on the float
    [n / d] (the float quotient is correctly rounded, so both agree for
    every word count a string can have). *)
Definition py_round_div (n d : nat) : nat :=
  let q := n / d in
  let r := n mod d in
  if 2 * r <? d then q
  else if d <? 2 * r then S q
  else if Nat.even q then q else S q.

(** [estimate_reading_time], lines 188-192. *)
Definition estimate_reading_time (content : pystr) : nat :=
  let words := length (split_ws content) in
  Nat.max 1 (py_round_div words 225).

(** [DoclingProcessor._estimate_reading_time], lines 516-523. *)
Definition _estimate_reading_time (content : pystr) : nat :=
  let word_count := length (split_ws content) in
  let minutes := Nat.max 1 (py_round_div word_count 200) in
  minutes.

(* ===================================================================== *)
(** ** SectionSegmenter *)
(* ===================================================================== *)

(** A section dictionary: the four keys both segmenters write. *)
Record section_dict : Type := mk_section {
  title : pystr;
  content : pystr;
  order_index : nat;
  estimated_minutes : nat
}.

Module FunctionPath.

(** The loop variables of [process_sections]. *)
Record seg_state : Type := mk_seg {
  sections : list section_dict;
  current_section : option section_dict;
  section_content : list pystr;
  next_index : nat
}.

Definition seg_init : seg_state :=
  mk_seg [] None [] 0.

(** [if current_section and section_content: ... sections.append(...)]:
    the pending section is saved when it exists and has collected at least
    one line. *)
Definition save_pending (st : seg_state) : list section_dict :=
  match current_section st, section_content st with
  | Some cur, _ :: _ =>
      let c := strip (join [nl] (section_content st)) in
      sections st ++ [mk_section (title cur) c (order_index cur)
                                 (estimate_reading_time c)]
  | _, _ => sections st
  end.

Definition is_heading (line : pystr) : bool := startswith [hash] line.

(** One iteration of [for line in lines]. *)
Definition seg_step (st : seg_state) (line : pystr) : seg_state :=
  if is_heading line then
    mk_seg (save_pending st)
           (Some (mk_section (strip (strip_char hash line)) []
                             (next_index st) 0))
           []
           (S (next_index st))
  else if truthy (strip line) then
    mk_seg (sections st) (current_section st)
           (section_content st ++ [line]) (next_index st)
  else st.

(** The sections collected by the loop and the final save. *)
Definition heading_sections (markdown_content : pystr) : list section_dict :=
  save_pending (fold_left seg_step (split_on nl markdown_content) seg_init).

(** [process_sections], lines 137-185. *)
Definition process_sections (markdown_content : pystr) : list section_dict :=
  let sections := heading_sections markdown_content in
  match sections with
  | [] =>
      if truthy (strip markdown_content)
      then [mk_section (lit "Content") (strip markdown_content) 0
                       (estimate_reading_time markdown_content)]
      else []
  | _ :: _ => sections
  end.

End FunctionPath.

Module ClassPath.

(** The loop variables of [_create_sections]. *)
Record seg_state : Type := mk_seg {
  sections : list section_dict;
  current_section : section_dict;
  section_index : nat
}.

Definition seg_init : seg_state :=
  mk_seg [] (mk_section (lit "Introduction") [] 0 0) 0.

(** [if current_section["content"].strip(): ... sections.append(...)]. *)
Definition save_current (st : seg_state) : list section_dict :=
  let cur := current_section st in
  if truthy (strip (content cur))
  then sections st ++ [mk_section (title cur) (content cur) (order_index cur)
                                  (_estimate_reading_time (content cur))]
  else sections st.

Definition is_header (line : pystr) : bool :=
  let line_stripped := strip line in
  startswith (lit "# ") line_stripped || startswith (lit "## ") line_stripped.

(** One iteration of [for line in lines]. *)
Definition seg_step (st : seg_state) (line : pystr) : seg_state :=
  if is_header line then
    let section_index' := S (section_index st) in
    mk_seg (save_current st)
           (mk_section (strip (lstrip_char hash (strip line)))
                       (line ++ [nl]) section_index' 0)
           section_index'
  else
    let cur := current_section st in
    mk_seg (sections st)
           (mk_section (title cur) (content cur ++ line ++ [nl])
                       (order_index cur) (estimated_minutes cur))
           (section_index st).

(** [DoclingProcessor._create_sections], lines 463-514. *)
Definition _create_sections (markdown : pystr) : list section_dict :=
  save_current (fold_left seg_step (split_on nl markdown) seg_init).

End ClassPath.

(* ===================================================================== *)
(** ** Regular expressions: the fragment of [re] the extractors use *)
(* ===================================================================== *)

Module Re.

(** One-character items: [.] under [re.DOTALL], [\w], a literal. *)
Inductive cclass : Type :=
| AnyChar
| WordChar
| Char (c : ascii).

Definition cmatch (k : cclass) (a : ascii) : bool :=
  match k with
  | AnyChar => true
  | WordChar => is_word a
  | Char c => ascii_eqb c a
  end.

(** Patterns: the empty pattern, one character, concatenation, a numbered
    capturing group [(r)], the greedy option [r?], the greedy repetition
    [k+] and the lazy repetition [k*?] of a one-character item. *)
Inductive regex : Type :=
| Eps
| One (k : cclass)
| Cat (r1 r2 : regex)
| Group (n : nat) (r : regex)
| Opt (r : regex)
| Plus (k : cclass)
| StarLazy (k : cclass).

(** The literal text [s] as a pattern. *)
Fixpoint text (s : pystr) : regex :=
  match s with
  | [] => Eps
  | a :: t => Cat (One (Char a)) (text t)
  end.

(** A matcher state: the position reached, the text still ahead, and the
    spans of the groups closed so far (latest first). *)
Record mstate : Type := mk_mstate {
  pos : nat;
  rest : pystr;
  caps : list (nat * (nat * nat))
}.

(** [k*] greedy from a position: the longest run first, then shorter. *)
Fixpoint star_greedy (k : cclass) (p : nat) (s : pystr)
    (c : list (nat * (nat * nat))) : list mstate :=
  match s with
  | a :: t =>
      if cmatch k a then star_greedy k (S p) t c ++ [mk_mstate p s c]
      else [mk_mstate p s c]
  | [] => [mk_mstate p s c]
  end.

(** [k*?] from a position: the shortest run first, then longer. *)
Fixpoint star_lazy (k : cclass) (p : nat) (s : pystr)
    (c : list (nat * (nat * nat))) : list mstate :=
  mk_mstate p s c ::
  match s with
  | a :: t => if cmatch k a then star_lazy k (S p) t c else []
  | [] => []
  end.

(** The backtracking matcher: every way [r] matches at state [st], in the
    order in which [re] tries them; the first is the one [re] takes. *)
Fixpoint run (r : regex) (st : mstate) : list mstate :=
  match r with
  | Eps => [st]
  | One k =>
      match rest st with
      | a :: t => if cmatch k a then [mk_mstate (S (pos st)) t (caps st)]
                  else []
      | [] => []
      end
  | Cat r1 r2 => flat_map (run r2) (run r1 st)
  | Group n r1 =>
      map (fun st' => mk_mstate (pos st') (rest st')
                                ((n, (pos st, pos st')) :: caps st'))
          (run r1 st)
  | Opt r1 => run r1 st ++ [st]
  | Plus k =>
      match rest st with
      | a :: t => if cmatch k a then star_greedy k (S (pos st)) t (caps st)
                  else []
      | [] => []
      end
  | StarLazy k => star_lazy k (pos st) (rest st) (caps st)
  end.

(** A match object: [m.start()], [m.end()] and the group spans. *)
Record match_obj : Type := mk_match {
  m_start : nat;
  m_end : nat;
  m_caps : list (nat * (nat * nat))
}.

Fixpoint lookup_cap (n : nat) (c : list (nat * (nat * nat)))
    : option (nat * nat) :=
  match c with
  | [] => None
  | (k, span) :: c' => if k =? n then Some span else lookup_cap n c'
  end.

(** [m.group(n)]: [None] when the group took no part in the match. *)
Definition group (content : pystr) (m : match_obj) (n : nat)
    : option pystr :=
  match lookup_cap n (m_caps m) with
  | Some (i, j) => Some (slice i j content)
  | None => None
  end.

(** The leftmost match starting at position [p] or later, [s] being the
    text from [p] on. *)
Fixpoint search_at (r : regex) (p : nat) (s : pystr)
    : option (nat * mstate) :=
  match run r (mk_mstate p s []) with
  | st' :: _ => Some (p, st')
  | [] =>
      match s with
      | [] => None
      | _ :: t => search_at r (S p) t
      end
  end.

(** [re.finditer]: successive leftmost matches, each search resuming where
    the previous match ended.  After an empty match the scan moves one
    character on; the patterns of this file never match the empty string.
    Every round consumes at least one character, so [fuel] above the
    length of [s] is never exhausted. *)
Fixpoint finditer_from (fuel : nat) (r : regex) (p : nat) (s : pystr)
    : list match_obj :=
  match fuel with
  | 0 => []
  | S fuel' =>
      match search_at r p s with
      | None => []
      | Some (b, st') =>
          mk_match b (pos st') (caps st') ::
          (if pos st' =? b
           then match rest st' with
                | [] => []
                | _ :: t => finditer_from fuel' r (S (pos st')) t
                end
           else finditer_from fuel' r (pos st') (rest st'))
      end
  end.

Definition finditer (r : regex) (content : pystr) : list match_obj :=
  finditer_from (S (length content)) r 0 content.

(** What a run of the matcher means, as a relation: [derive r st st']
    when [r] can take the matcher from [st] to [st']. *)
Inductive derive : regex -> mstate -> mstate -> Prop :=
| d_eps st : derive Eps st st
| d_one k a p t c :
    cmatch k a = true ->
    derive (One k) (mk_mstate p (a :: t) c) (mk_mstate (S p) t c)
| d_cat r1 r2 st1 st2 st3 :
    derive r1 st1 st2 -> derive r2 st2 st3 -> derive (Cat r1 r2) st1 st3
| d_group n r st st' :
    derive r st st' ->
    derive (Group n r) st
           (mk_mstate (pos st') (rest st') ((n, (pos st, pos st')) :: caps st'))
| d_opt_some r st st' : derive r st st' -> derive (Opt r) st st'
| d_opt_none r st : derive (Opt r) st st
| d_plus k w a p t c :
    cmatch k a = true -> forallb (cmatch k) w = true ->
    derive (Plus k) (mk_mstate p (a :: w ++ t) c)
           (mk_mstate (S p + length w) t c)
| d_star_lazy k w p t c :
    forallb (cmatch k) w = true ->
    derive (StarLazy k) (mk_mstate p (w ++ t) c)
           (mk_mstate (p + length w) t c).

End Re.

(* ===================================================================== *)
(** ** CodeSnippetExtractor *)
(* ===================================================================== *)

Module Snippet.
Record t : Type := mk {
  code : pystr;
  language : pystr;
  description : pystr;
  line_start : nat;
  line_end : nat
}.
End Snippet.

Definition fence : pystr := lit "```".

(** [code_block_pattern], a fence, an optional tag, a newline, the body,
    a newline and a fence: three backquotes, [(\w+)?\n(.*?)\n] and three
    backquotes, matched under [re.DOTALL]. *)
Definition code_block_pattern : Re.regex :=
  Re.Cat (Re.text fence)
    (Re.Cat (Re.Opt (Re.Group 1 (Re.Plus Re.WordChar)))
      (Re.Cat (Re.One (Re.Char nl))
        (Re.Cat (Re.Group 2 (Re.StarLazy Re.AnyChar))
          (Re.text (nl :: fence))))).

(** [g or default] for an optional group. *)
Definition group_or (g : option pystr) (default : pystr) : pystr :=
  match g with
  | Some s => if truthy s then s else default
  | None => default
  end.

(** [m.group(n).strip()] for a group that takes part in every match. *)
Definition group_strip (g : option pystr) : pystr :=
  match g with
  | Some s => strip s
  | None => []
  end.

(** The body of the loop of [extract_code_snippets]: the snippet built
    from one match. *)
Definition snippet_of (content : pystr) (m : Re.match_obj) : Snippet.t :=
  let language := group_or (Re.group content m 1) (lit "unknown") in
  let code := group_strip (Re.group content m 2) in
  Snippet.mk code language
    (lit "Code snippet in " ++ language)
    (count nl (slice_to (Re.m_start m) content) + 1)
    (count nl (slice_to (Re.m_end m) content) + 1).

(** [extract_code_snippets], lines 266-288. *)
Definition extract_code_snippets (content : pystr) : list Snippet.t :=
  fold_left (fun code_snippets m => code_snippets ++ [snippet_of content m])
            (Re.finditer code_block_pattern content) [].

(* ===================================================================== *)
(** ** FormulaExtractor *)
(* ===================================================================== *)

Module Formula.
Record t : Type := mk {
  formula : pystr;
  description : pystr;
  type : pystr;
  line_number : nat
}.
End Formula.

(** The three entries of [formula_patterns]: display math, inline math and
    the equation environment, each capturing [(.*?)] as group 1. *)
Definition delimited (opening closing : pystr) : Re.regex :=
  Re.Cat (Re.text opening)
    (Re.Cat (Re.Group 1 (Re.StarLazy Re.AnyChar)) (Re.text closing)).

Definition display_math : Re.regex := delimited (lit "$$") (lit "$$").
Definition inline_math : Re.regex := delimited (lit "$") (lit "$").
Definition equation_env : Re.regex :=
  delimited (lit "\begin{equation}") (lit "\end{equation}").

Definition formula_patterns : list Re.regex :=
  [display_math; inline_math; equation_env].

(** The body of the inner loop of [extract_formulas]: nothing is appended
    when the stripped capture is empty. *)
Definition formula_step (content : pystr) (formulas : list Formula.t)
    (m : Re.match_obj) : list Formula.t :=
  let formula := group_strip (Re.group content m 1) in
  if truthy formula then
    formulas ++
    [Formula.mk formula
       (lit "Mathematical expression: " ++ slice_to 50 formula
        ++ (if 50 <? length formula then lit "..." else []))
       (lit "mathematical")
       (count nl (slice_to (Re.m_start m) content) + 1)]
  else formulas.

(** [extract_formulas], lines 291-314: the outer loop runs over the
    patterns, the inner one over the matches of one pattern. *)
Definition extract_formulas (content : pystr) : list Formula.t :=
  fold_left
    (fun formulas pattern =>
       fold_left (formula_step content) (Re.finditer pattern content) formulas)
    formula_patterns [].

(* ===================================================================== *)
(** ** Document objects and the error monad *)
(* ===================================================================== *)

(** The values an attribute of the converter's document object may hold.
    An object is the list of its attributes; [VMethod name] is the bound
    method [name] of a built-in value. *)
#[warnings="-register-all"]
Inductive pyval : Type :=
| VNone
| VBool (b : bool)
| VInt (n : nat)
| VStr (s : pystr)
| VList (items : list pyval)
| VObj (attrs : list (string * pyval))
| VMethod (name : string).

Inductive exn : Type :=
| AttributeError (name : string)
| TypeError.

Inductive result (A : Type) : Type :=
| Ok (a : A)
| Raise (e : exn).
Arguments Ok {A} a.
Arguments Raise {A} e.

Definition bind {A B : Type} (c : result A) (f : A -> result B) : result B :=
  match c with
  | Ok a => f a
  | Raise e => Raise e
  end.

Notation "x <- c ;; k" := (bind c (fun x => k))
  (at level 61, c at next level, right associativity).

Fixpoint lookup_attr (name : string) (attrs : list (string * pyval))
    : option pyval :=
  match attrs with
  | [] => None
  | (k, v) :: attrs' =>
      if String.eqb k name then Some v else lookup_attr name attrs'
  end.

(** The attributes of a value, among the names the pipeline asks for
    ([pages], [_pages], [pictures], [tables], [title], [main_text],
    [description], [caption], [text]): an object has those it was given;
    a string has [title], its method [str.title]; [None], booleans,
    integers, lists and bound methods have none of them. *)
Definition attrs_of (o : pyval) : list (string * pyval) :=
  match o with
  | VObj attrs => attrs
  | VStr _ => [("title"%string, VMethod "title")]
  | _ => []
  end.

(** [hasattr(o, name)] and [o.name]. *)
Definition hasattr (o : pyval) (name : string) : bool :=
  match lookup_attr name (attrs_of o) with
  | Some _ => true
  | None => false
  end.

Definition getattr (o : pyval) (name : string) : result pyval :=
  match lookup_attr name (attrs_of o) with
  | Some v => Ok v
  | None => Raise (AttributeError name)
  end.

(** Truth value of an object. *)
Definition truth (v : pyval) : bool :=
  match v with
  | VNone => false
  | VBool b => b
  | VInt n => negb (n =? 0)
  | VStr s => truthy s
  | VList items => match items with [] => false | _ :: _ => true end
  | VObj _ => true
  | VMethod _ => true
  end.

(** [len(v)]. *)
Definition py_len (v : pyval) : result nat :=
  match v with
  | VStr s => Ok (length s)
  | VList items => Ok (length items)
  | _ => Raise TypeError
  end.

(** The items [for x in v] runs over. *)
Definition py_iter (v : pyval) : result (list pyval) :=
  match v with
  | VStr s => Ok (map (fun c => VStr [c]) s)
  | VList items => Ok items
  | _ => Raise TypeError
  end.

(** [v[:n]]. *)
Definition py_slice_to (n : nat) (v : pyval) : result pyval :=
  match v with
  | VStr s => Ok (VStr (slice_to n s))
  | VList items => Ok (VList (firstn n items))
  | _ => Raise TypeError
  end.

(** [v.split(sep)]: a method of strings only. *)
Definition py_split (sep : ascii) (v : pyval) : result (list pystr) :=
  match v with
  | VStr s => Ok (split_on sep s)
  | _ => Raise (AttributeError "split")
  end.

(** The document object handed over by the converter: its optional
    attributes, and the text its [export_to_markdown()] method returns. *)
Record document : Type := mk_document {
  doc_object : pyval;
  export_to_markdown : pystr
}.

(** An instance of a class, as the converter's document is; [None],
    booleans, integers, strings, lists and bound methods are not, and have
    no [export_to_markdown]. *)
Definition is_object (v : pyval) : bool :=
  match v with
  | VObj _ => true
  | _ => false
  end.

(* ===================================================================== *)
(** ** MetadataAssembler *)
(* ===================================================================== *)

(** [hasattr(doc, name) and doc.name]. *)
Definition has_truthy (doc : pyval) (name : string) : bool :=
  match lookup_attr name (attrs_of doc) with
  | Some v => truth v
  | None => false
  end.

(** The loop of [extract_title] over [lines[:10]], with its two [break]s;
    [title] is the value the variable holds when no line qualifies. *)
Fixpoint title_scan (lines : list pystr) (title : pystr) : pystr :=
  match lines with
  | [] => title
  | line :: lines' =>
      if startswith [hash] line then strip (strip_char hash line)
      else if truthy (strip line) && (length (strip line) <? 100)
      then strip line
      else title_scan lines' title
  end.

(** [extract_title], lines 244-263. *)
Definition extract_title (doc : pyval) : result pyval :=
  let title := VStr (lit "Untitled Document") in
  title <-
    (if has_truthy doc "title" then getattr doc "title"
     else if hasattr doc "main_text" then
       main_text <- getattr doc "main_text" ;;
       lines <- py_split nl main_text ;;
       Ok (VStr (title_scan (firstn 10 lines) (lit "Untitled Document")))
     else Ok title) ;;
  py_slice_to 200 title.

(** [DoclingProcessor._extract_title_from_content], lines 435-445. *)
Fixpoint title_from_lines (lines : list pystr) : pystr :=
  match lines with
  | [] => lit "Untitled Document"
  | line0 :: lines' =>
      let line := strip line0 in
      if startswith (lit "# ") line then strip (slice_from 2 line)
      else if truthy line && negb (startswith [hash] line)
      then slice_to 100 line ++ (if 100 <? length line then lit "..." else [])
      else title_from_lines lines'
  end.

Definition _extract_title_from_content (markdown : pystr) : pystr :=
  title_from_lines (split_on nl markdown).

(** The ["title"] entry of [process_pdf], line 406:
    [getattr(document, 'title', None) or _extract_title_from_content(md)]. *)
Definition process_pdf_title (doc : document) : pyval :=
  match lookup_attr "title" (attrs_of (doc_object doc)) with
  | Some v =>
      if truth v then v
      else VStr (_extract_title_from_content (export_to_markdown doc))
  | None => VStr (_extract_title_from_content (export_to_markdown doc))
  end.

(** The parsed command line. *)
Record arguments : Type := mk_arguments {
  no_ocr : bool;
  no_vlm : bool;
  vlm_model : pystr;
  enable_code_enrichment : bool;
  enable_formula_enrichment : bool
}.

Record processing_info : Type := mk_processing_info {
  ocr_enabled : bool;
  vlm_enabled : bool;
  code_enrichment_enabled : bool;
  formula_enrichment_enabled : bool;
  docling_version : pystr;
  info_vlm_model : option pystr
}.

Record metadata : Type := mk_metadata {
  meta_title : pyval;
  page_count : nat;
  has_images : bool;
  has_tables : bool;
  has_code : bool;
  has_formulas : bool;
  meta_processing_info : processing_info
}.

(** [extract_metadata], lines 195-241.  [version] is what
    [get_docling_version()] returns: the installed library's version, or
    ["unknown"]; that call never raises. *)
Definition extract_metadata (version : pystr) (doc : document)
    (args : arguments) : result metadata :=
  let o := doc_object doc in
  page_count <-
    (if hasattr o "pages" then pages <- getattr o "pages" ;; py_len pages
     else if hasattr o "_pages" then
       pages <- getattr o "_pages" ;; py_len pages
     else Ok 1) ;;
  let has_images := has_truthy o "pictures" in
  let has_tables := has_truthy o "tables" in
  let markdown := export_to_markdown doc in
  let has_code := contains fence markdown || contains (lit "`") markdown in
  let has_formulas :=
    contains (lit "$") markdown
    || contains (lit "equation") (lower markdown) in
  title <- extract_title o ;;
  Ok (mk_metadata title page_count has_images has_tables has_code
        has_formulas
        (mk_processing_info (negb (no_ocr args)) (negb (no_vlm args))
           (enable_code_enrichment args) (enable_formula_enrichment args)
           version
           (if negb (no_vlm args) then Some (vlm_model args) else None))).

(* ===================================================================== *)
(** ** ImageDescriptionExtractor *)
(* ===================================================================== *)

Module Image.
Record t : Type := mk {
  image_id : pystr;
  description : pyval;
  confidence : nat * nat;
  extracted_text : option pyval
}.
End Image.

(** The float literal [0.8], kept as the fraction 8/10. *)
Definition default_confidence : nat * nat := (8, 10).

(** The body of the loop of [extract_image_descriptions] for the picture
    at index [i]. *)
Definition describe_picture (i : nat) (picture : pyval) : Image.t :=
  let description :=
    match lookup_attr "description" (attrs_of picture) with
    | Some d => d
    | None =>
        match lookup_attr "caption" (attrs_of picture) with
        | Some c => c
        | None => VStr (lit "Image detected in document")
        end
    end in
  Image.mk (lit "image_" ++ str_of_nat i) description default_confidence
           (lookup_attr "text" (attrs_of picture)).

(** [enumerate(items)] from index [i], the descriptions appended to
    [descriptions] one by one. *)
Fixpoint describe_all (i : nat) (items : list pyval)
    (descriptions : list Image.t) : list Image.t :=
  match items with
  | [] => descriptions
  | picture :: items' =>
      describe_all (S i) items' (descriptions ++ [describe_picture i picture])
  end.

(** [extract_image_descriptions], lines 317-341. *)
Definition extract_image_descriptions (doc : pyval) : result (list Image.t) :=
  if hasattr doc "pictures" then
    pictures <- getattr doc "pictures" ;;
    items <- py_iter pictures ;;
    Ok (describe_all 0 items [])
  else Ok [].


(* ===================================================================== *)
(** ** The two pipelines *)
(* ===================================================================== *)

(** [DoclingProcessor._has_images] and [_has_tables], lines 447-461:
    [hasattr(document, name) and len(document.name) > 0], any exception
    turned into [False]. *)
Definition has_nonempty (document : pyval) (name : string) : bool :=
  match (if hasattr document name
         then collection <- getattr document name ;;
              n <- py_len collection ;;
              Ok (0 <? n)
         else Ok false) with
  | Ok b => b
  | Raise _ => false
  end.

Definition _has_images (document : pyval) : bool :=
  has_nonempty document "pictures".

Definition _has_tables (document : pyval) : bool :=
  has_nonempty document "tables".



Section ProcessPdf.

(** [str(e)] for an exception. *)
Variable exn_text : exn -> pystr.

(** The processor's settings. *)
Variables enable_ocr enable_vlm : bool.



End ProcessPdf.

(** The ["content"] of the result [main] prints, lines 108-115; the
    enrichment entries are the keys [main] adds to the metadata only when
    asked. *)
Record content_data : Type := mk_content_data {
  cd_markdown : pystr;
  cd_sections : list section_dict;
  cd_metadata : metadata;
  cd_code_snippets : option (list Snippet.t);
  cd_formulas : option (list Formula.t);
  cd_image_descriptions : option (list Image.t)
}.

(** The part of [main] from [doc = result.document] to [result_data],
    lines 85-115.  [vlm_available] tells whether the VLM components could
    be imported. *)
Definition main_content (vlm_available : bool) (version : pystr)
    (doc : document) (args : arguments) : result content_data :=
  let markdown_content := export_to_markdown doc in
  let sections := FunctionPath.process_sections markdown_content in
  metadata <- extract_metadata version doc args ;;
  let code_snippets :=
    if enable_code_enrichment args
    then Some (extract_code_snippets markdown_content) else None in
  let formulas :=
    if enable_formula_enrichment args
    then Some (extract_formulas markdown_content) else None in
  image_descriptions <-
    (if vlm_available && negb (no_vlm args)
        && hasattr (doc_object doc) "pictures"
     then descriptions <- extract_image_descriptions (doc_object doc) ;;
          Ok (Some descriptions)
     else Ok None) ;;
  Ok (mk_content_data markdown_content sections metadata code_snippets
        formulas image_descriptions).

(** The values [json.dumps] can encode: [None], booleans, integers,
    strings and lists of such values; for an object or a method it raises
    [TypeError]. *)
Fixpoint json_ok (v : pyval) : bool :=
  match v with
  | VNone | VBool _ | VInt _ | VStr _ => true
  | VList items =>
      (fix all (l : list pyval) : bool :=
         match l with
         | [] => true
         | x :: r => json_ok x && all r
         end) items
  | VObj _ | VMethod _ => false
  end.

(** [json.dumps(result_data)] succeeds: of the values in the result, only
    the title and the description and extracted text of an image can be
    other than strings, numbers and booleans.  The standard output is
    taken to accept the encoded text. *)
Definition content_json_ok (c : content_data) : bool :=
  json_ok (meta_title (cd_metadata c))
  && match cd_image_descriptions c with
     | None => true
     | Some descriptions =>
         forallb (fun d => json_ok (Image.description d)
                           && match Image.extracted_text d with
                              | Some t => json_ok t
                              | None => true
                              end)
                 descriptions
     end.

(** What [main] prints and the status it exits with: the content and 0,
    or an error text and 1. *)
Inductive main_outcome : Type :=
| Printed (content : content_data)
| Exited (error : pystr).

(** [main] from the conversion on, lines 77-134, the Docling imports
    having succeeded: a missing or falsy document, the [AttributeError]
    of [export_to_markdown] on a value that is no object, every exception
    of the assembly and the [TypeError] of [json.dumps] end in the last
    [except] clause. *)
Definition main_after_conversion (exn_text : exn -> pystr)
    (vlm_available : bool) (version : pystr)
    (converted : option document) (args : arguments) : main_outcome :=
  match converted with
  | None =>
      Exited (lit "Processing failed: "
              ++ lit "No document content extracted")
  | Some doc =>
      if negb (truth (doc_object doc)) then
        Exited (lit "Processing failed: "
                ++ lit "No document content extracted")
      else if negb (is_object (doc_object doc)) then
        Exited (lit "Processing failed: "
                ++ exn_text (AttributeError "export_to_markdown"))
      else
        match main_content vlm_available version doc args with
        | Ok c =>
            if content_json_ok c then Printed c
            else Exited (lit "Processing failed: " ++ exn_text TypeError)
        | Raise e => Exited (lit "Processing failed: " ++ exn_text e)
        end
  end.

(* ===================================================================== *)
(** * The vocabulary of the properties *)
(* ===================================================================== *)

(** A string is blank when stripping leaves nothing. *)
Definition blank (s : pystr) : bool := negb (truthy (strip s)).

Section FunctionPathTerms.
Import FunctionPath.

Definition nonheading (l : pystr) : bool := negb (is_heading l).
Definition nonblank (l : pystr) : bool := negb (blank l).

(** The loop invariant on the indices: the saved sections are strictly
    increasing and lie below the index of the pending section, which lies
    below the next index to hand out. *)
Definition seg_inv (st : seg_state) : Prop :=
  StronglySorted lt (map order_index (sections st)) /\
  match current_section st with
  | Some cur =>
      Forall (fun y => y < order_index cur) (map order_index (sections st))
      /\ order_index cur < next_index st
  | None => sections st = []
  end.

(** A heading line with the lines up to the next heading. *)
Definition block : Type := (pystr * list pystr)%type.

Definition block_lines (b : block) : list pystr := fst b :: snd b.

(** The heading of a block is a heading line, its other lines are not, and
    one of them is not blank. *)
Definition block_ok (b : block) : bool :=
  is_heading (fst b) && forallb nonheading (snd b) && existsb nonblank (snd b).

Definition block_title (b : block) : pystr :=
  strip (strip_char hash (fst b)).

(** The lines before the first heading line. *)
Fixpoint leading (lines : list pystr) : list pystr :=
  match lines with
  | [] => []
  | l :: r => if is_heading l then [] else l :: leading r
  end.

(** No non-blank line comes before a heading line: there is no heading at
    all, or every line before the first one is blank. *)
Definition no_text_before_heading (md : pystr) : bool :=
  let lines := split_on nl md in
  negb (existsb is_heading lines) || forallb blank (leading lines).

(** The text of the lines that are not heading lines. *)
Definition body_text (md : pystr) : pystr :=
  concat (filter nonheading (split_on nl md)).

(** The contents of the sections, concatenated in order. *)
Definition all_content (secs : list section_dict) : pystr :=
  concat (map content secs).

Definition pending_text (st : seg_state) : pystr :=
  match current_section st with
  | Some _ => concat (map remove_ws (section_content st))
  | None => []
  end.

Definition kept_text (st : seg_state) : pystr :=
  remove_ws (all_content (sections st)) ++ pending_text st.

(** The lines after the first heading line. *)
Fixpoint after_first_heading (lines : list pystr) : list pystr :=
  match lines with
  | [] => []
  | l :: r => if is_heading l then r else after_first_heading r
  end.

(** Every saved section has text, and so has every buffered line. *)
Definition text_inv (st : seg_state) : Prop :=
  Forall (fun s => remove_ws (content s) <> []) (sections st) /\
  forallb nonblank (section_content st) = true.

End FunctionPathTerms.

Section ClassPathTerms.
Import ClassPath.

(** The loop invariant on the indices: the pending section carries the
    running index, and the saved sections carry the consecutive indices
    from [a] (0 or 1) up to it. *)
Definition idx_inv (st : seg_state) : Prop :=
  order_index (current_section st) = section_index st /\
  (section_index st = 0
   \/ nonblank (content (current_section st)) = true) /\
  exists a, a <= 1 /\ a <= section_index st /\
    map order_index (sections st) = seq a (section_index st - a).

End ClassPathTerms.

(** A text given line by line. *)
Definition text_of_lines (ls : list string) : pystr := join [nl] (map lit ls).

(** The two readings of "the original body content": the non-heading
    lines, or the whole text. *)
Definition round_trip_body (md : pystr) : Prop :=
  remove_ws (all_content (FunctionPath.process_sections md))
  = remove_ws (body_text md).

Definition round_trip_whole (md : pystr) : Prop :=
  remove_ws (all_content (FunctionPath.process_sections md)) = remove_ws md.

(** The number of whitespace-delimited tokens, counted at the places where
    a token begins: a non-whitespace character at the start of the text or
    right after a whitespace character.  [in_word] tells whether the
    previous character belongs to a token. *)
Fixpoint count_tokens (in_word : bool) (s : pystr) : nat :=
  match s with
  | [] => 0
  | a :: t =>
      if is_space a then count_tokens false t
      else (if in_word then 0 else 1) + count_tokens true t
  end.

Definition word_count (s : pystr) : nat := count_tokens false s.

(** [m] is an integer nearest to the fraction [n / d]. *)
Definition nearest_int (n d m : nat) : Prop :=
  2 * d * m <= 2 * n + d /\ 2 * n <= 2 * d * m + d.

Section MatcherTerms.
Import Re.

(** The minimal length of a match. *)
Fixpoint min_len (r : regex) : nat :=
  match r with
  | Eps => 0
  | One _ => 1
  | Cat r1 r2 => min_len r1 + min_len r2
  | Group _ r1 => min_len r1
  | Opt _ => 0
  | Plus _ => 1
  | StarLazy _ => 0
  end.

(** [m] is a match of [r] in [content]: a derivation leads from its start
    to its end and closes its groups. *)
Definition matched (r : regex) (content : pystr) (m : match_obj) : Prop :=
  m_end m <= length content /\
  derive r (mk_mstate (m_start m) (skipn (m_start m) content) [])
           (mk_mstate (m_end m) (skipn (m_end m) content) (m_caps m)).

(** [m1] ends before [m2] starts. *)
Definition before (m1 m2 : match_obj) : Prop := m_end m1 <= m_start m2.

(** A fenced code block in the text: where it starts and ends, its tag
    (empty when the fence has none) and its body. *)
Record fenced_block : Type := mk_fenced_block {
  fb_start : nat;
  fb_end : nat;
  fb_tag : pystr;
  fb_body : pystr
}.

(** The snippet [sn] is the one the extractor is to emit for [fb]. *)
Definition snippet_for (content : pystr) (fb : fenced_block)
    (sn : Snippet.t) : Prop :=
  fb_end fb <= length content
  /\ slice (fb_start fb) (fb_end fb) content
     = fence ++ fb_tag fb ++ nl :: fb_body fb ++ nl :: fence
  /\ forallb is_word (fb_tag fb) = true
  /\ Snippet.language sn
     = (if truthy (fb_tag fb) then fb_tag fb else lit "unknown")
  /\ Snippet.code sn = strip (fb_body fb)
  /\ Snippet.line_start sn = count nl (slice_to (fb_start fb) content) + 1
  /\ Snippet.line_end sn = count nl (slice_to (fb_end fb) content) + 1
  /\ Snippet.line_start sn <= Snippet.line_end sn.

Definition block_before (b1 b2 : fenced_block) : Prop :=
  fb_end b1 <= fb_start b2.

Definition snippet_before (s1 s2 : Snippet.t) : Prop :=
  Snippet.line_end s1 <= Snippet.line_start s2.

(** The records one pattern contributes. *)
Definition formulas_of (pattern : regex) (content : pystr)
    : list Formula.t :=
  fold_left (formula_step content) (finditer pattern content) [].

End MatcherTerms.

(** What a line offers as a title in [extract_title]: a heading line its
    text without the [#] marks at both ends, stripped; another line its
    stripped text when that is non-empty and shorter than 100. *)
Definition title_of_line (line : pystr) : option pystr :=
  if startswith [hash] line then Some (strip (strip_char hash line))
  else if truthy (strip line) && (length (strip line) <? 100)
  then Some (strip line)
  else None.

(** [line] is the first of [lines] to offer a title, at index [i]. *)
Definition first_offer (lines : list pystr) (i : nat) (t : pystr) : Prop :=
  (exists line, nth_error lines i = Some line /\ title_of_line line = Some t)
  /\ forall j line, j < i -> nth_error lines j = Some line ->
                    title_of_line line = None.

(** None of the first [n] lines offers a title. *)
Definition no_offer (lines : list pystr) (n : nat) : Prop :=
  forall j line, j < n -> nth_error lines j = Some line ->
                 title_of_line line = None.

(** The title as C7 words it: the explicit title when there is one; else
    the text of a heading line among the first ten lines; else the first
    non-blank line shorter than 100 among them; else the default. *)
Definition claimed_title (explicit : option pystr) (raw : pystr) : pystr :=
  let lines := firstn 10 (split_on nl raw) in
  let title :=
    match explicit with
    | Some (_ :: _ as t) => t
    | _ =>
        match find (startswith [hash]) lines with
        | Some h => strip (strip_char hash h)
        | None =>
            match find (fun l => truthy (strip l)
                                 && (length (strip l) <? 100)) lines with
            | Some l => strip l
            | None => lit "Untitled Document"
            end
        end
    end in
  slice_to 200 title.

Definition is_sized (v : pyval) : bool :=
  match v with
  | VStr _ | VList _ => true
  | _ => false
  end.

Definition is_str (v : pyval) : bool :=
  match v with
  | VStr _ => true
  | _ => false
  end.

(** The attribute [name] of [o] is absent, or it passes [ok]. *)
Definition attr_ok (o : pyval) (name : string) (ok : pyval -> bool) : bool :=
  match lookup_attr name (attrs_of o) with
  | Some v => ok v
  | None => true
  end.

(** The document is an object and the fields it has are of the kind the
    converter gives them: page and picture collections are sized, a
    non-empty title is a string (or a list), the main text is a string.
    Every field may be absent. *)
Definition well_formed (o : pyval) : bool :=
  is_object o
  && attr_ok o "pages" is_sized
  && attr_ok o "_pages" is_sized
  && attr_ok o "title" (fun v => negb (truth v) || is_sized v)
  && attr_ok o "main_text" is_str
  && attr_ok o "pictures" is_sized.

Section ClassPathTerms2.
Import ClassPath.

(** The text the class-based loop holds, up to whitespace: the saved
    sections and the pending one. *)
Definition class_kept (st : seg_state) : pystr :=
  remove_ws (all_content (sections st))
  ++ remove_ws (content (current_section st)).

(** What every saved section of the class-based loop satisfies. *)
Definition class_section_ok (s : section_dict) : Prop :=
  blank (content s) = false
  /\ estimated_minutes s = _estimate_reading_time (content s)
  /\ 1 <= estimated_minutes s.

End ClassPathTerms2.

(** What every section of the function-based segmenter satisfies. *)
Definition section_ok (s : section_dict) : Prop :=
  blank (content s) = false
  /\ estimated_minutes s = estimate_reading_time (content s)
  /\ 1 <= estimated_minutes s.

(** The number of heading lines of a text. *)
Definition heading_count (md : pystr) : nat :=
  length (filter FunctionPath.is_heading (split_on nl md)).

(** The identifier of the picture at index [i]. *)
Definition image_id_at (i : nat) : pystr := lit "image_" ++ str_of_nat i.

(** A text is trimmed when it neither starts nor ends with whitespace. *)
Definition starts_with_space (s : pystr) : bool :=
  match s with
  | a :: _ => is_space a
  | [] => false
  end.

Definition trimmed (s : pystr) : bool :=
  negb (starts_with_space s) && negb (starts_with_space (rev s)).

Section MatcherTerms2.
Import Re.

(** [m] is the match [re] takes at its start: the first result of the
    matcher there. *)
Definition first_match (r : regex) (content : pystr) (m : match_obj)
    : Prop :=
  hd_error (run r (mk_mstate (m_start m) (skipn (m_start m) content) []))
  = Some (mk_mstate (m_end m) (skipn (m_end m) content) (m_caps m)).

(** The closing text [c] does not begin at any position of [body] in the
    text [s] that starts with [body]. *)
Definition closes_first (c body s : pystr) : Prop :=
  forall j, j < length body -> startswith c (skipn j s) = false.

End MatcherTerms2.

(* ===================================================================== *)
(** * Properties *)
(* ===================================================================== *)

(** ** Facts about the string operations *)

Section StringFacts.

Variable p : ascii -> bool.

Lemma drop_while_nil_iff (s : pystr) :
  drop_while p s = [] <-> forallb p s = true.
Proof.
  induction s as [|a t IH]; simpl.
  - tauto.
  - destruct (p a); simpl; [exact IH | split; discriminate].
Qed.

Lemma forallb_drop_while (s : pystr) :
  forallb p (drop_while p s) = forallb p s.
Proof.
  induction s as [|a t IH]; simpl; [reflexivity|].
  destruct (p a) eqn:E; simpl; [exact IH | now rewrite E].
Qed.

Lemma forallb_rev_eq (s : pystr) : forallb p (rev s) = forallb p s.
Proof.
  induction s as [|a t IH]; simpl; [reflexivity|].
  rewrite forallb_app, IH; simpl. rewrite andb_true_r. apply andb_comm.
Qed.

Lemma filter_drop_while_neg (s : pystr) :
  filter (fun c => negb (p c)) (drop_while p s)
  = filter (fun c => negb (p c)) s.
Proof.
  induction s as [|a t IH]; simpl; [reflexivity|].
  destruct (p a) eqn:E; simpl; [exact IH | now rewrite E].
Qed.

Lemma filter_rev_eq (q : ascii -> bool) (s : pystr) :
  filter q (rev s) = rev (filter q s).
Proof.
  induction s as [|a t IH]; simpl; [reflexivity|].
  rewrite filter_app, IH; simpl.
  destruct (q a); simpl; [reflexivity | now rewrite app_nil_r].
Qed.

Lemma filter_neg_nil_iff (s : pystr) :
  filter (fun c => negb (p c)) s = [] <-> forallb p s = true.
Proof.
  induction s as [|a t IH]; simpl; [tauto|].
  destruct (p a); simpl; [exact IH | split; discriminate].
Qed.

End StringFacts.

Lemma rev_nil_iff (A : Type) (l : list A) : rev l = [] <-> l = [].
Proof.
  split; intro H; [|now subst].
  apply (f_equal (@rev A)) in H. now rewrite rev_involutive in H.
Qed.

Lemma strip_nil_iff (s : pystr) : strip s = [] <-> forallb is_space s = true.
Proof.
  unfold strip, rstrip, lstrip.
  etransitivity; [apply rev_nil_iff|].
  etransitivity; [apply drop_while_nil_iff|].
  now rewrite forallb_rev_eq, forallb_drop_while.
Qed.

Lemma remove_ws_strip (s : pystr) : remove_ws (strip s) = remove_ws s.
Proof.
  unfold strip, rstrip, lstrip, remove_ws.
  rewrite filter_rev_eq, filter_drop_while_neg, filter_rev_eq.
  now rewrite rev_involutive, filter_drop_while_neg.
Qed.

Lemma remove_ws_nil_iff (s : pystr) :
  remove_ws s = [] <-> forallb is_space s = true.
Proof. apply filter_neg_nil_iff. Qed.

Lemma remove_ws_app (s1 s2 : pystr) :
  remove_ws (s1 ++ s2) = remove_ws s1 ++ remove_ws s2.
Proof. apply filter_app. Qed.

Lemma blank_iff (s : pystr) : blank s = true <-> forallb is_space s = true.
Proof.
  unfold blank. rewrite <- strip_nil_iff.
  destruct (strip s); simpl; split; congruence.
Qed.

Lemma blank_remove_ws (s : pystr) : blank s = true <-> remove_ws s = [].
Proof. now rewrite blank_iff, remove_ws_nil_iff. Qed.

Lemma truthy_strip_blank (s : pystr) : truthy (strip s) = negb (blank s).
Proof. unfold blank. now rewrite negb_involutive. Qed.

(** The lines of a text, joined again by newlines, give the text back. *)
Lemma split_on_not_nil (c : ascii) (s : pystr) : split_on c s <> [].
Proof.
  destruct s as [|a t]; simpl; [discriminate|].
  destruct (ascii_eqb a c); [discriminate|].
  destruct (split_on c t); discriminate.
Qed.

Lemma join_split_on (c : ascii) (s : pystr) : join [c] (split_on c s) = s.
Proof.
  induction s as [|a t IH]; simpl; [reflexivity|].
  destruct (ascii_eqb a c) eqn:E.
  - apply Ascii.eqb_eq in E; subst a.
    pose proof (split_on_not_nil c t) as Hne.
    destruct (split_on c t) as [|h r] eqn:Es; [congruence|].
    simpl in *. now rewrite IH.
  - pose proof (split_on_not_nil c t) as Hne.
    destruct (split_on c t) as [|h r] eqn:Es; [congruence|].
    simpl in *. destruct r; simpl in *; now rewrite <- IH.
Qed.

Lemma split_on_forallb (q : ascii -> bool) (c : ascii) (s : pystr) :
  forallb q s = true -> Forall (fun l => forallb q l = true) (split_on c s).
Proof.
  induction s as [|a t IH]; simpl; intro H.
  - repeat constructor.
  - apply andb_true_iff in H as [Ha Ht]. specialize (IH Ht).
    destruct (ascii_eqb a c).
    + constructor; [reflexivity | exact IH].
    + destruct (split_on c t) as [|h r]; [repeat constructor; simpl; now rewrite Ha|].
      inversion IH; subst. constructor; [simpl; now rewrite Ha | assumption].
Qed.

Lemma is_space_nl : is_space nl = true.
Proof. reflexivity. Qed.

Lemma is_space_hash : is_space hash = false.
Proof. reflexivity. Qed.

Lemma remove_ws_join_nl (ls : list pystr) :
  remove_ws (join [nl] ls) = concat (map remove_ws ls).
Proof.
  induction ls as [|l r IH]; simpl; [reflexivity|].
  destruct r as [|l' r'].
  - simpl. now rewrite app_nil_r.
  - rewrite remove_ws_app. f_equal.
    change ([nl] ++ join [nl] (l' :: r')) with (nl :: join [nl] (l' :: r')).
    unfold remove_ws at 1. simpl filter. fold (remove_ws (join [nl] (l' :: r'))).
    exact IH.
Qed.

Lemma remove_ws_lines (s : pystr) :
  remove_ws s = concat (map remove_ws (split_on nl s)).
Proof. now rewrite <- remove_ws_join_nl, join_split_on. Qed.

(** ** The function-based segmenter *)

Section FunctionPathFacts.
Import FunctionPath.

(** A run of non-heading lines only feeds the line buffer. *)
Lemma fold_body (body : list pystr) (st : seg_state) :
  forallb nonheading body = true ->
  fold_left seg_step body st
  = mk_seg (sections st) (current_section st)
           (section_content st ++ filter nonblank body) (next_index st).
Proof.
  revert st. induction body as [|l body IH]; intros st H; simpl.
  - rewrite app_nil_r. now destruct st.
  - simpl in H. apply andb_true_iff in H as [Hl Hb].
    rewrite (IH _ Hb). unfold seg_step, nonheading, nonblank in *.
    apply negb_true_iff in Hl. rewrite Hl, truthy_strip_blank.
    destruct (blank l); simpl; [reflexivity|].
    now rewrite <- app_assoc.
Qed.

Lemma space_line_nonheading (l : pystr) :
  forallb is_space l = true -> nonheading l = true.
Proof.
  unfold nonheading, is_heading.
  destruct l as [|a t]; simpl; [reflexivity|].
  intro H. apply andb_true_iff in H as [Ha _].
  destruct (ascii_eqb hash a) eqn:E; [|reflexivity].
  apply Ascii.eqb_eq in E. subst a. discriminate.
Qed.

Lemma heading_sections_blank (md : pystr) :
  forallb is_space md = true -> heading_sections md = [].
Proof.
  intro H. unfold heading_sections.
  pose proof (split_on_forallb is_space nl md H) as Hl.
  rewrite fold_body.
  - unfold save_pending. reflexivity.
  - apply forallb_forall. intros l Hin.
    rewrite Forall_forall in Hl. apply space_line_nonheading. now apply Hl.
Qed.

(** Appending a larger element keeps a list strictly increasing. *)
Lemma sorted_snoc (l : list nat) (x : nat) :
  StronglySorted lt l -> Forall (fun y => y < x) l ->
  StronglySorted lt (l ++ [x]).
Proof.
  induction 1 as [|a l Hs IH Ha]; intro Hx; simpl.
  - repeat constructor.
  - inversion Hx; subst. constructor; [now apply IH|].
    apply Forall_app. split; [assumption | now repeat constructor].
Qed.

Lemma save_pending_sorted (st : seg_state) :
  seg_inv st ->
  StronglySorted lt (map order_index (save_pending st)) /\
  Forall (fun y => y < next_index st) (map order_index (save_pending st)).
Proof.
  intros [Hs Hc]. unfold save_pending.
  destruct (current_section st) as [cur|] eqn:Ec.
  - destruct Hc as [Hlt Hn].
    assert (Hall : Forall (fun y => y < next_index st)
                          (map order_index (sections st))).
    { eapply Forall_impl; [|exact Hlt]. simpl. intros; lia. }
    destruct (section_content st); [now split|].
    rewrite map_app; simpl. split.
    + now apply sorted_snoc.
    + apply Forall_app. split; [assumption | now repeat constructor].
  - rewrite Hc. destruct (section_content st); simpl; split; constructor.
Qed.

Lemma seg_step_inv (st : seg_state) (line : pystr) :
  seg_inv st -> seg_inv (seg_step st line).
Proof.
  intro H. unfold seg_step.
  destruct (is_heading line).
  - destruct (save_pending_sorted H) as [Hs Hb].
    split; simpl; [assumption | split; [assumption | lia]].
  - destruct (truthy (strip line)); [|assumption].
    destruct H as [Hs Hc]. split; simpl; assumption.
Qed.

Lemma fold_seg_inv (lines : list pystr) (st : seg_state) :
  seg_inv st -> seg_inv (fold_left seg_step lines st).
Proof.
  revert st. induction lines as [|l lines IH]; intros st H; simpl;
    [assumption | apply IH, seg_step_inv, H].
Qed.

Lemma process_sections_sorted (md : pystr) :
  StronglySorted lt (map order_index (process_sections md)).
Proof.
  unfold process_sections.
  assert (H : StronglySorted lt (map order_index (heading_sections md))).
  { unfold heading_sections. apply save_pending_sorted, fold_seg_inv.
    split; simpl; [constructor | reflexivity]. }
  destruct (heading_sections md) eqn:E; [|exact H].
  destruct (truthy (strip md)); simpl; repeat constructor.
Qed.

Lemma existsb_filter_not_nil (A : Type) (q : A -> bool) (l : list A) :
  existsb q l = true -> filter q l <> [].
Proof.
  induction l as [|a l IH]; simpl; [discriminate|].
  destruct (q a); simpl; [discriminate | exact IH].
Qed.

Lemma fold_blocks (blocks : list block) (st : seg_state) :
  forallb block_ok blocks = true ->
  let st' := fold_left seg_step (flat_map block_lines blocks) st in
  map order_index (save_pending st')
    = map order_index (save_pending st)
      ++ seq (next_index st) (length blocks)
  /\ map title (save_pending st')
    = map title (save_pending st) ++ map block_title blocks.
Proof.
  revert st. induction blocks as [|[h body] blocks IH]; intros st H; simpl.
  - now rewrite !app_nil_r.
  - simpl in H. apply andb_true_iff in H as [Hb Hbs].
    unfold block_ok in Hb; simpl in Hb.
    apply andb_true_iff in Hb as [Hb Hex].
    apply andb_true_iff in Hb as [Hh Hnh].
    rewrite fold_left_app.
    replace (seg_step st h) with
      (mk_seg (save_pending st)
              (Some (mk_section (strip (strip_char hash h)) [] (next_index st) 0))
              [] (S (next_index st)))
      by (unfold seg_step; now rewrite Hh).
    rewrite (fold_body _ _ Hnh). simpl.
    specialize (IH (mk_seg (save_pending st)
      (Some (mk_section (strip (strip_char hash h)) [] (next_index st) 0))
      (filter nonblank body) (S (next_index st))) Hbs).
    simpl in IH. destruct IH as [IH1 IH2].
    assert (Hsave :
      save_pending (mk_seg (save_pending st)
        (Some (mk_section (strip (strip_char hash h)) [] (next_index st) 0))
        (filter nonblank body) (S (next_index st)))
      = save_pending st
        ++ [mk_section (strip (strip_char hash h))
              (strip (join [nl] (filter nonblank body))) (next_index st)
              (estimate_reading_time
                 (strip (join [nl] (filter nonblank body))))]).
    { unfold save_pending at 1. simpl.
      pose proof (existsb_filter_not_nil _ _ Hex) as Hne.
      destruct (filter nonblank body); [congruence | reflexivity]. }
    rewrite Hsave in IH1, IH2.
    rewrite IH1, IH2, !map_app. simpl. unfold block_title. simpl.
    now rewrite <- !app_assoc.
Qed.

End FunctionPathFacts.

(** *** What the sections keep of the text *)

Section FunctionPathText.
Import FunctionPath.

Lemma remove_ws_concat (ls : list pystr) :
  remove_ws (concat ls) = concat (map remove_ws ls).
Proof.
  induction ls as [|l r IH]; simpl; [reflexivity|].
  now rewrite remove_ws_app, IH.
Qed.

Lemma all_content_snoc (secs : list section_dict) (s : section_dict) :
  all_content (secs ++ [s]) = all_content secs ++ content s.
Proof.
  unfold all_content. rewrite map_app, concat_app. simpl.
  now rewrite app_nil_r.
Qed.

Lemma save_pending_text (st : seg_state) :
  remove_ws (all_content (save_pending st)) = kept_text st.
Proof.
  unfold save_pending, kept_text, pending_text.
  destruct (current_section st) as [cur|].
  - destruct (section_content st) as [|l ls] eqn:E.
    + simpl. now rewrite app_nil_r.
    + rewrite all_content_snoc, remove_ws_app. f_equal. cbn [content].
      now rewrite remove_ws_strip, remove_ws_join_nl.
  - destruct (section_content st); now rewrite app_nil_r.
Qed.

Lemma step_text (st : seg_state) (l : pystr) :
  current_section st <> None ->
  current_section (seg_step st l) <> None /\
  kept_text (seg_step st l)
  = kept_text st ++ (if is_heading l then [] else remove_ws l).
Proof.
  intro Hc. unfold seg_step.
  destruct (is_heading l) eqn:Eh.
  - split; [discriminate|]. unfold kept_text at 1, pending_text at 1. simpl.
    now rewrite save_pending_text.
  - rewrite truthy_strip_blank. destruct (blank l) eqn:Eb; simpl.
    + split; [assumption|]. apply blank_remove_ws in Eb. rewrite Eb.
      now rewrite app_nil_r.
    + split; [assumption|]. unfold kept_text, pending_text. simpl.
      destruct (current_section st); [|congruence].
      now rewrite map_app, concat_app, app_assoc; simpl; rewrite app_nil_r.
Qed.

Lemma fold_text (lines : list pystr) (st : seg_state) :
  current_section st <> None ->
  kept_text (fold_left seg_step lines st)
  = kept_text st ++ remove_ws (concat (filter nonheading lines)).
Proof.
  revert st. induction lines as [|l lines IH]; intros st Hc; simpl.
  - now rewrite app_nil_r.
  - destruct (step_text st l Hc) as [Hc' Ht].
    rewrite (IH _ Hc'), Ht. unfold nonheading at 2.
    destruct (is_heading l); simpl.
    + now rewrite app_nil_r.
    + now rewrite remove_ws_app, app_assoc.
Qed.

(** The text is cut at its first heading line, if it has one. *)
Lemma cut_at_first_heading (lines : list pystr) :
  existsb is_heading lines = false /\ leading lines = lines
  \/ exists h tail,
       lines = leading lines ++ h :: tail /\ is_heading h = true.
Proof.
  induction lines as [|l r IH]; simpl.
  - now left.
  - destruct (is_heading l) eqn:E; simpl.
    + right. now exists l, r.
    + destruct IH as [[H1 H2]|(h & tail & H1 & H2)].
      * left. now rewrite H2.
      * right. exists h, tail. now rewrite <- H1.
Qed.

Lemma leading_nonheading (lines : list pystr) :
  forallb nonheading (leading lines) = true.
Proof.
  induction lines as [|l r IH]; simpl; [reflexivity|].
  destruct (is_heading l) eqn:E; simpl; [reflexivity|].
  unfold nonheading at 1. now rewrite E.
Qed.

Lemma no_heading_forall (lines : list pystr) :
  existsb is_heading lines = false -> forallb nonheading lines = true.
Proof.
  induction lines as [|l r IH]; simpl; [reflexivity|].
  intro H. apply orb_false_iff in H as [H1 H2].
  unfold nonheading at 1. now rewrite H1, IH.
Qed.

Lemma filter_all (A : Type) (q : A -> bool) (l : list A) :
  forallb q l = true -> filter q l = l.
Proof.
  induction l as [|a l IH]; simpl; [reflexivity|].
  intro H. apply andb_true_iff in H as [Ha Hl]. now rewrite Ha, IH.
Qed.

Lemma blank_lines_no_text (ls : list pystr) :
  forallb blank ls = true -> remove_ws (concat ls) = [].
Proof.
  induction ls as [|l r IH]; simpl; [reflexivity|].
  intro H. apply andb_true_iff in H as [Hl Hr].
  rewrite remove_ws_app, (IH Hr).
  apply blank_remove_ws in Hl. now rewrite Hl.
Qed.

Lemma fold_text_from_start (lines : list pystr) (st : seg_state) :
  current_section st = None -> sections st = [] ->
  kept_text (fold_left seg_step lines st)
  = remove_ws (concat (filter nonheading (after_first_heading lines))).
Proof.
  revert st. induction lines as [|l r IH]; intros st Hc Hs; simpl.
  - unfold kept_text, pending_text. now rewrite Hc, Hs.
  - destruct (is_heading l) eqn:E.
    + rewrite fold_text.
      * unfold seg_step. rewrite E. unfold kept_text, pending_text. simpl.
        unfold save_pending. rewrite Hc, Hs. reflexivity.
      * unfold seg_step. rewrite E. discriminate.
    + apply IH; unfold seg_step; rewrite E;
        destruct (truthy (strip l)); simpl; assumption.
Qed.

(** What the heading sections hold, up to whitespace: the non-heading
    lines after the first heading line. *)
Lemma heading_sections_text (md : pystr) :
  remove_ws (all_content (heading_sections md))
  = remove_ws (concat (filter nonheading
                         (after_first_heading (split_on nl md)))).
Proof.
  unfold heading_sections. rewrite save_pending_text.
  now apply fold_text_from_start.
Qed.

Lemma filter_nonheading_cut (lines : list pystr) :
  filter nonheading lines
  = leading lines ++ filter nonheading (after_first_heading lines).
Proof.
  induction lines as [|l r IH]; simpl; [reflexivity|].
  unfold nonheading at 1. destruct (is_heading l); simpl; [reflexivity|].
  now rewrite IH.
Qed.

Lemma no_heading_after (lines : list pystr) :
  existsb is_heading lines = false -> after_first_heading lines = [].
Proof.
  induction lines as [|l r IH]; simpl; [reflexivity|].
  intro H. apply orb_false_iff in H as [H1 H2]. now rewrite H1, IH.
Qed.

Lemma nonblank_text (l : pystr) : nonblank l = true -> remove_ws l <> [].
Proof.
  unfold nonblank. intros H Hr. apply blank_remove_ws in Hr.
  rewrite Hr in H. discriminate.
Qed.

Lemma save_pending_has_text (st : seg_state) :
  text_inv st ->
  Forall (fun s => remove_ws (content s) <> []) (save_pending st).
Proof.
  intros [Hs Hb]. unfold save_pending.
  destruct (current_section st) as [cur|]; [|now destruct (section_content st)].
  destruct (section_content st) as [|l ls] eqn:E; [assumption|].
  apply Forall_app. split; [assumption|]. constructor; [|constructor].
  cbn [content]. rewrite remove_ws_strip, remove_ws_join_nl. simpl.
  simpl in Hb. apply andb_true_iff in Hb as [Hl _].
  pose proof (nonblank_text _ Hl) as Hne.
  destruct (remove_ws l); [congruence | discriminate].
Qed.

Lemma seg_step_text_inv (st : seg_state) (l : pystr) :
  text_inv st -> text_inv (seg_step st l).
Proof.
  intro H. unfold seg_step. destruct (is_heading l).
  - split; simpl; [now apply save_pending_has_text | reflexivity].
  - rewrite truthy_strip_blank. destruct (blank l) eqn:E; simpl; [assumption|].
    destruct H as [Hs Hb]. split; simpl; [assumption|].
    rewrite forallb_app, Hb. simpl. unfold nonblank. now rewrite E.
Qed.

Lemma fold_text_inv (lines : list pystr) (st : seg_state) :
  text_inv st -> text_inv (fold_left seg_step lines st).
Proof.
  revert st. induction lines as [|l r IH]; intros st H; simpl;
    [assumption | apply IH, seg_step_text_inv, H].
Qed.

Lemma heading_sections_nil_iff (md : pystr) :
  heading_sections md = [] <->
  remove_ws (all_content (heading_sections md)) = [].
Proof.
  split; [intros ->; reflexivity|].
  assert (H : Forall (fun s => remove_ws (content s) <> [])
                     (heading_sections md)).
  { unfold heading_sections. apply save_pending_has_text, fold_text_inv.
    split; [constructor | reflexivity]. }
  destruct (heading_sections md) as [|s r]; [reflexivity|].
  inversion H; subst. unfold all_content. simpl. rewrite remove_ws_app.
  destruct (remove_ws (content s)); [congruence | discriminate].
Qed.

(** Without text before the first heading, the heading sections hold the
    text of the non-heading lines, up to whitespace; without any heading
    they hold nothing and the non-heading lines are the whole text. *)
Lemma heading_sections_body (md : pystr) :
  no_text_before_heading md = true ->
  (remove_ws (all_content (heading_sections md)) = []
   /\ remove_ws (body_text md) = remove_ws md)
  \/ remove_ws (all_content (heading_sections md)) = remove_ws (body_text md).
Proof.
  unfold no_text_before_heading, body_text. intro H.
  rewrite heading_sections_text.
  apply orb_true_iff in H as [H|H].
  - left. apply negb_true_iff in H.
    rewrite (no_heading_after _ H). split; [reflexivity|].
    rewrite (filter_all _ _ (no_heading_forall _ H)).
    now rewrite (remove_ws_lines md), remove_ws_concat.
  - right. rewrite (filter_nonheading_cut (split_on nl md)).
    rewrite concat_app, remove_ws_app.
    now rewrite (blank_lines_no_text _ H).
Qed.

Lemma process_sections_text (md : pystr) :
  no_text_before_heading md = true ->
  remove_ws (all_content (process_sections md))
  = match remove_ws (body_text md) with
    | [] => remove_ws md
    | t => t
    end.
Proof.
  intro H. pose proof (heading_sections_nil_iff md) as Hnil.
  unfold process_sections.
  destruct (heading_sections md) as [|s r] eqn:E.
  - assert (Hl : remove_ws
                   (all_content
                      (if truthy (strip md)
                       then [mk_section (lit "Content") (strip md) 0
                                        (estimate_reading_time md)]
                       else []))
                 = remove_ws md).
    { rewrite truthy_strip_blank. destruct (blank md) eqn:Eb; simpl.
      - apply blank_remove_ws in Eb. now rewrite Eb.
      - unfold all_content. simpl. now rewrite app_nil_r, remove_ws_strip. }
    rewrite Hl.
    destruct (heading_sections_body md H) as [[_ Hb]|Hb].
    + rewrite Hb. now destruct (remove_ws md).
    + rewrite <- Hb, E. reflexivity.
  - destruct (heading_sections_body md H) as [[Ht _]|Hb].
    + rewrite E in Ht. apply Hnil in Ht. discriminate.
    + rewrite <- Hb, E.
      assert (Hne : remove_ws (all_content (s :: r)) <> [])
        by (intro Et; apply Hnil in Et; discriminate).
      destruct (remove_ws (all_content (s :: r))); [congruence | reflexivity].
Qed.

End FunctionPathText.

(** ** The class-based segmenter *)

Section ClassPathFacts.
Import ClassPath.

Lemma nonblank_app_l (x y : pystr) :
  nonblank x = true -> nonblank (x ++ y) = true.
Proof.
  unfold nonblank. intro H. apply negb_true_iff in H. apply negb_true_iff.
  destruct (blank (x ++ y)) eqn:E; [|reflexivity].
  apply blank_iff in E. rewrite forallb_app in E.
  apply andb_true_iff in E as [E _]. apply blank_iff in E. congruence.
Qed.

Lemma nonblank_app_r (x y : pystr) :
  nonblank y = true -> nonblank (x ++ y) = true.
Proof.
  unfold nonblank. intro H. apply negb_true_iff in H. apply negb_true_iff.
  destruct (blank (x ++ y)) eqn:E; [|reflexivity].
  apply blank_iff in E. rewrite forallb_app in E.
  apply andb_true_iff in E as [_ E]. apply blank_iff in E. congruence.
Qed.

Lemma header_nonblank (l : pystr) : is_header l = true -> nonblank l = true.
Proof.
  unfold is_header, nonblank, blank. rewrite negb_involutive.
  destruct (strip l); [discriminate | reflexivity].
Qed.

Lemma save_current_seq (st : seg_state) :
  idx_inv st ->
  exists a, a <= 1 /\ a <= S (section_index st) /\
    map order_index (save_current st) = seq a (S (section_index st) - a).
Proof.
  intros (Hi & Hz & a & Ha & Hle & Hs). unfold save_current.
  rewrite truthy_strip_blank. fold (nonblank (content (current_section st))).
  destruct (nonblank (content (current_section st))) eqn:E.
  - exists a. split; [assumption|]. split; [lia|].
    rewrite map_app, Hs. cbn [map order_index]. rewrite Hi.
    replace (S (section_index st) - a) with (S (section_index st - a)) by lia.
    rewrite seq_S. do 2 f_equal. lia.
  - destruct Hz as [Hz|Hz]; [|discriminate].
    exists 1. split; [lia|]. split; [lia|].
    rewrite Hs, Hz. now destruct a.
Qed.

Lemma seg_step_idx_inv (st : seg_state) (line : pystr) :
  idx_inv st -> idx_inv (seg_step st line).
Proof.
  intro H. unfold seg_step. destruct (is_header line) eqn:E.
  - destruct (save_current_seq H) as (a & Ha & Hle & Hs).
    split; [reflexivity|]. split.
    + right. simpl. now apply nonblank_app_l, header_nonblank.
    + exists a. simpl. split; [assumption|]. split; assumption.
  - destruct H as (Hi & Hz & Hex).
    split; [exact Hi|]. split; [|exact Hex].
    destruct Hz as [Hz|Hz]; [now left | right].
    simpl. now apply nonblank_app_l.
Qed.

Lemma fold_idx_inv (lines : list pystr) (st : seg_state) :
  idx_inv st -> idx_inv (fold_left seg_step lines st).
Proof.
  revert st. induction lines as [|l r IH]; intros st H; simpl;
    [assumption | apply IH, seg_step_idx_inv, H].
Qed.

Lemma create_sections_consecutive (md : pystr) :
  exists a k, a <= 1 /\ map order_index (_create_sections md) = seq a k.
Proof.
  unfold _create_sections.
  destruct (@save_current_seq (fold_left seg_step (split_on nl md) seg_init))
    as (a & Ha & _ & Hs).
  - apply fold_idx_inv. split; [reflexivity|]. split; [now left|].
    exists 0. simpl. split; [lia|]. split; [lia | reflexivity].
  - now exists a, (S (section_index
                        (fold_left seg_step (split_on nl md) seg_init)) - a).
Qed.

Lemma seq_sorted (a k : nat) : StronglySorted lt (seq a k).
Proof.
  revert a. induction k as [|k IH]; intro a; simpl; constructor.
  - apply IH.
  - apply Forall_forall. intros x Hx. apply in_seq in Hx. lia.
Qed.

(** A run of lines that are no headers is appended to the pending
    section, every line followed by a newline. *)
Lemma fold_plain (body : list pystr) (st : seg_state) :
  forallb (fun l => negb (is_header l)) body = true ->
  fold_left seg_step body st
  = mk_seg (sections st)
      (mk_section (title (current_section st))
         (content (current_section st)
          ++ concat (map (fun l => l ++ [nl]) body))
         (order_index (current_section st))
         (estimated_minutes (current_section st)))
      (section_index st).
Proof.
  revert st. induction body as [|l body IH]; intros st H; simpl.
  - rewrite app_nil_r. destruct st as [s [t c o e] i]. reflexivity.
  - simpl in H. apply andb_true_iff in H as [Hl Hb].
    rewrite (IH _ Hb). unfold seg_step.
    apply negb_true_iff in Hl. rewrite Hl. simpl.
    now rewrite <- !app_assoc.
Qed.

Lemma sections_grow (lines : list pystr) (st : seg_state) :
  exists more, save_current (fold_left seg_step lines st) = sections st ++ more.
Proof.
  revert st. induction lines as [|l r IH]; intro st; simpl.
  - unfold save_current. destruct (truthy (strip (content (current_section st)))).
    + eexists. reflexivity.
    + exists []. now rewrite app_nil_r.
  - destruct (IH (seg_step st l)) as [more Hm]. rewrite Hm.
    unfold seg_step. destruct (is_header l); simpl.
    + unfold save_current.
      destruct (truthy (strip (content (current_section st)))).
      * rewrite <- app_assoc. eexists. reflexivity.
      * now exists more.
    + now exists more.
Qed.

Lemma nonblank_lines_text (ls : list pystr) :
  existsb nonblank ls = true ->
  nonblank (concat (map (fun l => l ++ [nl]) ls)) = true.
Proof.
  induction ls as [|l r IH]; simpl; [discriminate|].
  intro H. apply orb_true_iff in H as [H|H].
  - rewrite <- app_assoc. now apply nonblank_app_l.
  - now apply nonblank_app_r, IH.
Qed.

(** The class-based segmenter keeps the text before the first header: it
    is the content of a first section titled "Introduction", every line
    followed by its newline. *)
Lemma create_sections_keeps_leading_text
    (md : pystr) (pre rest : list pystr) :
  split_on nl md = pre ++ rest ->
  forallb (fun l => negb (is_header l)) pre = true ->
  match rest with [] => true | h :: _ => is_header h end = true ->
  existsb nonblank pre = true ->
  exists minutes more,
    _create_sections md
    = mk_section (lit "Introduction")
        (concat (map (fun l => l ++ [nl]) pre)) 0 minutes :: more.
Proof.
  intros Hsplit Hpre Hrest Htext. unfold _create_sections.
  rewrite Hsplit, fold_left_app, (fold_plain _ _ Hpre). simpl.
  pose proof (nonblank_lines_text _ Htext) as Hnb.
  unfold nonblank, blank in Hnb. rewrite negb_involutive in Hnb.
  destruct rest as [|h t]; simpl.
  - unfold save_current. simpl. rewrite Hnb. simpl.
    eexists; eexists; reflexivity.
  - match goal with |- context [fold_left seg_step t ?s] =>
      destruct (sections_grow t s) as [more Hm] end.
    rewrite Hm. unfold seg_step at 1. rewrite Hrest. simpl.
    unfold save_current. simpl. rewrite Hnb. simpl.
    eexists; eexists; reflexivity.
Qed.

Lemma space_line_no_header (l : pystr) :
  forallb is_space l = true -> is_header l = false.
Proof.
  intro H. apply strip_nil_iff in H. unfold is_header. now rewrite H.
Qed.

(** Blank input gives no section in the class-based segmenter either. *)
Lemma create_sections_blank (md : pystr) :
  forallb is_space md = true -> _create_sections md = [].
Proof.
  intro H. unfold _create_sections.
  pose proof (split_on_forallb is_space nl md H) as Hl.
  rewrite fold_plain.
  - unfold save_current. cbn [current_section content seg_init app].
    assert (Hb : forallb is_space
                   (concat (map (fun l => l ++ [nl]) (split_on nl md)))
                 = true).
    { induction Hl as [|l ls Hl' _ IH]; [reflexivity|].
      simpl. rewrite !forallb_app, Hl', IH. reflexivity. }
    apply strip_nil_iff in Hb. now rewrite Hb.
  - apply forallb_forall. intros l Hin. rewrite Forall_forall in Hl.
    apply negb_true_iff, space_line_no_header. now apply Hl.
Qed.

End ClassPathFacts.

(** ** Segmentation: the claims *)

(** C1, as stated: the indices of the emitted sections are 0, 1, ...
    This fails where a heading has no content below it: the section of
    "# A" is dropped and that of "# B" keeps index 1.  The class-based
    segmenter starts the same text at index 1. *)
Lemma order_index_not_zero_based :
  let md := text_of_lines ["# A"; "# B"; "x"]%string in
  map order_index (FunctionPath.process_sections md) = [1]
  /\ map order_index (FunctionPath.process_sections md)
     <> seq 0 (length (FunctionPath.process_sections md))
  /\ map order_index (ClassPath._create_sections md) = [1; 2]
  /\ map order_index (ClassPath._create_sections md)
     <> seq 0 (length (ClassPath._create_sections md)).
Proof.
  vm_compute. repeat split; try reflexivity; discriminate.
Qed.

(** C1 (amended): in both segmenters the [order_index] values of the
    emitted sections are strictly increasing in document order; in
    [_create_sections] they are consecutive integers starting at 0 or 1;
    and for input whose lines are any non-heading lines followed by
    N >= 1 blocks, each a heading line followed by non-heading lines of
    which one is not blank, [process_sections] emits exactly N sections
    with [order_index] 0..N-1, titled by the headings in document order. *)
Theorem order_index_increasing :
  (forall md,
     StronglySorted lt (map order_index (FunctionPath.process_sections md))
     /\ StronglySorted lt (map order_index (ClassPath._create_sections md)))
  /\ (forall md, exists a k,
        a <= 1 /\ map order_index (ClassPath._create_sections md) = seq a k)
  /\ (forall md pre blocks,
        split_on nl md = pre ++ flat_map block_lines blocks ->
        forallb nonheading pre = true ->
        forallb block_ok blocks = true ->
        blocks <> [] ->
        length (FunctionPath.process_sections md) = length blocks
        /\ map order_index (FunctionPath.process_sections md)
           = seq 0 (length blocks)
        /\ map title (FunctionPath.process_sections md)
           = map block_title blocks).
Proof.
  split; [|split].
  - intro md. split; [apply process_sections_sorted|].
    destruct (create_sections_consecutive md) as (a & k & _ & ->).
    apply seq_sorted.
  - apply create_sections_consecutive.
  - intros md pre blocks Hsplit Hpre Hok Hne.
    cut (map order_index (FunctionPath.process_sections md)
           = seq 0 (length blocks)
         /\ map title (FunctionPath.process_sections md)
           = map block_title blocks).
    { intros [H1 H2]. split; [|now split].
      apply (f_equal (@length nat)) in H1.
      now rewrite length_map, length_seq in H1. }
    unfold FunctionPath.process_sections.
    assert (H : map order_index (FunctionPath.heading_sections md)
                  = seq 0 (length blocks)
                /\ map title (FunctionPath.heading_sections md)
                  = map block_title blocks).
    { unfold FunctionPath.heading_sections.
      rewrite Hsplit, fold_left_app, (fold_body _ _ Hpre).
      exact (fold_blocks blocks
               (FunctionPath.mk_seg [] None (filter nonblank pre) 0) Hok). }
    destruct (FunctionPath.heading_sections md) as [|s r]; [|exact H].
    destruct H as [H _]. destruct blocks; [congruence | discriminate].
Qed.

Lemma order_index_increasing_witness :
  let md := text_of_lines ["preface"; "# A"; "a"; ""; "## B"; "b"]%string in
  length (FunctionPath.process_sections md) = 2
  /\ map order_index (FunctionPath.process_sections md) = [0; 1]
  /\ map title (FunctionPath.process_sections md) = [lit "A"; lit "B"].
Proof.
  apply (proj2 (proj2 order_index_increasing)
           (text_of_lines ["preface"; "# A"; "a"; ""; "## B"; "b"]%string)
           [lit "preface"]
           [(lit "# A", [lit "a"; lit ""]); (lit "## B", [lit "b"])]);
    [reflexivity | reflexivity | reflexivity | discriminate].
Defined.

(** C2: the function-based segmenter loses the text before the first
    heading: on "intro / # A / body" its only section holds "body", and
    "intro" is in no section. *)
Theorem process_sections_drops_leading_text :
  let md := text_of_lines ["intro"; "# A"; "body"]%string in
  FunctionPath.process_sections md = [mk_section (lit "A") (lit "body") 0 1]
  /\ existsb (fun s => contains (lit "intro") (content s))
             (FunctionPath.process_sections md) = false
  /\ map content (ClassPath._create_sections md)
     = [lit "intro" ++ [nl]; lit "# A" ++ [nl] ++ lit "body" ++ [nl]].
Proof. vm_compute. repeat split. Qed.

(** C3, as stated, fails under either reading.  A text that is only a
    heading goes whole into the catch-all section, heading included; a
    heading with content below it goes to the title, not to any content. *)
Lemma round_trip_fails :
  ~ round_trip_body (text_of_lines ["# A"]%string)
  /\ ~ round_trip_whole (text_of_lines ["# A"; "x"]%string).
Proof.
  unfold round_trip_body, round_trip_whole. vm_compute.
  split; discriminate.
Qed.

(** C3 (amended): when no non-blank line comes before a heading line, the
    contents of the emitted sections, concatenated in order, agree up to
    whitespace with the non-heading lines of the input whenever these hold
    any text; when they hold none, the concatenation agrees up to
    whitespace with the whole input (the catch-all section holds the
    stripped input, heading lines included, and blank input gives no
    section). *)
Theorem content_round_trip (md : pystr) :
  no_text_before_heading md = true ->
  remove_ws (all_content (FunctionPath.process_sections md))
  = match remove_ws (body_text md) with
    | [] => remove_ws md
    | t => t
    end.
Proof. apply process_sections_text. Qed.

Lemma content_round_trip_witness :
  let md := text_of_lines [" "; "# A"; "one two"; "# B"; "# C"; " three"]%string in
  remove_ws (all_content (FunctionPath.process_sections md))
  = lit "onetwothree".
Proof.
  exact (content_round_trip
           (text_of_lines [" "; "# A"; "one two"; "# B"; "# C"; " three"]%string)
           eq_refl).
Defined.

(** C9: input that is empty or all whitespace gives no section. *)
Theorem blank_input_no_sections (md : pystr) :
  forallb is_space md = true -> FunctionPath.process_sections md = [].
Proof.
  intro H. unfold FunctionPath.process_sections.
  rewrite (heading_sections_blank md H).
  apply strip_nil_iff in H. now rewrite H.
Qed.

Lemma blank_input_no_sections_witness :
  FunctionPath.process_sections (text_of_lines ["  "; ""; " "]%string) = [].
Proof.
  exact (blank_input_no_sections (text_of_lines ["  "; ""; " "]%string) eq_refl).
Defined.

(** Text without any heading line that is not blank goes into the single
    catch-all section. *)
Lemma process_sections_no_heading (md : pystr) :
  existsb FunctionPath.is_heading (split_on nl md) = false ->
  blank md = false ->
  FunctionPath.process_sections md
  = [mk_section (lit "Content") (strip md) 0 (estimate_reading_time md)].
Proof.
  intros Hh Hb. unfold FunctionPath.process_sections.
  assert (E : FunctionPath.heading_sections md = []).
  { unfold FunctionPath.heading_sections.
    now rewrite (fold_body _ _ (no_heading_forall _ Hh)). }
  rewrite E, truthy_strip_blank, Hb. reflexivity.
Qed.

(** ** Reading time *)

Lemma rev_cons_not_nil (A : Type) (c : A) (l : list A) : rev (c :: l) <> [].
Proof.
  simpl. intro E. apply app_eq_nil in E. destruct E; discriminate.
Qed.

Lemma split_ws_from_length (cur s : pystr) :
  length (split_ws_from cur s)
  = (if truthy cur then 1 else 0) + count_tokens (truthy cur) s.
Proof.
  revert cur. induction s as [|a t IH]; intro cur; simpl.
  - now destruct cur.
  - destruct (is_space a).
    + destruct cur; simpl; now rewrite IH.
    + rewrite IH. simpl. destruct cur; simpl; lia.
Qed.

Lemma split_ws_length (s : pystr) : length (split_ws s) = word_count s.
Proof. unfold split_ws. now rewrite split_ws_from_length. Qed.

(** The tokens of [s.split()] are non-empty, hold no whitespace, and put
    together give the text without its whitespace. *)
Lemma split_ws_from_tokens (cur s : pystr) :
  forallb (fun c => negb (is_space c)) cur = true ->
  Forall (fun t => t <> [] /\ forallb (fun c => negb (is_space c)) t = true)
         (split_ws_from cur s)
  /\ concat (split_ws_from cur s) = rev cur ++ remove_ws s.
Proof.
  revert cur. induction s as [|a t IH]; intros cur Hc; simpl.
  - destruct cur as [|c cur']; [split; [constructor | reflexivity]|].
    split; [|reflexivity].
    constructor; [|constructor]. split.
    + apply rev_cons_not_nil.
    + now rewrite forallb_rev_eq.
  - unfold remove_ws. simpl filter. fold (remove_ws t).
    destruct (is_space a) eqn:Ea; simpl.
    + destruct (IH [] eq_refl) as [IH1 IH2].
      destruct cur as [|c cur']; [now split|].
      split.
      * constructor; [|exact IH1]. split.
        -- apply rev_cons_not_nil.
        -- now rewrite forallb_rev_eq.
      * simpl concat. now rewrite IH2.
    + destruct (IH (a :: cur)) as [IH1 IH2].
      * simpl. now rewrite Ea.
      * split; [exact IH1|]. rewrite IH2. simpl. now rewrite <- app_assoc.
Qed.

Lemma split_ws_tokens (s : pystr) :
  Forall (fun t => t <> [] /\ forallb (fun c => negb (is_space c)) t = true)
         (split_ws s)
  /\ concat (split_ws s) = remove_ws s.
Proof. apply (split_ws_from_tokens [] s eq_refl). Qed.

Lemma py_round_div_nearest (n d : nat) :
  0 < d -> nearest_int n d (py_round_div n d).
Proof.
  intro Hd. unfold nearest_int, py_round_div.
  pose proof (Nat.div_mod_eq n d) as Hn.
  pose proof (Nat.mod_upper_bound n d ltac:(lia)) as Hr.
  destruct (2 * (n mod d) <? d) eqn:E1.
  - apply Nat.ltb_lt in E1. nia.
  - apply Nat.ltb_ge in E1.
    destruct (d <? 2 * (n mod d)) eqn:E2.
    + apply Nat.ltb_lt in E2. nia.
    + apply Nat.ltb_ge in E2. destruct (Nat.even (n / d)); nia.
Qed.

(** On a tie the even neighbour is taken. *)
Lemma py_round_div_tie (n d : nat) :
  2 * (n mod d) = d -> Nat.even (py_round_div n d) = true.
Proof.
  intro H. unfold py_round_div. rewrite H, Nat.ltb_irrefl.
  destruct (Nat.even (n / d)) eqn:E; [exact E|].
  rewrite Nat.even_succ. rewrite <- Nat.negb_even, E. reflexivity.
Qed.

(** C4: each estimator returns max(1, round(words / WPM)) for one fixed
    WPM between 200 and 225 (225 in [estimate_reading_time], 200 in
    [_estimate_reading_time]), where [words] is the number of
    whitespace-delimited tokens of the content and the rounded value is an
    integer nearest to the quotient (Python's [round], ties to even); the
    estimate is never below 1, and it is 1 for content of one word. *)
Theorem reading_time_estimate :
  (exists wpm, 200 <= wpm <= 225 /\
     forall content,
       estimate_reading_time content
       = Nat.max 1 (py_round_div (word_count content) wpm))
  /\ (exists wpm, 200 <= wpm <= 225 /\
        forall content,
          _estimate_reading_time content
          = Nat.max 1 (py_round_div (word_count content) wpm))
  /\ (forall n wpm, 0 < wpm -> nearest_int n wpm (py_round_div n wpm))
  /\ (forall content,
        1 <= estimate_reading_time content
        /\ 1 <= _estimate_reading_time content)
  /\ (forall content,
        word_count content = 1 ->
        estimate_reading_time content = 1
        /\ _estimate_reading_time content = 1).
Proof.
  split; [|split; [|split; [|split]]].
  - exists 225. split; [lia|]. intro content.
    unfold estimate_reading_time. now rewrite split_ws_length.
  - exists 200. split; [lia|]. intro content.
    unfold _estimate_reading_time. now rewrite split_ws_length.
  - exact py_round_div_nearest.
  - intro content. unfold estimate_reading_time, _estimate_reading_time.
    split; lia.
  - intros content H. unfold estimate_reading_time, _estimate_reading_time.
    rewrite split_ws_length, H. split; reflexivity.
Qed.

Lemma reading_time_estimate_witness :
  estimate_reading_time (lit " hello ") = 1
  /\ _estimate_reading_time (lit " hello ") = 1.
Proof.
  apply (proj2 (proj2 (proj2 (proj2 reading_time_estimate)))
           (lit " hello ")).
  reflexivity.
Defined.

Example reading_time_ties :
  map (fun n => (py_round_div n 225, py_round_div n 200))
      [0; 1; 100; 113; 300; 500; 700]
  = [(0, 0); (0, 0); (0, 0); (1, 1); (1, 2); (2, 2); (3, 4)].
Proof. reflexivity. Qed.

(** ** The matcher *)

Section MatcherFacts.
Import Re.

Lemma star_greedy_sound (k : cclass) (s : pystr) :
  forall p c st',
    In st' (star_greedy k p s c) ->
    exists w t, s = w ++ t /\ forallb (cmatch k) w = true
                /\ st' = mk_mstate (p + length w) t c.
Proof.
  induction s as [|a s IH]; intros p c st' Hin; simpl in Hin.
  - destruct Hin as [<-|[]]. exists [], []. simpl. now rewrite Nat.add_0_r.
  - destruct (cmatch k a) eqn:E.
    + apply in_app_or in Hin as [Hin|[<-|[]]].
      * destruct (IH _ _ _ Hin) as (w & t & -> & Hw & ->).
        exists (a :: w), t. simpl. rewrite E, Hw.
        repeat split. f_equal. lia.
      * exists [], (a :: s). simpl. now rewrite Nat.add_0_r.
    + destruct Hin as [<-|[]]. exists [], (a :: s). simpl.
      now rewrite Nat.add_0_r.
Qed.

Lemma star_lazy_sound (k : cclass) (s : pystr) :
  forall p c st',
    In st' (star_lazy k p s c) ->
    exists w t, s = w ++ t /\ forallb (cmatch k) w = true
                /\ st' = mk_mstate (p + length w) t c.
Proof.
  induction s as [|a s IH]; intros p c st' Hin; simpl in Hin.
  - destruct Hin as [<-|[]]. exists [], []. simpl. now rewrite Nat.add_0_r.
  - destruct Hin as [<-|Hin].
    + exists [], (a :: s). simpl. now rewrite Nat.add_0_r.
    + destruct (cmatch k a) eqn:E; [|destruct Hin].
      destruct (IH _ _ _ Hin) as (w & t & -> & Hw & ->).
      exists (a :: w), t. simpl. rewrite E, Hw.
      repeat split. f_equal. lia.
Qed.

(** Every result of the matcher is a derivation. *)
Lemma run_sound (r : regex) :
  forall st st', In st' (run r st) -> derive r st st'.
Proof.
  induction r as [|k|r1 IH1 r2 IH2|n r IH|r IH|k|k]; intros st st' Hin;
    simpl in Hin.
  - destruct Hin as [<-|[]]. constructor.
  - destruct st as [p s c]. simpl in Hin.
    destruct s as [|a t]; [destruct Hin|].
    destruct (cmatch k a) eqn:E; [|destruct Hin].
    destruct Hin as [<-|[]]. now constructor.
  - apply in_flat_map in Hin as (st2 & H1 & H2).
    econstructor; [apply IH1, H1 | apply IH2, H2].
  - apply in_map_iff in Hin as (st2 & <- & H1).
    constructor. now apply IH.
  - apply in_app_or in Hin as [Hin|[<-|[]]].
    + apply d_opt_some. now apply IH.
    + apply d_opt_none.
  - destruct st as [p s c]. simpl in Hin.
    destruct s as [|a t]; [destruct Hin|].
    destruct (cmatch k a) eqn:E; [|destruct Hin].
    destruct (star_greedy_sound _ _ _ _ _ Hin) as (w & t' & -> & Hw & ->).
    now constructor.
  - destruct st as [p s c]. simpl in Hin.
    destruct (star_lazy_sound _ _ _ _ _ Hin) as (w & t' & -> & Hw & ->).
    now constructor.
Qed.

(** A derivation consumes a prefix of the text ahead and moves the
    position by its length. *)
Lemma derive_consumes (r : regex) (st st' : mstate) :
  derive r st st' ->
  exists w, rest st = w ++ rest st' /\ pos st' = pos st + length w.
Proof.
  induction 1 as [st|k a p t c E|r1 r2 st1 st2 st3 _ IH1 _ IH2
                 |n r st st' _ IH|r st st' _ IH|r st|k w a p t c E Hw
                 |k w p t c Hw]; simpl.
  - exists []. simpl. now rewrite Nat.add_0_r.
  - exists [a]. simpl. split; [reflexivity | lia].
  - destruct IH1 as (w1 & E1 & P1), IH2 as (w2 & E2 & P2).
    exists (w1 ++ w2). rewrite E1, E2, P2, P1, length_app, <- app_assoc.
    split; [reflexivity | lia].
  - exact IH.
  - exact IH.
  - exists []. simpl. now rewrite Nat.add_0_r.
  - exists (a :: w). simpl. split; [reflexivity | lia].
  - exists w. now split.
Qed.

(** A literal text matches itself and closes no group. *)
Lemma derive_text (s : pystr) (st st' : mstate) :
  derive (text s) st st' ->
  rest st = s ++ rest st' /\ pos st' = pos st + length s
  /\ caps st' = caps st.
Proof.
  revert st. induction s as [|a s IH]; intros st H; simpl in H.
  - inversion H; subst. simpl. now rewrite Nat.add_0_r.
  - inversion H as [| |r1 r2 st1 st2 st3 H1 H2| | | | |]; subst.
    inversion H1; subst. simpl in *.
    destruct (IH _ H2) as (E & P & C). simpl in *.
    match goal with Hc : ascii_eqb a _ = true |- _ =>
      apply Ascii.eqb_eq in Hc; subst end.
    repeat split. lia.
Qed.

Lemma derive_min_len (r : regex) (st st' : mstate) :
  derive r st st' -> pos st + min_len r <= pos st'.
Proof.
  induction 1; simpl in *; lia.
Qed.

(** The text from position [b] on and the position reached there. *)
Lemma search_at_spec (r : regex) (s : pystr) :
  forall p b st',
    search_at r p s = Some (b, st') ->
    p <= b /\ b <= p + length s
    /\ derive r (mk_mstate b (skipn (b - p) s) []) st'.
Proof.
  induction s as [|a s IH]; intros p b st' H; simpl in H.
  - destruct (run r (mk_mstate p [] [])) as [|st1 l] eqn:E; [discriminate|].
    inversion H; subst. rewrite Nat.sub_diag. simpl.
    repeat split; try lia. apply run_sound. rewrite E. now left.
  - destruct (run r (mk_mstate p (a :: s) [])) as [|st1 l] eqn:E.
    + destruct (IH _ _ _ H) as (H1 & H2 & H3).
      repeat split; try lia; [simpl; lia|].
      replace (b - p) with (S (b - S p)) by lia. exact H3.
    + inversion H; subst. rewrite Nat.sub_diag. simpl.
      repeat split; try lia. apply run_sound. rewrite E. now left.
Qed.

Lemma star_greedy_last (k : cclass) (s : pystr) (p : nat)
    (c : list (nat * (nat * nat))) :
  In (mk_mstate p s c) (star_greedy k p s c).
Proof.
  destruct s as [|a t]; simpl; [now left|].
  destruct (cmatch k a); [apply in_or_app; right|]; now left.
Qed.

Lemma star_greedy_complete (k : cclass) (w t : pystr) :
  forall p c,
    forallb (cmatch k) w = true ->
    In (mk_mstate (p + length w) t c) (star_greedy k p (w ++ t) c).
Proof.
  induction w as [|a w IH]; intros p c Hw; simpl in *.
  - rewrite Nat.add_0_r. apply star_greedy_last.
  - apply andb_true_iff in Hw as [Ha Hw]. rewrite Ha.
    apply in_or_app. left.
    replace (p + S (length w)) with (S p + length w) by lia.
    now apply IH.
Qed.

Lemma star_lazy_complete (k : cclass) (w t : pystr) :
  forall p c,
    forallb (cmatch k) w = true ->
    In (mk_mstate (p + length w) t c) (star_lazy k p (w ++ t) c).
Proof.
  induction w as [|a w IH]; intros p c Hw; simpl in *.
  - rewrite Nat.add_0_r. destruct t; now left.
  - apply andb_true_iff in Hw as [Ha Hw]. rewrite Ha. right.
    replace (p + S (length w)) with (S p + length w) by lia.
    now apply IH.
Qed.

(** Every derivation is among the results of the matcher. *)
Lemma run_complete (r : regex) (st st' : mstate) :
  derive r st st' -> In st' (run r st).
Proof.
  induction 1 as [st|k a p t c E|r1 r2 st1 st2 st3 _ IH1 _ IH2
                 |n r st st' _ IH|r st st' _ IH|r st|k w a p t c E Hw
                 |k w p t c Hw]; simpl.
  - now left.
  - rewrite E. now left.
  - apply in_flat_map. exists st2. now split.
  - apply in_map_iff. exists st'. now split.
  - apply in_or_app. now left.
  - apply in_or_app. right. now left.
  - rewrite E. now apply (@star_greedy_complete k w t (S p) c).
  - now apply star_lazy_complete.
Qed.

(** A literal text is matched where it stands. *)
Lemma derive_text_here (s t : pystr) :
  forall p c,
    derive (text s) (mk_mstate p (s ++ t) c) (mk_mstate (p + length s) t c).
Proof.
  induction s as [|a s IH]; intros p c; simpl.
  - rewrite Nat.add_0_r. constructor.
  - econstructor.
    + constructor. simpl. apply Ascii.eqb_refl.
    + replace (p + S (length s)) with (S p + length s) by lia. apply IH.
Qed.

(** The search does not pass a position at which the pattern matches. *)
Lemma search_at_complete (r : regex) (s : pystr) :
  forall p k,
    k <= length s ->
    run r (mk_mstate (p + k) (skipn k s) []) <> [] ->
    exists b st', search_at r p s = Some (b, st') /\ b <= p + k.
Proof.
  induction s as [|a s IH]; intros p k Hk Hrun; simpl in *.
  - assert (k = 0) by lia. subst k. rewrite Nat.add_0_r in Hrun.
    simpl in Hrun.
    destruct (run r (mk_mstate p [] [])) as [|st1 l]; [congruence|].
    exists p, st1. split; [reflexivity | lia].
  - destruct (run r (mk_mstate p (a :: s) [])) as [|st1 l] eqn:E.
    + destruct k as [|k].
      { rewrite Nat.add_0_r in Hrun. simpl in Hrun. congruence. }
      simpl in Hrun. replace (p + S k) with (S p + k) in * by lia.
      apply (IH (S p) k); [lia | exact Hrun].
    + exists p, st1. split; [reflexivity | lia].
Qed.

End MatcherFacts.

(** *** Inversion of derivations *)

Section DeriveInversion.
Import Re.

Lemma derive_cat_inv (r1 r2 : regex) (st st' : mstate) :
  derive (Cat r1 r2) st st' ->
  exists st2, derive r1 st st2 /\ derive r2 st2 st'.
Proof. inversion 1; subst. eauto. Qed.

Lemma derive_group_inv (n : nat) (r : regex) (st st' : mstate) :
  derive (Group n r) st st' ->
  exists st2, derive r st st2 /\ pos st' = pos st2 /\ rest st' = rest st2
              /\ caps st' = (n, (pos st, pos st2)) :: caps st2.
Proof. inversion 1; subst. eexists. eauto. Qed.

Lemma derive_opt_inv (r : regex) (st st' : mstate) :
  derive (Opt r) st st' -> derive r st st' \/ st' = st.
Proof. inversion 1; subst; auto. Qed.

Lemma derive_one_inv (k : cclass) (st st' : mstate) :
  derive (One k) st st' ->
  exists a, rest st = a :: rest st' /\ cmatch k a = true
            /\ pos st' = S (pos st) /\ caps st' = caps st.
Proof. inversion 1; subst. simpl. eauto. Qed.

Lemma derive_plus_inv (k : cclass) (st st' : mstate) :
  derive (Plus k) st st' ->
  exists a w, rest st = a :: w ++ rest st' /\ cmatch k a = true
              /\ forallb (cmatch k) w = true
              /\ pos st' = S (pos st) + length w /\ caps st' = caps st.
Proof. inversion 1; subst. simpl. eexists; eexists. eauto. Qed.

Lemma derive_star_inv (k : cclass) (st st' : mstate) :
  derive (StarLazy k) st st' ->
  exists w, rest st = w ++ rest st' /\ forallb (cmatch k) w = true
            /\ pos st' = pos st + length w /\ caps st' = caps st.
Proof. inversion 1; subst. simpl. eauto. Qed.

(** What a match of [delimited opening closing] looks like. *)
Lemma derive_delimited (opening closing : pystr) (st st' : mstate) :
  derive (delimited opening closing) st st' ->
  exists body,
    rest st = opening ++ body ++ closing ++ rest st'
    /\ lookup_cap 1 (caps st')
       = Some (pos st + length opening,
               pos st + length opening + length body)
    /\ pos st' = pos st + length opening + length body + length closing.
Proof.
  unfold delimited. intro H.
  apply derive_cat_inv in H as (st1 & H1 & H).
  apply derive_cat_inv in H as (st2 & H2 & H3).
  apply derive_text in H1 as (E1 & P1 & C1).
  apply derive_group_inv in H2 as (st3 & H2 & P2 & E2 & C2).
  apply derive_star_inv in H2 as (body & E3 & _ & P3 & C3).
  apply derive_text in H3 as (E4 & P4 & C4).
  exists body. rewrite E1, E3, <- E2, E4, C4, C2. simpl.
  repeat split; try lia. do 2 f_equal; lia.
Qed.

(** What a match of [code_block_pattern] looks like: a fence, a tag of
    word characters, a newline, the body, a newline and a fence.  Group 1
    is the tag when there is one, group 2 the body. *)
Lemma derive_code_block (st st' : mstate) :
  derive code_block_pattern st st' ->
  exists tag body,
    rest st = fence ++ tag ++ nl :: body ++ nl :: fence ++ rest st'
    /\ forallb is_word tag = true
    /\ lookup_cap 1 (caps st')
       = match tag with
         | [] => lookup_cap 1 (caps st)
         | _ :: _ => Some (pos st + 3, pos st + 3 + length tag)
         end
    /\ lookup_cap 2 (caps st')
       = Some (pos st + 4 + length tag,
               pos st + 4 + length tag + length body)
    /\ pos st' = pos st + length tag + length body + 8.
Proof.
  unfold code_block_pattern. intro H.
  apply derive_cat_inv in H as (st1 & H1 & H).
  apply derive_cat_inv in H as (st2 & H2 & H).
  apply derive_cat_inv in H as (st3 & H3 & H).
  apply derive_cat_inv in H as (st4 & H4 & H5).
  apply derive_text in H1 as (E1 & P1 & C1).
  apply derive_one_inv in H3 as (a & E3 & A3 & P3 & C3).
  apply Ascii.eqb_eq in A3. subst a.
  apply derive_group_inv in H4 as (st5 & H4 & P4 & E4 & C4).
  apply derive_star_inv in H4 as (body & E5 & _ & P5 & C5).
  apply derive_text in H5 as (E6 & P6 & C6).
  change (length fence) with 3 in *.
  change (length (nl :: fence)) with 4 in *.
  apply derive_opt_inv in H2 as [H2| ->].
  - apply derive_group_inv in H2 as (st6 & H2 & P2 & E2 & C2).
    apply derive_plus_inv in H2 as (a & w & E7 & A7 & W7 & P7 & C7).
    assert (Hw : forallb is_word (a :: w) = true).
    { simpl. apply andb_true_iff. split; [exact A7 | exact W7]. }
    exists (a :: w), body.
    rewrite E1, E7, <- E2, E3, E5, <- E4, E6, C6, C4, C5, C3, C2.
    split; [reflexivity|].
    split; [exact Hw|]. simpl in *.
    repeat split; try lia.
    + do 2 f_equal; lia.
    + do 2 f_equal; lia.
  - exists [], body.
    rewrite E1, E3, E5, <- E4, E6, C6, C4, C5, C3, C1.
    simpl in *. repeat split; try lia.
    do 2 f_equal; lia.
Qed.

End DeriveInversion.

(** *** The matches [finditer] yields *)

Section FinditerFacts.
Import Re.

Lemma skipn_length_app (A : Type) (w t : list A) :
  skipn (length w) (w ++ t) = t.
Proof. induction w as [|a w IH]; simpl; [reflexivity | exact IH]. Qed.

Lemma firstn_length_app (A : Type) (w t : list A) :
  firstn (length w) (w ++ t) = w.
Proof. induction w as [|a w IH]; simpl; [reflexivity | now rewrite IH]. Qed.

Lemma skipn_cons_inv (A : Type) (n : nat) (l : list A) (x : A) (t : list A) :
  skipn n l = x :: t -> t = skipn (S n) l /\ S n <= length l.
Proof.
  intro H. split.
  - change (S n) with (1 + n). rewrite <- skipn_skipn, H. reflexivity.
  - apply (f_equal (@length A)) in H. rewrite length_skipn in H.
    simpl in H. lia.
Qed.

Lemma derive_rest (r : regex) (content : pystr) (b : nat) (st' : mstate) :
  b <= length content ->
  derive r (mk_mstate b (skipn b content) []) st' ->
  rest st' = skipn (pos st') content
  /\ b <= pos st' /\ pos st' <= length content.
Proof.
  intros Hb H. apply derive_consumes in H as (w & E & P). simpl in *.
  assert (Hl : length (skipn b content) = length w + length (rest st'))
    by (now rewrite E, length_app).
  rewrite length_skipn in Hl.
  split; [|lia].
  rewrite P, Nat.add_comm, <- skipn_skipn, E. symmetry.
  apply skipn_length_app.
Qed.

Lemma finditer_from_spec (r : regex) (content : pystr) (fuel : nat) :
  forall p,
    p <= length content ->
    Forall (fun m => p <= m_start m /\ m_start m <= m_end m
                     /\ matched r content m)
           (finditer_from fuel r p (skipn p content))
    /\ StronglySorted before (finditer_from fuel r p (skipn p content)).
Proof.
  induction fuel as [|fuel IH]; intros p Hp; simpl.
  - split; constructor.
  - destruct (search_at r p (skipn p content)) as [[b st']|] eqn:Es;
      [|split; constructor].
    apply search_at_spec in Es as (Hpb & Hbl & Hd).
    rewrite skipn_skipn, Nat.sub_add in Hd by exact Hpb.
    rewrite length_skipn in Hbl.
    destruct (@derive_rest r content b st' ltac:(lia) Hd) as (Er & Hbe & Hel).
    assert (Hm : matched r content (mk_match b (pos st') (caps st'))).
    { split; [exact Hel|]. simpl. rewrite <- Er. now destruct st'. }
    assert (Hnext : forall q,
              pos st' <= q -> q <= length content ->
              Forall (fun m => p <= m_start m /\ m_start m <= m_end m
                               /\ matched r content m)
                     (mk_match b (pos st') (caps st')
                      :: finditer_from fuel r q (skipn q content))
              /\ StronglySorted before
                   (mk_match b (pos st') (caps st')
                    :: finditer_from fuel r q (skipn q content))).
    { intros q Hq Hql. destruct (IH q Hql) as [IH1 IH2]. split.
      - constructor; [simpl; auto|].
        eapply Forall_impl; [|exact IH1]. simpl. intros m (H1 & H2 & H3).
        repeat split; [lia | assumption | apply H3 | apply H3].
      - constructor; [exact IH2|].
        eapply Forall_impl; [|exact IH1]. unfold before. simpl.
        intros m (H1 & _). lia. }
    destruct (pos st' =? b) eqn:Eb.
    + destruct (rest st') as [|x t] eqn:Et.
      * split; [constructor; [simpl; auto | constructor]
               | constructor; constructor].
      * symmetry in Er. apply skipn_cons_inv in Er as [-> Hl].
        apply Hnext; lia.
    + rewrite Er. apply Hnext; lia.
Qed.

Lemma finditer_spec (r : regex) (content : pystr) :
  Forall (fun m => m_start m <= m_end m /\ matched r content m)
         (finditer r content)
  /\ StronglySorted before (finditer r content).
Proof.
  unfold finditer.
  destruct (@finditer_from_spec r content (S (length content)) 0
              ltac:(lia)) as [H1 H2].
  simpl skipn in *. split; [|exact H2].
  eapply Forall_impl; [|exact H1]. simpl. intros m (_ & H). exact H.
Qed.

(** No match is passed over: a position at which the pattern matches lies
    in one of the matches of [finditer]. *)
Lemma finditer_from_complete (r : regex) (content : pystr) (q : nat) :
  1 <= min_len r ->
  q <= length content ->
  run r (mk_mstate q (skipn q content) []) <> [] ->
  forall fuel p,
    p <= q -> length content - p < fuel ->
    exists m, In m (finditer_from fuel r p (skipn p content))
              /\ m_start m <= q < m_end m.
Proof.
  intros Hmin Hq Hrun.
  induction fuel as [|fuel IH]; intros p Hp Hfuel; [lia|]. simpl.
  destruct (@search_at_complete r (skipn p content) p (q - p))
    as (b & st' & Es & Hb).
  { rewrite length_skipn. lia. }
  { rewrite skipn_skipn.
    replace (q - p + p) with q by lia. replace (p + (q - p)) with q by lia.
    exact Hrun. }
  rewrite Es.
  apply search_at_spec in Es as (Hpb & Hbl & Hd).
  rewrite skipn_skipn, Nat.sub_add in Hd by exact Hpb.
  rewrite length_skipn in Hbl.
  destruct (@derive_rest r content b st' ltac:(lia) Hd) as (Er & Hbe & Hel).
  pose proof (derive_min_len Hd) as Hlen. simpl in Hlen.
  assert (Eb : (pos st' =? b) = false) by (apply Nat.eqb_neq; lia).
  rewrite Eb.
  destruct (Nat.lt_ge_cases q (pos st')) as [Hin|Hout].
  - exists (mk_match b (pos st') (caps st')). split; [now left|].
    simpl. lia.
  - rewrite Er. destruct (IH (pos st') Hout ltac:(lia)) as (m & Hm & Hqm).
    exists m. split; [now right | exact Hqm].
Qed.

Lemma finditer_complete (r : regex) (content : pystr) (q : nat) :
  1 <= min_len r ->
  q <= length content ->
  run r (mk_mstate q (skipn q content) []) <> [] ->
  exists m, In m (finditer r content) /\ m_start m <= q < m_end m.
Proof.
  intros Hmin Hq Hrun. unfold finditer.
  apply (@finditer_from_complete r content q Hmin Hq Hrun
           (S (length content)) 0); lia.
Qed.

(** The fuel of [finditer] is never used up: any two amounts above the
    length of the text give the same matches. *)
Lemma finditer_fuel_irrelevant (r : regex) (fuel1 : nat) :
  forall fuel2 p s,
    length s < fuel1 -> length s < fuel2 ->
    finditer_from fuel1 r p s = finditer_from fuel2 r p s.
Proof.
  induction fuel1 as [|fuel1 IH]; intros fuel2 p s H1 H2; [lia|].
  destruct fuel2 as [|fuel2]; [lia|]. simpl.
  destruct (search_at r p s) as [[b st']|] eqn:Es; [|reflexivity].
  apply search_at_spec in Es as (Hpb & Hbl & Hd).
  apply derive_consumes in Hd as (w & E & P). simpl in *.
  assert (Hl : length (skipn (b - p) s) = length w + length (rest st'))
    by (now rewrite E, length_app).
  rewrite length_skipn in Hl.
  f_equal. destruct (pos st' =? b) eqn:Eb.
  - destruct (rest st') as [|x t]; [reflexivity|].
    simpl in Hl. apply IH; lia.
  - apply Nat.eqb_neq in Eb. apply IH; lia.
Qed.

(** The patterns of the extractors never match the empty string. *)
Lemma patterns_never_empty :
  Forall (fun r => 2 <= min_len r)
         (code_block_pattern :: formula_patterns).
Proof. repeat constructor; vm_compute; lia. Qed.

End FinditerFacts.

(** ** Code snippets *)

Section CodeSnippetFacts.
Import Re.

Lemma fold_left_snoc_map (A B : Type) (f : A -> B) (l : list A) :
  forall acc, fold_left (fun acc m => acc ++ [f m]) l acc = acc ++ map f l.
Proof.
  induction l as [|a l IH]; intro acc; simpl.
  - now rewrite app_nil_r.
  - now rewrite IH, <- app_assoc.
Qed.

Lemma slice_middle (content x y z : pystr) (b : nat) :
  skipn b content = x ++ y ++ z ->
  slice (b + length x) (b + length x + length y) content = y.
Proof.
  intro H. unfold slice.
  replace (b + length x + length y - (b + length x)) with (length y) by lia.
  rewrite (Nat.add_comm b), <- skipn_skipn, H, skipn_length_app.
  apply firstn_length_app.
Qed.

Lemma slice_whole (content x : pystr) (b : nat) :
  skipn b content = x ++ skipn (b + length x) content ->
  slice b (b + length x) content = x.
Proof.
  intro H. unfold slice.
  replace (b + length x - b) with (length x) by lia.
  rewrite H. apply firstn_length_app.
Qed.

(** Newlines before a position: more of them before a later position. *)
Lemma count_firstn_mono (c : ascii) (s : pystr) :
  forall b e, b <= e -> count c (firstn b s) <= count c (firstn e s).
Proof.
  unfold count. induction s as [|a s IH]; intros b e H.
  - now rewrite !firstn_nil.
  - destruct b as [|b]; [simpl; lia|]. destruct e as [|e]; [lia|].
    simpl. specialize (IH b e ltac:(lia)).
    destruct (ascii_eqb c a); simpl; lia.
Qed.

Lemma snippet_of_match (content : pystr) (m : match_obj) :
  m_start m <= m_end m ->
  matched code_block_pattern content m ->
  exists fb,
    fb_start fb = m_start m /\ fb_end fb = m_end m
    /\ snippet_for content fb (snippet_of content m).
Proof.
  intros Hle [Hend Hd].
  apply derive_code_block in Hd as (tag & body & E & Hw & G1 & G2 & P).
  cbn [pos rest caps lookup_cap] in *.
  assert (Hlen : m_end m
                 = m_start m
                   + length (fence ++ tag ++ nl :: body ++ nl :: fence)).
  { rewrite P, !length_app. cbn [length]. rewrite length_app.
    cbn [length]. change (length fence) with 3. lia. }
  exists (mk_fenced_block (m_start m) (m_end m) tag body).
  split; [reflexivity|]. split; [reflexivity|].
  unfold snippet_for, snippet_of, group.
  cbn [fb_start fb_end fb_tag fb_body Snippet.language Snippet.code
       Snippet.line_start Snippet.line_end].
  rewrite G1, G2.
  split; [exact Hend|]. split.
  { rewrite Hlen at 1. apply slice_whole. rewrite <- Hlen, E.
    repeat (rewrite <- app_assoc || rewrite <- app_comm_cons).
    reflexivity. }
  split; [exact Hw|]. split.
  { destruct tag as [|a tag]; [reflexivity|].
    change (m_start m + 3) with (m_start m + length fence).
    rewrite (@slice_middle content fence (a :: tag)
               (nl :: body ++ nl :: fence
                ++ skipn (m_end m) content) (m_start m)).
    - reflexivity.
    - rewrite E. reflexivity. }
  split.
  { replace (m_start m + 4 + length tag)
      with (m_start m + length (fence ++ tag ++ [nl]))
      by (rewrite !length_app; change (length fence) with 3;
          cbn [length]; lia).
    rewrite (@slice_middle content (fence ++ tag ++ [nl]) body
               (nl :: fence ++ skipn (m_end m) content) (m_start m)).
    - reflexivity.
    - rewrite E.
      repeat (rewrite <- app_assoc || rewrite <- app_comm_cons).
      reflexivity. }
  split; [reflexivity|]. split; [reflexivity|].
  pose proof (count_firstn_mono nl content Hle). unfold slice_to. lia.
Qed.

Lemma snippets_of_matches (content : pystr) (ms : list match_obj) :
  Forall (fun m => m_start m <= m_end m
                   /\ matched code_block_pattern content m) ms ->
  StronglySorted before ms ->
  exists blocks,
    Forall2 (snippet_for content) blocks (map (snippet_of content) ms)
    /\ StronglySorted block_before blocks
    /\ map fb_start blocks = map m_start ms
    /\ map fb_end blocks = map m_end ms
    /\ StronglySorted snippet_before (map (snippet_of content) ms).
Proof.
  induction ms as [|m ms IH]; intros Hall Hs.
  - exists []. repeat split; constructor.
  - inversion Hall as [|? ? [Hle Hm] Hall']; subst.
    inversion Hs as [|? ? Hs' Hb]; subst.
    destruct (IH Hall' Hs') as (blocks & F & S1 & Est & Een & S2).
    destruct (snippet_of_match Hle Hm) as (fb & Es & Ee & Hfb).
    exists (fb :: blocks). simpl. split; [now constructor|].
    split; [|split; [now rewrite Es, Est|split; [now rewrite Ee, Een|]]].
    + constructor; [exact S1|].
      apply Forall_forall. intros fb' Hin.
      apply (in_map fb_start) in Hin. rewrite Est in Hin.
      apply in_map_iff in Hin as (m' & Em' & Hin).
      rewrite Forall_forall in Hb. specialize (Hb _ Hin).
      unfold block_before, before in *. lia.
    + constructor; [exact S2|].
      apply Forall_forall. intros sn Hin.
      apply in_map_iff in Hin as (m' & <- & Hin).
      rewrite Forall_forall in Hb. specialize (Hb _ Hin).
      unfold snippet_before, snippet_of, before in *. simpl.
      pose proof (count_firstn_mono nl content Hb). unfold slice_to. lia.
Qed.

(** The block that stands for a match in two lists that agree on starts
    and ends. *)
Lemma block_of_match (blocks : list fenced_block) :
  forall (ms : list match_obj) (m : match_obj),
    map fb_start blocks = map m_start ms ->
    map fb_end blocks = map m_end ms ->
    In m ms ->
    exists fb, In fb blocks /\ fb_start fb = m_start m
               /\ fb_end fb = m_end m.
Proof.
  induction blocks as [|fb blocks IH]; intros [|m0 ms] m Es Ee Hin;
    simpl in *; try discriminate; [destruct Hin|].
  injection Es as Es0 Es. injection Ee as Ee0 Ee.
  destruct Hin as [<-|Hin].
  - exists fb. split; [now left | now split].
  - destruct (IH ms m Es Ee Hin) as (fb' & Hfb & H1 & H2).
    exists fb'. split; [now right | now split].
Qed.

(** A fenced block matches the pattern where it stands. *)
Lemma code_block_runs (pre tag body post : pystr) :
  forallb is_word tag = true ->
  run code_block_pattern
      (mk_mstate (length pre)
         (skipn (length pre)
            (pre ++ fence ++ tag ++ nl :: body ++ nl :: fence ++ post)) [])
  <> [].
Proof.
  intros Hw Hnil. rewrite skipn_length_app in Hnil.
  assert (Hopt : exists c,
            derive (Opt (Group 1 (Plus WordChar)))
              (mk_mstate (length pre + length fence)
                 (tag ++ nl :: body ++ nl :: fence ++ post) [])
              (mk_mstate (length pre + length fence + length tag)
                 (nl :: body ++ nl :: fence ++ post) c)).
  { destruct tag as [|a w].
    - exists []. simpl. rewrite Nat.add_0_r. apply d_opt_none.
    - simpl in Hw. apply andb_true_iff in Hw as [Ha Hw].
      eexists. apply d_opt_some.
      replace (length pre + length fence + length (a :: w))
        with (S (length pre + length fence) + length w) by (simpl; lia).
      apply (@d_group 1 (Plus WordChar)
               (mk_mstate (length pre + length fence)
                  (a :: w ++ nl :: body ++ nl :: fence ++ post) [])
               (mk_mstate (S (length pre + length fence) + length w)
                  (nl :: body ++ nl :: fence ++ post) [])).
      now apply d_plus. }
  destruct Hopt as (c & Hopt).
  assert (Hd : derive code_block_pattern
            (mk_mstate (length pre)
               (fence ++ tag ++ nl :: body ++ nl :: fence ++ post) [])
            (mk_mstate
               (S (length pre + length fence + length tag) + length body
                + length (nl :: fence))
               post
               ((2, (S (length pre + length fence + length tag),
                     S (length pre + length fence + length tag)
                     + length body)) :: c))).
  { unfold code_block_pattern.
    eapply d_cat; [apply derive_text_here|].
    eapply d_cat; [exact Hopt|].
    eapply d_cat; [apply d_one; simpl; apply Ascii.eqb_refl|].
    eapply d_cat.
    - apply (@d_group 2 (StarLazy AnyChar)
               (mk_mstate (S (length pre + length fence + length tag))
                  (body ++ nl :: fence ++ post) c)
               (mk_mstate (S (length pre + length fence + length tag)
                           + length body)
                  (nl :: fence ++ post) c)).
      apply d_star_lazy. now apply forallb_forall.
    - cbn [pos rest caps].
      apply (@derive_text_here (nl :: fence) post). }
  apply run_complete in Hd. rewrite Hnil in Hd. destruct Hd.
Qed.

End CodeSnippetFacts.

(** C5: every match of the code-block pattern in the text yields one
    snippet, in the order of the matches.  The matches are fenced blocks
    of the text that follow each other without overlap: a block spans its
    match and is a fence, a tag of word characters (maybe none), a
    newline, a body, a newline and a fence; its snippet has the tag, or
    "unknown" for no tag, as language, the stripped body as code, and as
    [line_start] and [line_end] one more than the number of newlines
    before the start and before the end of the block, so
    [line_start <= line_end]; a snippet ends, by line, before the next one
    starts.  No fenced block is passed over: wherever the text holds a
    fence, a tag of word characters, a newline, a body, a newline and a
    fence, that place is the start of an extracted block or lies inside
    one. *)
Theorem code_snippets_spec (content : pystr) :
  exists blocks,
    map fb_start blocks
    = map Re.m_start (Re.finditer code_block_pattern content)
    /\ map fb_end blocks
       = map Re.m_end (Re.finditer code_block_pattern content)
    /\ Forall2 (snippet_for content) blocks (extract_code_snippets content)
    /\ StronglySorted block_before blocks
    /\ StronglySorted snippet_before (extract_code_snippets content)
    /\ (forall pre tag body post,
          forallb is_word tag = true ->
          content = pre ++ fence ++ tag ++ nl :: body ++ nl :: fence ++ post ->
          exists fb, In fb blocks
                     /\ fb_start fb <= length pre < fb_end fb).
Proof.
  unfold extract_code_snippets. rewrite fold_left_snoc_map. simpl.
  destruct (finditer_spec code_block_pattern content) as [Hall Hs].
  destruct (snippets_of_matches Hall Hs) as (blocks & F & S1 & Es & Ee & S2).
  exists blocks. repeat (split; [assumption|]).
  intros pre tag body post Hw E.
  destruct (@finditer_complete code_block_pattern content (length pre))
    as (m & Hin & Hm).
  - vm_compute. lia.
  - rewrite E, length_app. lia.
  - rewrite E. now apply code_block_runs.
  - destruct (@block_of_match blocks _ m Es Ee Hin) as (fb & Hfb & H1 & H2).
    exists fb. split; [exact Hfb | lia].
Qed.

Lemma code_snippets_spec_witness :
  exists blocks fb,
    Forall2 (snippet_for (text_of_lines ["a```py"; "x"; "```"]%string)) blocks
            (extract_code_snippets
               (text_of_lines ["a```py"; "x"; "```"]%string))
    /\ In fb blocks /\ fb_start fb <= 1 < fb_end fb.
Proof.
  destruct (code_snippets_spec (text_of_lines ["a```py"; "x"; "```"]%string))
    as (blocks & _ & _ & F & _ & _ & Hc).
  destruct (Hc (lit "a") (lit "py") (lit "x") [] eq_refl eq_refl)
    as (fb & Hin & Hfb).
  exists blocks, fb. split; [exact F | split; [exact Hin | exact Hfb]].
Defined.

Example code_snippet_python :
  extract_code_snippets (text_of_lines ["```python"; "print(1)"; "```"]%string)
  = [Snippet.mk (lit "print(1)") (lit "python")
                (lit "Code snippet in python") 1 3].
Proof. vm_compute. reflexivity. Qed.

Example code_snippet_untagged :
  extract_code_snippets (text_of_lines ["```"; "x=1"; "```"]%string)
  = [Snippet.mk (lit "x=1") (lit "unknown")
                (lit "Code snippet in unknown") 1 3].
Proof. vm_compute. reflexivity. Qed.

(** ** Formulas *)

Section FormulaFacts.
Import Re.

Lemma formula_step_app (content : pystr) (acc : list Formula.t)
    (m : match_obj) :
  formula_step content acc m = acc ++ formula_step content [] m.
Proof.
  unfold formula_step.
  destruct (truthy (group_strip (group content m 1)));
    [reflexivity | now rewrite app_nil_r].
Qed.

Lemma fold_formula_step (content : pystr) (ms : list match_obj) :
  forall acc,
    fold_left (formula_step content) ms acc
    = acc ++ flat_map (formula_step content []) ms.
Proof.
  induction ms as [|m ms IH]; intro acc; simpl.
  - now rewrite app_nil_r.
  - now rewrite IH, (formula_step_app content acc m), <- app_assoc.
Qed.

Lemma formula_step_records (content : pystr) (m : match_obj)
    (f : Formula.t) :
  In f (formula_step content [] m) ->
  Formula.formula f <> []
  /\ Formula.formula f = group_strip (group content m 1)
  /\ Formula.type f = lit "mathematical"
  /\ Formula.line_number f = count nl (slice_to (m_start m) content) + 1.
Proof.
  unfold formula_step.
  destruct (group_strip (group content m 1)) as [|a g] eqn:E; simpl;
    [intros []|].
  intros [<-|[]]. simpl. repeat split. discriminate.
Qed.

Lemma extract_formulas_unfold (content : pystr) :
  extract_formulas content
  = formulas_of display_math content ++ formulas_of inline_math content
    ++ formulas_of equation_env content.
Proof.
  unfold extract_formulas, formulas_of, formula_patterns. simpl.
  rewrite (fold_formula_step content (finditer equation_env content)).
  rewrite (fold_formula_step content (finditer inline_math content)).
  rewrite (fold_formula_step content (finditer equation_env content) []).
  rewrite (fold_formula_step content (finditer inline_math content) []).
  simpl. now rewrite <- app_assoc.
Qed.

Lemma formulas_of_records (pattern : regex) (content : pystr)
    (f : Formula.t) :
  In f (formulas_of pattern content) ->
  Formula.formula f <> [] /\ Formula.type f = lit "mathematical".
Proof.
  unfold formulas_of. rewrite fold_formula_step. simpl.
  intro H. apply in_flat_map in H as (m & _ & Hin).
  apply formula_step_records in Hin. tauto.
Qed.

(** Group 1 takes part in every match of a formula pattern: it is the
    text between the delimiters. *)
Lemma formula_group_set (opening closing content : pystr)
    (m : match_obj) :
  matched (delimited opening closing) content m ->
  exists body,
    group content m 1 = Some body
    /\ skipn (m_start m) content
       = opening ++ body ++ closing ++ skipn (m_end m) content.
Proof.
  intros [_ Hd].
  apply derive_delimited in Hd as (body & E & G & P).
  cbn [pos rest caps] in *. exists body. split; [|exact E].
  unfold group. rewrite G. f_equal.
  now apply (@slice_middle content opening body
               (closing ++ skipn (m_end m) content) (m_start m)).
Qed.

Lemma line_numbers_sorted (content : pystr) (ms : list match_obj) :
  Forall (fun m => m_start m <= m_end m) ms ->
  StronglySorted before ms ->
  StronglySorted le
    (map Formula.line_number (flat_map (formula_step content []) ms)).
Proof.
  induction ms as [|m ms IH]; intros Hall Hs; simpl; [constructor|].
  inversion Hall as [|? ? Hle Hall']; subst.
  inversion Hs as [|? ? Hs' Hb]; subst.
  specialize (IH Hall' Hs').
  unfold formula_step at 1.
  destruct (truthy (group_strip (group content m 1))); [|exact IH].
  simpl. constructor; [exact IH|].
  apply Forall_forall. intros n Hin.
  apply in_map_iff in Hin as (f & <- & Hin).
  apply in_flat_map in Hin as (m' & Hm' & Hin).
  apply formula_step_records in Hin as (_ & _ & _ & ->).
  rewrite Forall_forall in Hb. specialize (Hb _ Hm'). unfold before in Hb.
  pose proof (@count_firstn_mono nl content (m_start m) (m_start m')
                ltac:(lia)).
  unfold slice_to. lia.
Qed.

End FormulaFacts.

(** C6: a capture that is empty or all whitespace adds no record, so
    every record holds a non-empty formula; "$$E=mc^2$$" gives exactly
    one record, with formula "E=mc^2" and type "mathematical" (the inline
    pattern matches the two pairs of dollar signs with nothing between
    them and adds nothing); "$$ $$" gives no record. *)
Theorem formulas_never_empty :
  (forall content formulas m g,
     Re.group content m 1 = Some g -> blank g = true ->
     formula_step content formulas m = formulas)
  /\ (forall content f,
        In f (extract_formulas content) ->
        Formula.formula f <> [] /\ Formula.type f = lit "mathematical")
  /\ extract_formulas (lit "$$E=mc^2$$")
     = [Formula.mk (lit "E=mc^2") (lit "Mathematical expression: E=mc^2")
                   (lit "mathematical") 1]
  /\ (map (fun m => Re.group (lit "$$E=mc^2$$") m 1)
          (Re.finditer inline_math (lit "$$E=mc^2$$"))
      = [Some []; Some []]
      /\ formulas_of inline_math (lit "$$E=mc^2$$") = [])
  /\ extract_formulas (lit "$$ $$") = [].
Proof.
  split; [|split; [|split; [|split]]].
  - intros content formulas m g Hg Hb. unfold formula_step. rewrite Hg.
    unfold blank in Hb. apply negb_true_iff in Hb. simpl. now rewrite Hb.
  - intros content f. rewrite extract_formulas_unfold. intro H.
    apply in_app_or in H as [H|H]; [|apply in_app_or in H as [H|H]];
      apply formulas_of_records in H; exact H.
  - vm_compute. reflexivity.
  - vm_compute. split; reflexivity.
  - vm_compute. reflexivity.
Qed.

Lemma formulas_never_empty_witness :
  formula_step (lit "$$ $$") [] (Re.mk_match 0 5 [(1, (2, 3))]) = []
  /\ Formula.formula (Formula.mk (lit "E=mc^2")
                        (lit "Mathematical expression: E=mc^2")
                        (lit "mathematical") 1) <> [].
Proof.
  split.
  - apply (proj1 formulas_never_empty (lit "$$ $$") []
             (Re.mk_match 0 5 [(1, (2, 3))]) (lit " ")); reflexivity.
  - apply (proj1 (proj2 formulas_never_empty) (lit "$$E=mc^2$$")).
    left. reflexivity.
Defined.

(** C10: the output is the records of the display-math pattern, then
    those of the inline-math pattern, then those of the equation
    environment, wherever their matches lie in the text; the records of
    one pattern follow its matches, which follow each other in the text,
    so their line numbers never decrease.  In "$a$ $$b$$" the display
    formula b comes first although it stands later in the text. *)
Theorem formulas_grouped_by_pattern :
  (forall content,
     extract_formulas content
     = formulas_of display_math content ++ formulas_of inline_math content
       ++ formulas_of equation_env content)
  /\ (forall pattern content,
        formulas_of pattern content
        = flat_map (formula_step content []) (Re.finditer pattern content)
        /\ StronglySorted before (Re.finditer pattern content)
        /\ StronglySorted le
             (map Formula.line_number (formulas_of pattern content)))
  /\ map Formula.formula (extract_formulas (lit "$a$ $$b$$"))
     = [lit "b"; lit "a"].
Proof.
  split; [exact extract_formulas_unfold|]. split.
  - intros pattern content.
    destruct (finditer_spec pattern content) as [Hall Hs].
    assert (E : formulas_of pattern content
                = flat_map (formula_step content [])
                           (Re.finditer pattern content)).
    { unfold formulas_of. now rewrite fold_formula_step. }
    split; [exact E|]. split; [exact Hs|].
    rewrite E. apply line_numbers_sorted; [|exact Hs].
    eapply Forall_impl; [|exact Hall]. simpl. tauto.
  - vm_compute. reflexivity.
Qed.

(** ** Titles *)

Section TitleFacts.

Lemma title_scan_offer (lines : list pystr) :
  forall i t d, first_offer lines i t -> title_scan lines d = t.
Proof.
  induction lines as [|l lines IH]; intros i t d [(line & Hn & Ht) Hbefore].
  - destruct i; discriminate.
  - cbn [title_scan]. destruct i as [|i].
    + simpl in Hn. inversion Hn; subst line. unfold title_of_line in Ht.
      destruct (startswith [hash] l); [congruence|].
      destruct (truthy (strip l) && (length (strip l) <? 100));
        congruence.
    + pose proof (Hbefore 0 l ltac:(lia) eq_refl) as H0.
      unfold title_of_line in H0.
      destruct (startswith [hash] l); [discriminate|].
      destruct (truthy (strip l) && (length (strip l) <? 100));
        [discriminate|].
      apply (IH i). split; [now exists line|].
      intros j line' Hj Hn'. apply (Hbefore (S j) line'); [lia | exact Hn'].
Qed.

Lemma title_scan_no_offer (lines : list pystr) (d : pystr) :
  no_offer lines (length lines) -> title_scan lines d = d.
Proof.
  induction lines as [|l lines IH]; intro H; cbn [title_scan];
    [reflexivity|].
  pose proof (H 0 l ltac:(simpl; lia) eq_refl) as H0.
  unfold title_of_line in H0.
  destruct (startswith [hash] l); [discriminate|].
  destruct (truthy (strip l) && (length (strip l) <? 100)); [discriminate|].
  apply IH. intros j line Hj Hn. apply (H (S j) line); [simpl; lia | exact Hn].
Qed.

Lemma nth_error_firstn_lt (A : Type) (n : nat) (l : list A) :
  forall i, i < n -> nth_error (firstn n l) i = nth_error l i.
Proof.
  revert l. induction n as [|n IH]; intros l i Hi; [lia|].
  destruct l as [|a l]; [reflexivity|].
  destruct i as [|i]; [reflexivity|]. simpl. apply IH. lia.
Qed.

Lemma first_offer_firstn (lines : list pystr) (n i : nat) (t : pystr) :
  i < n -> first_offer lines i t -> first_offer (firstn n lines) i t.
Proof.
  intros Hi [(line & Hn & Ht) Hbefore]. split.
  - exists line. now rewrite nth_error_firstn_lt.
  - intros j line' Hj Hn'. rewrite nth_error_firstn_lt in Hn' by lia.
    now apply (Hbefore j).
Qed.

Lemma no_offer_firstn (lines : list pystr) (n : nat) :
  no_offer lines n -> no_offer (firstn n lines) (length (firstn n lines)).
Proof.
  intros H j line Hj Hn.
  assert (Hjn : j < n) by (rewrite length_firstn in Hj; lia).
  rewrite nth_error_firstn_lt in Hn by exact Hjn. now apply (H j).
Qed.

End TitleFacts.

(** C7, as stated, gives a heading line among the first ten lines
    precedence over a short line above it; the code takes whichever comes
    first. *)
Lemma title_first_line_wins :
  let raw := text_of_lines ["Hello"; "# Title"]%string in
  extract_title (VObj [("main_text"%string, VStr raw)])
  = Ok (VStr (lit "Hello"))
  /\ claimed_title None raw = lit "Title"
  /\ extract_title (VObj [("main_text"%string, VStr raw)])
     <> Ok (VStr (claimed_title None raw)).
Proof. vm_compute. repeat split; discriminate. Qed.

(** C7 (amended), for [extract_title]: the title is the document's
    explicit title when it has a non-empty one; otherwise, when the
    document has a [main_text], the title offered by the first line,
    among the first ten lines of that text, that is a heading line or a
    non-blank line whose stripped text is shorter than 100, whichever
    comes first; "Untitled Document" when none of them is, or when there
    is no [main_text]; in every case cut to at most 200 characters. *)
Theorem extract_title_spec (attrs : list (string * pyval)) :
  (forall t,
     lookup_attr "title" attrs = Some (VStr t) -> t <> [] ->
     extract_title (VObj attrs) = Ok (VStr (slice_to 200 t)))
  /\ (forall raw,
        has_truthy (VObj attrs) "title" = false ->
        lookup_attr "main_text" attrs = Some (VStr raw) ->
        (forall i t,
           i < 10 -> first_offer (split_on nl raw) i t ->
           extract_title (VObj attrs) = Ok (VStr (slice_to 200 t)))
        /\ (no_offer (split_on nl raw) 10 ->
            extract_title (VObj attrs) = Ok (VStr (lit "Untitled Document"))))
  /\ (has_truthy (VObj attrs) "title" = false ->
      lookup_attr "main_text" attrs = None ->
      extract_title (VObj attrs) = Ok (VStr (lit "Untitled Document")))
  /\ (forall t, extract_title (VObj attrs) = Ok (VStr t) -> length t <= 200).
Proof.
  split; [|split; [|split]].
  - intros t Ht Hne. unfold extract_title, has_truthy, getattr. simpl.
    rewrite Ht. simpl. destruct t; [congruence | reflexivity].
  - intros raw Hf Hm. unfold extract_title, hasattr, getattr.
    rewrite Hf. simpl. rewrite Hm. simpl. split.
    + intros i t Hi Ho.
      now rewrite (title_scan_offer (i := i) (t := t) _
                     (first_offer_firstn Hi Ho)).
    + intro Hn. now rewrite (title_scan_no_offer _ (no_offer_firstn Hn)).
  - intros Hf Hm. unfold extract_title, hasattr. rewrite Hf. simpl.
    now rewrite Hm.
  - intros t. unfold extract_title, bind, py_slice_to.
    destruct (if has_truthy (VObj attrs) "title" then _ else _)
      as [[| | |s| | |]|]; try discriminate.
    intro H. assert (E : t = slice_to 200 s) by congruence.
    rewrite E. unfold slice_to. rewrite length_firstn. lia.
Qed.

Lemma extract_title_spec_witness :
  extract_title
    (VObj [("title"%string, VStr []);
           ("main_text"%string,
            VStr (text_of_lines [""; "  Annual report "; "# Title"]%string))])
  = Ok (VStr (lit "Annual report")).
Proof.
  apply (proj1 (proj1 (proj2 (extract_title_spec
           [("title"%string, VStr []);
            ("main_text"%string,
             VStr (text_of_lines [""; "  Annual report "; "# Title"]%string))]))
           _ eq_refl eq_refl)
           1 (lit "Annual report")); [lia|].
  split.
  - exists (lit "  Annual report "). split; reflexivity.
  - intros j line Hj Hn. destruct j as [|j]; [|lia].
    inversion Hn. reflexivity.
Defined.

(** The class-based path takes a non-empty explicit title as it is,
    whatever its length, and otherwise the title its own scan of the
    Markdown text finds. *)
Lemma process_pdf_title_not_cut (t md : pystr) :
  t <> [] ->
  process_pdf_title (mk_document (VObj [("title"%string, VStr t)]) md)
  = VStr t.
Proof. intro H. destruct t; [congruence | reflexivity]. Qed.

Example class_title_scan :
  map (fun ls => _extract_title_from_content (text_of_lines ls))
      [["Hello"; "# Title"]; [""; "## Sub"; "# Title"]; ["## Sub"; ""]]%string
  = [lit "Hello"; lit "Title"; lit "Untitled Document"].
Proof. vm_compute. reflexivity. Qed.

(** ** Missing capability fields *)

Section CapabilityFacts.

Lemma sized_len (v : pyval) : is_sized v = true -> exists n, py_len v = Ok n.
Proof. destruct v; try discriminate; simpl; eauto. Qed.

Lemma sized_iter (v : pyval) :
  is_sized v = true -> exists items, py_iter v = Ok items.
Proof. destruct v; try discriminate; simpl; eauto. Qed.

Lemma sized_slice (n : nat) (v : pyval) :
  is_sized v = true -> exists w, py_slice_to n v = Ok w.
Proof. destruct v; try discriminate; simpl; eauto. Qed.

Lemma extract_title_ok (o : pyval) :
  attr_ok o "title" (fun v => negb (truth v) || is_sized v) = true ->
  attr_ok o "main_text" is_str = true ->
  exists t,
    extract_title o = Ok t
    /\ (hasattr o "title" = false -> hasattr o "main_text" = false ->
        t = VStr (lit "Untitled Document")).
Proof.
  unfold attr_ok, extract_title, has_truthy, hasattr, getattr.
  intros Ht Hm.
  destruct (lookup_attr "title" (attrs_of o)) as [v|] eqn:Et.
  - destruct (truth v) eqn:Ev.
    + simpl in Ht. destruct (sized_slice 200 v Ht) as [w Hw].
      exists w. simpl. split; [exact Hw | discriminate].
    + destruct (lookup_attr "main_text" (attrs_of o)) as [mt|] eqn:Em.
      * destruct mt; try discriminate. simpl.
        eexists. split; [reflexivity | discriminate].
      * eexists. split; [reflexivity | discriminate].
  - destruct (lookup_attr "main_text" (attrs_of o)) as [mt|] eqn:Em.
    + destruct mt; try discriminate. simpl.
      eexists. split; [reflexivity | discriminate].
    + eexists. split; [reflexivity | reflexivity].
Qed.

End CapabilityFacts.

(** C8 (amended): for every document that is an object and whose present
    fields have the types the code reads them at ([pages], [_pages] and [pictures]
    strings or lists, [title] falsy or a string or list, [main_text] a
    string), whatever capability fields ([pages], [_pages], [pictures],
    [tables], [title], [main_text]) the object lacks, metadata assembly
    and image-description extraction return without raising: the page
    count is 1 without a page collection, [has_images] and [has_tables]
    are false without their collections, the title is "Untitled Document"
    without title and main text, and there are no image descriptions
    without pictures. *)
Theorem missing_capabilities_do_not_abort
    (version : pystr) (doc : document) (args : arguments) :
  well_formed (doc_object doc) = true ->
  (exists m,
     extract_metadata version doc args = Ok m
     /\ (hasattr (doc_object doc) "pages" = false ->
         hasattr (doc_object doc) "_pages" = false -> page_count m = 1)
     /\ (hasattr (doc_object doc) "pictures" = false -> has_images m = false)
     /\ (hasattr (doc_object doc) "tables" = false -> has_tables m = false)
     /\ (hasattr (doc_object doc) "title" = false ->
         hasattr (doc_object doc) "main_text" = false ->
         meta_title m = VStr (lit "Untitled Document")))
  /\ (exists descriptions,
        extract_image_descriptions (doc_object doc) = Ok descriptions
        /\ (hasattr (doc_object doc) "pictures" = false ->
            descriptions = [])).
Proof.
  unfold well_formed. intro H.
  apply andb_true_iff in H as [H Hpic].
  apply andb_true_iff in H as [H Hmain].
  apply andb_true_iff in H as [H Htitle].
  apply andb_true_iff in H as [H Hpages'].
  apply andb_true_iff in H as [_ Hpages].
  set (o := doc_object doc) in *.
  destruct (extract_title_ok o Htitle Hmain) as (t & Et & Hdef).
  assert (Hcount : exists n,
            (if hasattr o "pages"
             then pages <- getattr o "pages" ;; py_len pages
             else if hasattr o "_pages"
                  then pages <- getattr o "_pages" ;; py_len pages
                  else Ok 1) = Ok n
            /\ (hasattr o "pages" = false -> hasattr o "_pages" = false ->
                n = 1)).
  { unfold attr_ok, hasattr, getattr in *.
    destruct (lookup_attr "pages" (attrs_of o)) as [v|].
    - destruct (sized_len v Hpages) as [n Hn]. exists n. simpl.
      split; [exact Hn | discriminate].
    - destruct (lookup_attr "_pages" (attrs_of o)) as [v|].
      + destruct (sized_len v Hpages') as [n Hn]. exists n. simpl.
        split; [exact Hn | discriminate].
      + exists 1. split; reflexivity. }
  destruct Hcount as (n & En & Hn).
  split.
  - unfold extract_metadata. fold o. rewrite En. simpl. rewrite Et. simpl.
    eexists. split; [reflexivity|]. simpl.
    split; [exact Hn|]. split; [|split; [|exact Hdef]].
    + unfold hasattr, has_truthy.
      destruct (lookup_attr "pictures" (attrs_of o)); [discriminate|reflexivity].
    + unfold hasattr, has_truthy.
      destruct (lookup_attr "tables" (attrs_of o)); [discriminate|reflexivity].
  - unfold extract_image_descriptions, attr_ok, hasattr, getattr in *.
    destruct (lookup_attr "pictures" (attrs_of o)) as [v|].
    + destruct (sized_iter v Hpic) as [items Hi]. simpl. rewrite Hi. simpl.
      eexists. split; [reflexivity | discriminate].
    + exists []. split; reflexivity.
Qed.

Lemma missing_capabilities_do_not_abort_witness :
  (exists m,
     extract_metadata (lit "unknown") (mk_document (VObj []) (lit "text"))
       (mk_arguments false false (lit "SmolDocling") false false) = Ok m
     /\ page_count m = 1 /\ has_images m = false /\ has_tables m = false
     /\ meta_title m = VStr (lit "Untitled Document"))
  /\ extract_image_descriptions (VObj []) = Ok [].
Proof.
  destruct (@missing_capabilities_do_not_abort (lit "unknown")
              (mk_document (VObj []) (lit "text"))
              (mk_arguments false false (lit "SmolDocling") false false)
              eq_refl)
    as [(m & Em & Hp & Hi & Ht & Hd) (ds & Eds & Hds)].
  split.
  - exists m. split; [exact Em|].
    split; [now apply Hp|]. split; [now apply Hi|].
    split; [now apply Ht | now apply Hd].
  - simpl in *. rewrite Eds. f_equal. now apply Hds.
Defined.

(** C8 as stated, for every document object, fails.  With [pages],
    [pictures], [tables] and [title] all absent, metadata assembly raises
    when [main_text] is [None] ([None.split]) and when [_pages] is an
    integer ([len] of it); and a present field of another type than the
    code reads it at aborts as well: [pages] an integer, [title] a
    non-zero integer ([title[:200]]), [pictures] an integer
    ([enumerate] of it). *)
Lemma missing_capabilities_can_abort :
  extract_metadata (lit "unknown")
    (mk_document (VObj [("main_text"%string, VNone)]) (lit "text"))
    (mk_arguments false false (lit "SmolDocling") false false)
  = Raise (AttributeError "split")
  /\ extract_metadata (lit "unknown")
       (mk_document (VObj [("_pages"%string, VInt 3)]) (lit "text"))
       (mk_arguments false false (lit "SmolDocling") false false)
     = Raise TypeError
  /\ extract_metadata (lit "unknown")
       (mk_document (VObj [("pages"%string, VInt 3)]) (lit "text"))
       (mk_arguments false false (lit "SmolDocling") false false)
     = Raise TypeError
  /\ extract_metadata (lit "unknown")
       (mk_document (VObj [("title"%string, VInt 3)]) (lit "text"))
       (mk_arguments false false (lit "SmolDocling") false false)
     = Raise TypeError
  /\ extract_image_descriptions (VObj [("pictures"%string, VInt 3)])
     = Raise TypeError.
Proof. repeat split; vm_compute; reflexivity. Qed.

(** A string has a [title] attribute, its method: [extract_title] takes
    it for the title and fails on the slice. *)
Example title_of_str_document :
  hasattr (VStr (lit "text")) "title" = true
  /\ extract_title (VStr (lit "text")) = Raise TypeError
  /\ well_formed (VStr (lit "text")) = false.
Proof. repeat split; vm_compute; reflexivity. Qed.

Example two_pictures :
  extract_image_descriptions
    (VObj [("pictures"%string,
            VList [VObj [("caption"%string, VStr (lit "a chart"))];
                   VObj [("text"%string, VStr (lit "42"))]])])
  = Ok [Image.mk (lit "image_0") (VStr (lit "a chart")) (8, 10) None;
        Image.mk (lit "image_1") (VStr (lit "Image detected in document"))
                 (8, 10) (Some (VStr (lit "42")))].
Proof. vm_compute. reflexivity. Qed.

(** ** Further properties of the segmenters *)

Section ClassPathText.
Import ClassPath.

Lemma save_current_kept (st : seg_state) :
  remove_ws (all_content (save_current st)) = class_kept st.
Proof.
  unfold save_current, class_kept. rewrite truthy_strip_blank.
  destruct (blank (content (current_section st))) eqn:E; simpl.
  - apply blank_remove_ws in E. now rewrite E, app_nil_r.
  - now rewrite all_content_snoc, remove_ws_app.
Qed.

Lemma seg_step_kept (st : seg_state) (l : pystr) :
  class_kept (seg_step st l) = class_kept st ++ remove_ws l.
Proof.
  unfold seg_step. destruct (is_header l).
  - unfold class_kept at 1. cbn [sections current_section content].
    rewrite save_current_kept, remove_ws_app.
    change (remove_ws [nl]) with (@nil ascii). now rewrite app_nil_r.
  - unfold class_kept. cbn [sections current_section content].
    rewrite !remove_ws_app.
    change (remove_ws [nl]) with (@nil ascii).
    now rewrite app_nil_r, app_assoc.
Qed.

Lemma fold_kept (lines : list pystr) (st : seg_state) :
  class_kept (fold_left seg_step lines st)
  = class_kept st ++ concat (map remove_ws lines).
Proof.
  revert st. induction lines as [|l r IH]; intro st; simpl.
  - now rewrite app_nil_r.
  - now rewrite IH, seg_step_kept, <- app_assoc.
Qed.

Lemma create_sections_text (md : pystr) :
  remove_ws (all_content (_create_sections md)) = remove_ws md.
Proof.
  unfold _create_sections. rewrite save_current_kept, fold_kept.
  now rewrite (remove_ws_lines md).
Qed.

Lemma save_current_ok (st : seg_state) :
  Forall class_section_ok (sections st) ->
  Forall class_section_ok (save_current st).
Proof.
  intro H. unfold save_current. rewrite truthy_strip_blank.
  destruct (blank (content (current_section st))) eqn:E; simpl;
    [exact H|].
  apply Forall_app. split; [exact H|]. constructor; [|constructor].
  unfold class_section_ok. cbn [content estimated_minutes].
  split; [exact E|]. split; [reflexivity|].
  unfold _estimate_reading_time. lia.
Qed.

Lemma fold_class_ok (lines : list pystr) (st : seg_state) :
  Forall class_section_ok (sections st) ->
  Forall class_section_ok (sections (fold_left seg_step lines st)).
Proof.
  revert st. induction lines as [|l r IH]; intros st H; simpl; [exact H|].
  apply IH. unfold seg_step. destruct (is_header l); simpl;
    [now apply save_current_ok | exact H].
Qed.

End ClassPathText.

Section FunctionPathSections.
Import FunctionPath.

(** Whitespace at the end of a text adds no token, nor does whitespace
    at its start. *)
Lemma count_tokens_spaces (w : pystr) :
  forallb is_space w = true -> forall b, count_tokens b w = 0.
Proof.
  induction w as [|a w IH]; simpl; [reflexivity|].
  intros H b. apply andb_true_iff in H as [Ha Hw]. now rewrite Ha, IH.
Qed.

Lemma count_tokens_app_spaces (s w : pystr) :
  forallb is_space w = true ->
  forall b, count_tokens b (s ++ w) = count_tokens b s.
Proof.
  intro Hw. induction s as [|a s IH]; intro b; simpl.
  - now apply count_tokens_spaces.
  - destruct (is_space a); now rewrite IH.
Qed.

Lemma drop_while_split (p : ascii -> bool) (s : pystr) :
  exists w, s = w ++ drop_while p s /\ forallb p w = true.
Proof.
  induction s as [|a s (w & E & Hw)]; simpl.
  - now exists [].
  - destruct (p a) eqn:Ea.
    + exists (a :: w). simpl. now rewrite Ea, Hw, <- E.
    + now exists [].
Qed.

Lemma word_count_strip (s : pystr) : word_count (strip s) = word_count s.
Proof.
  unfold word_count, strip, rstrip, lstrip.
  destruct (drop_while_split is_space (rev (drop_while is_space s)))
    as (w & E & Hw).
  apply (f_equal (@rev ascii)) in E.
  rewrite rev_involutive, rev_app_distr in E.
  assert (H1 : count_tokens false (drop_while is_space s)
               = count_tokens false
                   (rev (drop_while is_space (rev (drop_while is_space s))))).
  { rewrite E at 1. apply count_tokens_app_spaces.
    now rewrite forallb_rev_eq. }
  rewrite <- H1. clear.
  induction s as [|a s IH]; simpl; [reflexivity|].
  destruct (is_space a) eqn:Ea; [exact IH|]. simpl. now rewrite Ea.
Qed.

Lemma estimate_strip (s : pystr) :
  estimate_reading_time (strip s) = estimate_reading_time s.
Proof.
  unfold estimate_reading_time. now rewrite !split_ws_length, word_count_strip.
Qed.

Lemma save_pending_ok (st : seg_state) :
  text_inv st ->
  Forall section_ok (sections st) ->
  Forall section_ok (save_pending st).
Proof.
  intros Hi H. pose proof (save_pending_has_text Hi) as Ht.
  unfold save_pending in *.
  destruct (current_section st) as [cur|]; [|now destruct (section_content st)].
  destruct (section_content st) as [|l ls]; [exact H|].
  apply Forall_app. split; [exact H|]. constructor; [|constructor].
  apply Forall_app in Ht as [_ Ht]. inversion Ht as [|? ? Hc _]; subst.
  unfold section_ok. cbn [content estimated_minutes] in *.
  split; [|split; [reflexivity | unfold estimate_reading_time; lia]].
  destruct (blank _) eqn:E; [|reflexivity].
  apply blank_remove_ws in E. exfalso. apply Hc. exact E.
Qed.

Lemma fold_section_ok (lines : list pystr) (st : seg_state) :
  text_inv st ->
  Forall section_ok (sections st) ->
  Forall section_ok (save_pending (fold_left seg_step lines st)).
Proof.
  revert st. induction lines as [|l r IH]; intros st Hi H; simpl.
  - now apply save_pending_ok.
  - apply IH; [now apply seg_step_text_inv|].
    unfold seg_step. destruct (is_heading l); simpl.
    + now apply save_pending_ok.
    + now destruct (truthy (strip l)).
Qed.

(** The next index counts the heading lines met so far. *)
Lemma fold_next_index (lines : list pystr) (st : seg_state) :
  next_index (fold_left seg_step lines st)
  = next_index st + length (filter is_heading lines).
Proof.
  revert st. induction lines as [|l r IH]; intro st; simpl; [lia|].
  rewrite IH. unfold seg_step.
  destruct (is_heading l); simpl; [lia|].
  destruct (truthy (strip l)); simpl; lia.
Qed.

Lemma sorted_bounded_length (l : list nat) :
  forall lo n,
    StronglySorted lt l -> Forall (fun y => lo <= y < n) l ->
    length l <= n - lo.
Proof.
  induction l as [|a l IH]; intros lo n Hs Hb; simpl; [lia|].
  inversion Hs as [|? ? Hs' Ha]; subst. inversion Hb as [|? ? Hab Hb']; subst.
  assert (H : length l <= n - S a).
  { apply IH; [exact Hs'|]. rewrite Forall_forall in *.
    intros y Hy. specialize (Ha y Hy). specialize (Hb' y Hy). lia. }
  lia.
Qed.

End FunctionPathSections.

(** X1: the class-based segmenter loses and adds no text: the contents of
    its sections, concatenated in order, are the input up to whitespace,
    heading lines included. *)
Theorem create_sections_round_trip (md : pystr) :
  remove_ws (all_content (ClassPath._create_sections md)) = remove_ws md.
Proof. apply create_sections_text. Qed.

(** X2: in the class-based segmenter, non-blank text before the first
    header line is the content of the first section, which is titled
    "Introduction" and has index 0; the content is these lines, each
    followed by a newline. *)
Theorem class_path_keeps_leading_text
    (md : pystr) (pre rest : list pystr) :
  split_on nl md = pre ++ rest ->
  forallb (fun l => negb (ClassPath.is_header l)) pre = true ->
  match rest with [] => true | h :: _ => ClassPath.is_header h end = true ->
  existsb nonblank pre = true ->
  exists minutes more,
    ClassPath._create_sections md
    = mk_section (lit "Introduction")
        (concat (map (fun l => l ++ [nl]) pre)) 0 minutes :: more.
Proof. apply create_sections_keeps_leading_text. Qed.

Lemma class_path_keeps_leading_text_witness :
  exists minutes more,
    ClassPath._create_sections (text_of_lines ["a"; ""; "## B"; "b"]%string)
    = mk_section (lit "Introduction") (lit "a" ++ [nl] ++ [nl]) 0 minutes
      :: more.
Proof.
  exact (@class_path_keeps_leading_text
           (text_of_lines ["a"; ""; "## B"; "b"]%string)
           [lit "a"; lit ""] [lit "## B"; lit "b"]
           eq_refl eq_refl eq_refl eq_refl).
Defined.

(** X3: no section of either segmenter has blank content, and the
    [estimated_minutes] of every section is the segmenter's estimate for
    the section's own content, hence at least 1 (the catch-all section is
    estimated on the unstripped text, which gives the same value). *)
Theorem sections_have_text_and_minutes (md : pystr) (s : section_dict) :
  (In s (FunctionPath.process_sections md) -> section_ok s)
  /\ (In s (ClassPath._create_sections md) -> class_section_ok s).
Proof.
  split.
  - unfold FunctionPath.process_sections.
    assert (H : Forall section_ok (FunctionPath.heading_sections md)).
    { unfold FunctionPath.heading_sections. apply fold_section_ok.
      - split; [constructor | reflexivity].
      - constructor. }
    destruct (FunctionPath.heading_sections md) as [|s0 r] eqn:E.
    + rewrite truthy_strip_blank.
      destruct (blank md) eqn:Eb; simpl; [intros []|].
      intros [<-|[]]. unfold section_ok. cbn [content estimated_minutes].
      split; [|split; [now rewrite estimate_strip
                      | unfold estimate_reading_time; lia]].
      destruct (blank (strip md)) eqn:Es; [|reflexivity].
      apply blank_remove_ws in Es. rewrite remove_ws_strip in Es.
      apply blank_remove_ws in Es. congruence.
    + intro Hin. rewrite Forall_forall in H. now apply H.
  - unfold ClassPath._create_sections. intro Hin.
    assert (H : Forall class_section_ok
                  (ClassPath.save_current
                     (fold_left ClassPath.seg_step (split_on nl md)
                                ClassPath.seg_init))).
    { apply save_current_ok, fold_class_ok. constructor. }
    rewrite Forall_forall in H. now apply H.
Qed.

Lemma sections_have_text_and_minutes_witness :
  section_ok (mk_section (lit "A") (lit "x") 0 1)
  /\ class_section_ok (mk_section (lit "A") (lit "# A" ++ [nl] ++ lit "x" ++ [nl]) 1 1).
Proof.
  split.
  - apply (proj1 (sections_have_text_and_minutes
                    (text_of_lines ["# A"; "x"]%string)
                    (mk_section (lit "A") (lit "x") 0 1))).
    left. reflexivity.
  - apply (proj2 (sections_have_text_and_minutes
                    (text_of_lines ["# A"; "x"]%string)
                    (mk_section (lit "A")
                       (lit "# A" ++ [nl] ++ lit "x" ++ [nl]) 1 1))).
    left. reflexivity.
Defined.

(** X4: [process_sections] never emits more sections than the text has
    heading lines (one, for the catch-all section, when it has none), and
    every [order_index] is below that number. *)
Theorem sections_bounded_by_headings (md : pystr) :
  length (FunctionPath.process_sections md) <= Nat.max 1 (heading_count md)
  /\ Forall (fun s => order_index s < Nat.max 1 (heading_count md))
            (FunctionPath.process_sections md).
Proof.
  assert (H : StronglySorted lt
                (map order_index (FunctionPath.heading_sections md))
              /\ Forall (fun y => y < heading_count md)
                        (map order_index (FunctionPath.heading_sections md))).
  { unfold FunctionPath.heading_sections, heading_count.
    replace (length (filter FunctionPath.is_heading (split_on nl md)))
      with (FunctionPath.next_index
              (fold_left FunctionPath.seg_step (split_on nl md)
                         FunctionPath.seg_init))
      by (now rewrite fold_next_index).
    apply save_pending_sorted, fold_seg_inv.
    split; [constructor | reflexivity]. }
  destruct H as [Hs Hb]. unfold FunctionPath.process_sections.
  destruct (FunctionPath.heading_sections md) as [|s0 r] eqn:E.
  - destruct (truthy (strip md)).
    + split; [cbn [length]; lia|].
      constructor; [cbn [order_index]; lia | constructor].
    + split; [cbn [length]; lia | constructor].
  - split.
    + pose proof (@sorted_bounded_length _ 0 (heading_count md) Hs) as Hl.
      rewrite length_map in Hl.
      assert (length (s0 :: r) <= heading_count md - 0).
      { apply Hl. eapply Forall_impl; [|exact Hb]. simpl. intros; lia. }
      lia.
    + rewrite Forall_map in Hb. eapply Forall_impl; [|exact Hb].
      cbv beta. intros; lia.
Qed.

(** X5: a text without any heading line that is not blank gives exactly
    one section: titled "Content", with the stripped text as content and
    index 0. *)
Theorem text_without_heading_one_section (md : pystr) :
  existsb FunctionPath.is_heading (split_on nl md) = false ->
  blank md = false ->
  FunctionPath.process_sections md
  = [mk_section (lit "Content") (strip md) 0 (estimate_reading_time md)].
Proof. apply process_sections_no_heading. Qed.

Lemma text_without_heading_one_section_witness :
  FunctionPath.process_sections (text_of_lines [" one"; "two "]%string)
  = [mk_section (lit "Content") (lit "one" ++ [nl] ++ lit "two") 0 1].
Proof.
  exact (@text_without_heading_one_section
           (text_of_lines [" one"; "two "]%string) eq_refl eq_refl).
Defined.

(** X6: each segmenter returns the empty list exactly when the input is
    empty or all whitespace: text that is not blank always gives a
    section. *)
Theorem no_sections_iff_blank (md : pystr) :
  (FunctionPath.process_sections md = [] <-> forallb is_space md = true)
  /\ (ClassPath._create_sections md = [] <-> forallb is_space md = true).
Proof.
  split; split.
  - unfold FunctionPath.process_sections.
    destruct (FunctionPath.heading_sections md); [|discriminate].
    destruct (strip md) eqn:E; [|discriminate].
    intros _. now apply strip_nil_iff.
  - intro H. unfold FunctionPath.process_sections.
    rewrite (heading_sections_blank md H).
    apply strip_nil_iff in H. now rewrite H.
  - intro H. apply remove_ws_nil_iff.
    rewrite <- create_sections_text, H. reflexivity.
  - apply create_sections_blank.
Qed.

(** ** Further properties of the reading time *)

Lemma py_round_div_mono (d n n' : nat) :
  0 < d -> n <= n' -> py_round_div n d <= py_round_div n' d.
Proof.
  intros Hd Hn. destruct (Nat.eq_dec n n') as [->|Hne]; [lia|].
  destruct (py_round_div_nearest n Hd) as [H1 _].
  destruct (py_round_div_nearest n' Hd) as [_ H2].
  destruct (Nat.le_gt_cases (py_round_div n d) (py_round_div n' d))
    as [H|H]; [exact H|].
  pose proof (Nat.mul_le_mono_l _ _ d H) as Hm. lia.
Qed.

(** X7: more words never give a shorter reading time, in either
    estimator. *)
Theorem reading_time_monotone (content content' : pystr) :
  word_count content <= word_count content' ->
  estimate_reading_time content <= estimate_reading_time content'
  /\ _estimate_reading_time content <= _estimate_reading_time content'.
Proof.
  intro H. unfold estimate_reading_time, _estimate_reading_time.
  rewrite !split_ws_length.
  pose proof (@py_round_div_mono 225 _ _ ltac:(lia) H).
  pose proof (@py_round_div_mono 200 _ _ ltac:(lia) H).
  lia.
Qed.

Lemma reading_time_monotone_witness :
  estimate_reading_time (lit "one") <= estimate_reading_time (lit "one two")
  /\ _estimate_reading_time (lit "one")
     <= _estimate_reading_time (lit "one two").
Proof.
  apply (reading_time_monotone (lit "one") (lit "one two")).
  vm_compute. lia.
Defined.

(** X8: [estimate_reading_time] gives 1 minute exactly up to 337 words
    and [_estimate_reading_time] exactly up to 299 words (300 words are
    1.5 minutes at 200 words per minute, rounded to the even 2); and the
    class-based estimate is never below the function-based one. *)
Theorem reading_time_thresholds (content : pystr) :
  (estimate_reading_time content = 1 <-> word_count content <= 337)
  /\ (_estimate_reading_time content = 1 <-> word_count content <= 299)
  /\ estimate_reading_time content <= _estimate_reading_time content.
Proof.
  unfold estimate_reading_time, _estimate_reading_time.
  rewrite !split_ws_length. set (w := word_count content).
  split; [|split].
  - split; intro H.
    + destruct (Nat.le_gt_cases w 337) as [Hw|Hw]; [exact Hw|].
      pose proof (@py_round_div_mono 225 338 w ltac:(lia) ltac:(lia)) as Hm.
      change (py_round_div 338 225) with 2 in Hm. lia.
    + pose proof (@py_round_div_mono 225 w 337 ltac:(lia) H) as Hm.
      change (py_round_div 337 225) with 1 in Hm. lia.
  - split; intro H.
    + destruct (Nat.le_gt_cases w 299) as [Hw|Hw]; [exact Hw|].
      pose proof (@py_round_div_mono 200 300 w ltac:(lia) ltac:(lia)) as Hm.
      change (py_round_div 300 200) with 2 in Hm. lia.
    + pose proof (@py_round_div_mono 200 w 299 ltac:(lia) H) as Hm.
      change (py_round_div 299 200) with 1 in Hm. lia.
  - destruct (@py_round_div_nearest w 225 ltac:(lia)) as [H1 _].
    destruct (@py_round_div_nearest w 200 ltac:(lia)) as [_ H2].
    lia.
Qed.

(** ** Further properties of the image descriptions *)

Lemma lit_inj (s1 s2 : string) : lit s1 = lit s2 -> s1 = s2.
Proof.
  unfold lit. intro H. apply (f_equal string_of_list_ascii) in H.
  now rewrite !string_of_list_ascii_of_string in H.
Qed.

Lemma str_of_nat_inj (n m : nat) : str_of_nat n = str_of_nat m -> n = m.
Proof.
  unfold str_of_nat. intro H. apply lit_inj in H.
  apply DecimalNat.Unsigned.to_uint_inj.
  apply (f_equal NilEmpty.uint_of_string) in H.
  rewrite !NilEmpty.usu in H. now inversion H.
Qed.

Lemma image_id_at_inj (n m : nat) : image_id_at n = image_id_at m -> n = m.
Proof.
  unfold image_id_at. intro H. apply app_inv_head in H.
  now apply str_of_nat_inj.
Qed.

Lemma NoDup_map_injective (A B : Type) (f : A -> B) (l : list A) :
  (forall x y, f x = f y -> x = y) -> NoDup l -> NoDup (map f l).
Proof.
  intros Hf. induction 1 as [|a l Ha _ IH]; simpl; constructor; [|exact IH].
  intro Hin. apply in_map_iff in Hin as (b & E & Hb).
  apply Hf in E. subst b. contradiction.
Qed.

Lemma describe_all_spec (items : list pyval) :
  forall i acc,
    length (describe_all i items acc) = length acc + length items
    /\ map Image.image_id (describe_all i items acc)
       = map Image.image_id acc ++ map image_id_at (seq i (length items))
    /\ (Forall (fun d => Image.confidence d = default_confidence) acc ->
        Forall (fun d => Image.confidence d = default_confidence)
               (describe_all i items acc)).
Proof.
  induction items as [|p items IH]; intros i acc; simpl.
  - rewrite app_nil_r. repeat split; [lia | auto].
  - destruct (IH (S i) (acc ++ [describe_picture i p])) as (H1 & H2 & H3).
    rewrite H1, H2, length_app, map_app, <- app_assoc. simpl.
    split; [lia|]. split; [reflexivity|].
    intro Hacc. apply H3. apply Forall_app. split; [exact Hacc|].
    now repeat constructor.
Qed.

(** X9: for a document whose [pictures] is a list, there is one image
    description per picture, in order; their identifiers are [image_0],
    [image_1], ..., so no two descriptions share an identifier; and every
    confidence is the default 0.8. *)
Theorem image_descriptions_per_picture
    (attrs : list (string * pyval)) (items : list pyval) :
  lookup_attr "pictures" attrs = Some (VList items) ->
  exists descriptions,
    extract_image_descriptions (VObj attrs) = Ok descriptions
    /\ length descriptions = length items
    /\ map Image.image_id descriptions
       = map image_id_at (seq 0 (length items))
    /\ NoDup (map Image.image_id descriptions)
    /\ Forall (fun d => Image.confidence d = default_confidence)
              descriptions.
Proof.
  intro H. unfold extract_image_descriptions, hasattr, getattr.
  cbn [attrs_of]. rewrite H. cbn [bind py_iter].
  destruct (describe_all_spec items 0 []) as (H1 & H2 & H3).
  eexists. split; [reflexivity|]. split; [exact H1|].
  split; [exact H2|]. split; [|apply H3; constructor].
  rewrite H2. simpl. apply NoDup_map_injective.
  - exact image_id_at_inj.
  - apply seq_NoDup.
Qed.

Lemma image_descriptions_per_picture_witness :
  exists descriptions,
    extract_image_descriptions
      (VObj [("pictures"%string, VList [VObj []; VNone; VObj []])])
    = Ok descriptions
    /\ map Image.image_id descriptions
       = [lit "image_0"; lit "image_1"; lit "image_2"].
Proof.
  destruct (@image_descriptions_per_picture
              [("pictures"%string, VList [VObj []; VNone; VObj []])]
              [VObj []; VNone; VObj []] eq_refl)
    as (ds & E & _ & Hid & _).
  exists ds. split; [exact E | exact Hid].
Defined.

(** ** Stripped texts *)

Lemma drop_while_head (p : ascii -> bool) (s : pystr) :
  match drop_while p s with
  | [] => True
  | a :: _ => p a = false
  end.
Proof.
  induction s as [|a s IH]; simpl; [exact I|].
  destruct (p a) eqn:E; [exact IH | exact E].
Qed.

Lemma strip_trimmed (s : pystr) : trimmed (strip s) = true.
Proof.
  unfold trimmed, strip, rstrip, lstrip.
  set (u := drop_while is_space s).
  set (d := drop_while is_space (rev u)).
  rewrite rev_involutive.
  assert (Hd : starts_with_space d = false).
  { pose proof (drop_while_head is_space (rev u)) as H. fold d in H.
    destruct d; [reflexivity | exact H]. }
  rewrite Hd, andb_true_r.
  destruct (drop_while_split is_space (rev u)) as (w & E & Hw). fold d in E.
  apply (f_equal (@rev ascii)) in E.
  rewrite rev_involutive, rev_app_distr in E.
  destruct (rev d) as [|a t] eqn:Er; [reflexivity|].
  simpl in E. pose proof (drop_while_head is_space s) as H. fold u in H.
  rewrite E in H. simpl. now rewrite H.
Qed.

(** Stripping a trimmed text changes nothing. *)
Lemma drop_while_nonspace_head (s : pystr) :
  starts_with_space s = false -> drop_while is_space s = s.
Proof. destruct s as [|a t]; simpl; [reflexivity | now intros ->]. Qed.

Lemma strip_of_trimmed (s : pystr) : trimmed s = true -> strip s = s.
Proof.
  unfold trimmed, strip, rstrip, lstrip. intro H.
  apply andb_true_iff in H as [H1 H2].
  apply negb_true_iff in H1, H2.
  rewrite (drop_while_nonspace_head _ H1), (drop_while_nonspace_head _ H2).
  apply rev_involutive.
Qed.

Lemma strip_idempotent (s : pystr) : strip (strip s) = strip s.
Proof. apply strip_of_trimmed, strip_trimmed. Qed.

(** ** Further properties of the code snippets *)

Lemma count_app (c : ascii) (a b : pystr) :
  count c (a ++ b) = count c a + count c b.
Proof. unfold count. now rewrite filter_app, length_app. Qed.

Lemma count_cons (c a : ascii) (s : pystr) :
  count c (a :: s) = (if ascii_eqb c a then 1 else 0) + count c s.
Proof. unfold count. simpl. now destruct (ascii_eqb c a). Qed.

Lemma count_none (p : ascii -> bool) (c : ascii) (s : pystr) :
  p c = false -> forallb p s = true -> count c s = 0.
Proof.
  intros Hc. unfold count. induction s as [|a s IH]; simpl; [reflexivity|].
  intro H. apply andb_true_iff in H as [Ha Hs].
  destruct (ascii_eqb c a) eqn:E; [|now apply IH].
  apply Ascii.eqb_eq in E. subst a. congruence.
Qed.

Lemma firstn_slice (s : pystr) :
  forall b e, b <= e -> firstn e s = firstn b s ++ slice b e s.
Proof.
  unfold slice. induction s as [|a s IH]; intros b e H.
  - now rewrite skipn_nil, !firstn_nil.
  - destruct b as [|b]; [now rewrite Nat.sub_0_r|].
    destruct e as [|e]; [lia|]. simpl. f_equal. apply IH. lia.
Qed.

Lemma count_firstn_le (c : ascii) (s : pystr) (b : nat) :
  count c (firstn b s) <= count c s.
Proof.
  rewrite <- (firstn_skipn b s) at 2. rewrite count_app. lia.
Qed.

Section SnippetShape.
Import Re.

Lemma snippet_in_match (content : pystr) (sn : Snippet.t) :
  In sn (extract_code_snippets content) ->
  exists fb, snippet_for content fb sn
             /\ Snippet.description sn
                = lit "Code snippet in " ++ Snippet.language sn.
Proof.
  unfold extract_code_snippets. rewrite fold_left_snoc_map. simpl.
  intro Hin. apply in_map_iff in Hin as (m & <- & Hm).
  destruct (finditer_spec code_block_pattern content) as [Hall _].
  rewrite Forall_forall in Hall. destruct (Hall m Hm) as [Hle Hmatch].
  destruct (snippet_of_match Hle Hmatch) as (fb & _ & _ & Hfb).
  exists fb. split; [exact Hfb | reflexivity].
Qed.

End SnippetShape.

(** X10: every code snippet spans at least three lines of the text:
    [line_start] is at least 1, [line_end] is at least [line_start + 2]
    and at most the number of lines of the text.  Its language is a
    non-empty run of word characters, its description is "Code snippet
    in " followed by the language, and its code is trimmed. *)
Theorem code_snippet_shape (content : pystr) (sn : Snippet.t) :
  In sn (extract_code_snippets content) ->
  1 <= Snippet.line_start sn
  /\ Snippet.line_start sn + 2 <= Snippet.line_end sn
  /\ Snippet.line_end sn <= count nl content + 1
  /\ Snippet.language sn <> []
  /\ forallb is_word (Snippet.language sn) = true
  /\ Snippet.description sn = lit "Code snippet in " ++ Snippet.language sn
  /\ trimmed (Snippet.code sn) = true.
Proof.
  intro Hin.
  destruct (snippet_in_match content sn Hin)
    as (fb & (Hend & Hslice & Hw & Hl & Hc & Hs & He & Hle) & Hd).
  assert (Hbe : fb_start fb <= fb_end fb).
  { destruct (Nat.le_gt_cases (fb_start fb) (fb_end fb)) as [H|H];
      [exact H|].
    unfold slice in Hslice.
    replace (fb_end fb - fb_start fb) with 0 in Hslice by lia.
    discriminate. }
  assert (Hn : count nl (slice_to (fb_end fb) content)
               = count nl (slice_to (fb_start fb) content)
                 + (2 + count nl (fb_body fb))).
  { unfold slice_to. rewrite (firstn_slice content Hbe), count_app, Hslice.
    rewrite !count_app, !count_cons, count_app.
    rewrite (count_none is_word nl (fb_tag fb) eq_refl Hw).
    change (count nl fence) with 0. change (count nl (nl :: fence)) with 1.
    change (ascii_eqb nl nl) with true. cbv iota. lia. }
  pose proof (count_firstn_le nl content (fb_end fb)) as Hmax.
  unfold slice_to in *.
  split; [lia|]. split; [lia|]. split; [lia|].
  split; [|split; [|split; [exact Hd | rewrite Hc; apply strip_trimmed]]].
  - rewrite Hl. destruct (fb_tag fb); simpl; discriminate.
  - rewrite Hl. destruct (fb_tag fb) as [|a t]; [reflexivity | exact Hw].
Qed.

Lemma code_snippet_shape_witness :
  let sn := Snippet.mk (lit "x=1") (lit "unknown")
                       (lit "Code snippet in unknown") 2 4 in
  Snippet.line_start sn + 2 <= Snippet.line_end sn
  /\ Snippet.language sn <> [].
Proof.
  destruct (@code_snippet_shape
              (text_of_lines ["t"; "```"; "x=1"; "```"]%string)
              (Snippet.mk (lit "x=1") (lit "unknown")
                          (lit "Code snippet in unknown") 2 4))
    as (_ & H2 & _ & H4 & _).
  - left. reflexivity.
  - split; [exact H2 | exact H4].
Defined.

(** ** Further properties of the formulas and of the content flags *)

Lemma startswith_app (p b : pystr) : startswith p (p ++ b) = true.
Proof.
  induction p as [|a p IH]; simpl; [reflexivity|].
  unfold ascii_eqb. now rewrite Ascii.eqb_refl, IH.
Qed.

Lemma contains_app (p a b : pystr) : contains p (a ++ p ++ b) = true.
Proof.
  induction a as [|c a IH]; simpl.
  - destruct (p ++ b) eqn:E; simpl; rewrite <- E, startswith_app; reflexivity.
  - rewrite IH. apply orb_true_r.
Qed.

Lemma contains_single (c : ascii) (s : pystr) :
  contains [c] s = existsb (ascii_eqb c) s.
Proof.
  induction s as [|a s IH]; simpl; [reflexivity|].
  now rewrite IH, andb_true_r.
Qed.

Lemma contains_head (c : ascii) (p s : pystr) :
  contains (c :: p) s = true -> contains [c] s = true.
Proof.
  induction s as [|a s IH]; simpl; [discriminate|].
  intro H. apply orb_true_iff in H as [H|H].
  - apply andb_true_iff in H as [H _]. now rewrite H.
  - rewrite (IH H). apply orb_true_r.
Qed.

Lemma lower_app (a b : pystr) : lower (a ++ b) = lower a ++ lower b.
Proof. apply map_app. Qed.

Section FlagFacts.
Import Re.

Lemma extract_metadata_flags (version : pystr) (doc : document)
    (args : arguments) (m : metadata) :
  extract_metadata version doc args = Ok m ->
  has_code m
  = (contains fence (export_to_markdown doc)
     || contains (lit "`") (export_to_markdown doc))
  /\ has_formulas m
     = (contains (lit "$") (export_to_markdown doc)
        || contains (lit "equation") (lower (export_to_markdown doc)))
  /\ has_images m = has_truthy (doc_object doc) "pictures"
  /\ has_tables m = has_truthy (doc_object doc) "tables".
Proof.
  unfold extract_metadata, bind.
  destruct (if hasattr (doc_object doc) "pages" then _ else _);
    [|discriminate].
  destruct (extract_title (doc_object doc)); [|discriminate].
  intro H. inversion H; subst. simpl. repeat split.
Qed.

(** A match starts with the opening text of its pattern. *)
Lemma matched_delimited_opening (opening closing content : pystr)
    (m : match_obj) :
  matched (delimited opening closing) content m ->
  exists a b, content = a ++ opening ++ b.
Proof.
  intro H. destruct (formula_group_set H) as (body & _ & E).
  exists (firstn (m_start m) content),
         (body ++ closing ++ skipn (m_end m) content).
  now rewrite <- E, firstn_skipn.
Qed.

Lemma finditer_matched (r : regex) (content : pystr) (m : match_obj) :
  In m (finditer r content) -> matched r content m.
Proof.
  intro Hin. destruct (finditer_spec r content) as [Hall _].
  rewrite Forall_forall in Hall. now apply Hall.
Qed.

Lemma formulas_of_source (r : regex) (content : pystr) :
  formulas_of r content <> [] -> exists m, In m (finditer r content).
Proof.
  unfold formulas_of. destruct (finditer r content) as [|m ms].
  - intro H. now contradiction H.
  - intros _. exists m. now left.
Qed.

Lemma formulas_need_marker (content : pystr) :
  extract_formulas content <> [] ->
  contains (lit "$") content
  || contains (lit "equation") (lower content) = true.
Proof.
  rewrite extract_formulas_unfold. intro H.
  assert (Hcases : formulas_of display_math content <> []
                   \/ formulas_of inline_math content <> []
                   \/ formulas_of equation_env content <> []).
  { destruct (formulas_of display_math content); [|left; discriminate].
    destruct (formulas_of inline_math content); [|right; left; discriminate].
    right; right. exact H. }
  destruct Hcases as [Hc|[Hc|Hc]];
    apply formulas_of_source in Hc as (m & Hm);
    apply finditer_matched, matched_delimited_opening in Hm
      as (a & b & ->).
  - apply orb_true_iff. left.
    change (lit "$$" ++ b) with (lit "$" ++ (lit "$" ++ b)).
    apply contains_app.
  - apply orb_true_iff. left. apply contains_app.
  - apply orb_true_iff. right.
    rewrite !lower_app.
    change (lower (lit "\begin{equation}"))
      with (lit "\begin{" ++ lit "equation" ++ lit "}").
    rewrite <- !app_assoc, (app_assoc (lower a)).
    apply contains_app.
Qed.

Lemma snippets_need_fence (content : pystr) :
  extract_code_snippets content <> [] -> contains fence content = true.
Proof.
  unfold extract_code_snippets. rewrite fold_left_snoc_map. simpl.
  destruct (finditer code_block_pattern content) as [|m ms] eqn:E;
    [intro H; now contradiction H|].
  intros _.
  assert (Hm : matched code_block_pattern content m)
    by (apply finditer_matched; rewrite E; now left).
  destruct Hm as [_ Hd].
  apply derive_code_block in Hd as (tag & body & Er & _).
  cbn [rest] in Er.
  rewrite <- (firstn_skipn (m_start m) content), Er.
  apply contains_app.
Qed.

End FlagFacts.

(** X11: [has_code] is true exactly when the Markdown text holds a
    backquote (the test for three backquotes adds nothing), and
    [has_formulas] exactly when it holds a dollar sign or, in any letter
    case, the word "equation". *)
Theorem content_flags (version : pystr) (doc : document)
    (args : arguments) (m : metadata) :
  extract_metadata version doc args = Ok m ->
  has_code m = existsb (ascii_eqb "`") (export_to_markdown doc)
  /\ has_formulas m
     = (existsb (ascii_eqb "$") (export_to_markdown doc)
        || contains (lit "equation") (lower (export_to_markdown doc))).
Proof.
  intro H. apply extract_metadata_flags in H as (Hc & Hf & _).
  rewrite Hc, Hf. split.
  - change (lit "`") with ["`"%char]. rewrite <- contains_single.
    destruct (contains fence (export_to_markdown doc)) eqn:E;
      [|reflexivity].
    symmetry. apply (contains_head _ _ _ E).
  - change (lit "$") with ["$"%char]. now rewrite contains_single.
Qed.

Lemma content_flags_witness :
  existsb (ascii_eqb "`") (lit "a `b") = true.
Proof.
  destruct (@content_flags (lit "unknown")
              (mk_document (VObj []) (lit "a `b"))
              (mk_arguments false false (lit "SmolDocling") false false)
              (mk_metadata (VStr (lit "Untitled Document")) 1 false false
                 true false
                 (mk_processing_info true true false false (lit "unknown")
                    (Some (lit "SmolDocling"))))
              eq_refl) as [H _].
  symmetry. exact H.
Defined.

(** X12: the flags agree with the enrichment: when the code-snippet
    extractor finds a snippet in the document's Markdown, [has_code] is
    true, and when the formula extractor finds a formula, [has_formulas]
    is true. *)
Theorem enrichment_sets_flags (version : pystr) (doc : document)
    (args : arguments) (m : metadata) :
  extract_metadata version doc args = Ok m ->
  (extract_code_snippets (export_to_markdown doc) <> [] ->
   has_code m = true)
  /\ (extract_formulas (export_to_markdown doc) <> [] ->
      has_formulas m = true).
Proof.
  intro H. apply extract_metadata_flags in H as (Hc & Hf & _).
  rewrite Hc, Hf. split; intro Hne.
  - now rewrite (snippets_need_fence _ Hne).
  - now apply formulas_need_marker.
Qed.

Lemma enrichment_sets_flags_witness :
  has_code (mk_metadata (VStr (lit "Untitled Document")) 1 false false
              true false
              (mk_processing_info true true false false (lit "unknown")
                 (Some (lit "SmolDocling")))) = true.
Proof.
  apply (proj1 (@enrichment_sets_flags (lit "unknown")
           (mk_document (VObj [])
              (text_of_lines ["```"; "x"; "```"]%string))
           (mk_arguments false false (lit "SmolDocling") false false)
           (mk_metadata (VStr (lit "Untitled Document")) 1 false false
              true false
              (mk_processing_info true true false false (lit "unknown")
                 (Some (lit "SmolDocling"))))
           eq_refl)).
  vm_compute. discriminate.
Defined.

(** X13: every formula record holds a trimmed formula; its description
    is "Mathematical expression: " followed by at most 50 characters of
    the formula and, for a longer formula, "...", so it has at most 78
    characters; and its line number lies between 1 and the number of
    lines of the text. *)
Theorem formula_record_shape (content : pystr) (f : Formula.t) :
  In f (extract_formulas content) ->
  trimmed (Formula.formula f) = true
  /\ Formula.description f
     = lit "Mathematical expression: " ++ slice_to 50 (Formula.formula f)
       ++ (if 50 <? length (Formula.formula f) then lit "..." else [])
  /\ length (Formula.description f) <= 78
  /\ 1 <= Formula.line_number f <= count nl content + 1.
Proof.
  rewrite extract_formulas_unfold. intro H.
  assert (Hm : exists m, In f (formula_step content [] m)).
  { unfold formulas_of in H. rewrite !fold_formula_step in H. simpl in H.
    apply in_app_or in H as [H|H]; [|apply in_app_or in H as [H|H]];
      apply in_flat_map in H as (m & _ & H); now exists m. }
  destruct Hm as (m & Hin). unfold formula_step in Hin.
  destruct (truthy (group_strip (Re.group content m 1))); [|destruct Hin].
  destruct Hin as [<-|[]].
  cbn [Formula.formula Formula.description Formula.line_number].
  split; [|split; [reflexivity|split]].
  - unfold group_strip. destruct (Re.group content m 1);
      [apply strip_trimmed | reflexivity].
  - rewrite !length_app. unfold slice_to.
    pose proof (length_firstn 50 (group_strip (Re.group content m 1))) as Hl.
    change (length (lit "Mathematical expression: ")) with 25.
    rewrite Hl.
    destruct (50 <? _);
      [change (length (lit "...")) with 3 | change (length (@nil ascii)) with 0];
      lia.
  - pose proof (count_firstn_le nl content (Re.m_start m)).
    unfold slice_to. lia.
Qed.

Lemma formula_record_shape_witness :
  length (lit "Mathematical expression: x") <= 78.
Proof.
  destruct (@formula_record_shape (lit "$$ x $$")
              (Formula.mk (lit "x") (lit "Mathematical expression: x")
                          (lit "mathematical") 1))
    as (_ & _ & H & _).
  - left. reflexivity.
  - exact H.
Defined.

(** ** Further properties of the titles *)

Lemma stripped_heading_has_text (line rest : pystr) :
  trimmed line = true -> line = "#"%char :: " "%char :: rest ->
  strip rest <> [].
Proof.
  intros Ht -> Hs. apply strip_nil_iff in Hs.
  unfold trimmed in Ht. apply andb_true_iff in Ht as [_ Ht].
  apply negb_true_iff in Ht. simpl rev in Ht.
  rewrite <- forallb_rev_eq in Hs.
  destruct (rev rest) as [|b t]; [discriminate|].
  simpl in Ht, Hs. rewrite Ht in Hs. discriminate.
Qed.

Lemma title_from_lines_not_empty (lines : list pystr) :
  title_from_lines lines <> [].
Proof.
  induction lines as [|l lines IH]; cbn [title_from_lines].
  - discriminate.
  - pose proof (strip_trimmed l) as Ht.
    destruct (startswith (lit "# ") (strip l)) eqn:Eh.
    + destruct (strip l) as [|a [|b rest]] eqn:El; simpl in Eh;
        try discriminate;
        [apply andb_true_iff in Eh as [_ Eh]; discriminate|].
      apply andb_true_iff in Eh as [Ea Eb].
      apply andb_true_iff in Eb as [Eb _].
      apply Ascii.eqb_eq in Ea, Eb. subst a b.
      apply (stripped_heading_has_text Ht eq_refl).
    + destruct (strip l) as [|a t]; [exact IH|].
      cbn [truthy andb]. destruct (negb (startswith [hash] (a :: t)));
        [discriminate | exact IH].
Qed.

(** X14: the title the class-based path finds in the Markdown text is
    never the empty string; so [process_pdf]'s title, for a document
    without a non-empty title of its own, is a non-empty string. *)
Theorem class_title_never_empty :
  (forall markdown, _extract_title_from_content markdown <> [])
  /\ (forall doc,
        has_truthy (doc_object doc) "title" = false ->
        exists t, process_pdf_title doc = VStr t /\ t <> []).
Proof.
  split.
  - intro markdown. apply title_from_lines_not_empty.
  - intros doc H. unfold process_pdf_title, has_truthy in *.
    exists (_extract_title_from_content (export_to_markdown doc)).
    split; [|apply title_from_lines_not_empty].
    destruct (lookup_attr "title" (attrs_of (doc_object doc)));
      [now rewrite H | reflexivity].
Qed.

Lemma class_title_never_empty_witness :
  exists t,
    process_pdf_title
      (mk_document (VObj [("title"%string, VNone)])
                   (text_of_lines [""; "#"; "#  Report "]%string))
    = VStr t /\ t <> [].
Proof.
  exact (proj2 class_title_never_empty
           (mk_document (VObj [("title"%string, VNone)])
                        (text_of_lines [""; "#"; "#  Report "]%string))
           eq_refl).
Defined.

Lemma drop_while_all (p : ascii -> bool) (s : pystr) :
  forallb p s = true -> drop_while p s = [].
Proof. apply drop_while_nil_iff. Qed.

(** X15: [extract_title] can return an empty title: when the document
    has no non-empty title of its own and the first line of its main
    text consists of [#] marks only, the title is the empty string. *)
Theorem extract_title_of_bare_heading
    (attrs : list (string * pyval)) (raw line : pystr)
    (more : list pystr) :
  has_truthy (VObj attrs) "title" = false ->
  lookup_attr "main_text" attrs = Some (VStr raw) ->
  split_on nl raw = line :: more ->
  line <> [] -> forallb (ascii_eqb hash) line = true ->
  extract_title (VObj attrs) = Ok (VStr []).
Proof.
  intros Ht Hm Hs Hne Hh. unfold extract_title, hasattr, getattr.
  rewrite Ht. cbn [attrs_of]. rewrite Hm. cbn [bind py_split].
  rewrite Hs. cbn [firstn title_scan].
  assert (Hstart : startswith [hash] line = true).
  { destruct line as [|a t]; [congruence|]. simpl in *.
    apply andb_true_iff in Hh as [Ha _]. now rewrite Ha. }
  rewrite Hstart. unfold strip_char.
  rewrite (drop_while_all _ _ Hh). reflexivity.
Qed.

Lemma extract_title_of_bare_heading_witness :
  extract_title
    (VObj [("main_text"%string, VStr (text_of_lines ["##"; "Report"]%string))])
  = Ok (VStr []).
Proof.
  apply (@extract_title_of_bare_heading
           [("main_text"%string,
             VStr (text_of_lines ["##"; "Report"]%string))]
           (text_of_lines ["##"; "Report"]%string)
           (lit "##") [lit "Report"]);
    [reflexivity | reflexivity | reflexivity | discriminate | reflexivity].
Defined.

(** ** Properties of the two pipelines *)

Lemma has_nonempty_sized (o : pyval) (name : string) :
  attr_ok o name is_sized = true -> has_nonempty o name = has_truthy o name.
Proof.
  unfold attr_ok, has_nonempty, has_truthy, hasattr, getattr.
  destruct (lookup_attr name (attrs_of o)) as [v|]; [|reflexivity].
  destruct v as [| | |s|items| |]; try discriminate; intros _; simpl.
  - now destruct s.
  - now destruct items.
Qed.

(** X16: for a document whose [pictures] and [tables] are sized
    collections or absent, the class-based [_has_images] and
    [_has_tables] agree with the flags of [extract_metadata].  For a
    field that is an object without a length they differ: the class-based
    test answers false, the function-based flag is true. *)
Theorem image_and_table_flags_agree (version : pystr) (doc : document)
    (args : arguments) (m : metadata) :
  extract_metadata version doc args = Ok m ->
  (attr_ok (doc_object doc) "pictures" is_sized = true ->
   _has_images (doc_object doc) = has_images m)
  /\ (attr_ok (doc_object doc) "tables" is_sized = true ->
      _has_tables (doc_object doc) = has_tables m)
  /\ (forall fields,
        lookup_attr "pictures" (attrs_of (doc_object doc))
        = Some (VObj fields) ->
        _has_images (doc_object doc) = false /\ has_images m = true).
Proof.
  intro H. apply extract_metadata_flags in H as (_ & _ & Hi & Ht).
  rewrite Hi, Ht. split; [|split].
  - apply has_nonempty_sized.
  - apply has_nonempty_sized.
  - intros fields Hf.
    unfold _has_images, has_nonempty, has_truthy, hasattr, getattr.
    rewrite Hf. split; reflexivity.
Qed.

Lemma image_and_table_flags_agree_witness :
  _has_images (VObj [("pictures"%string, VList [VNone])]) = true.
Proof.
  apply (proj1 (@image_and_table_flags_agree (lit "unknown")
           (mk_document (VObj [("pictures"%string, VList [VNone])]) [])
           (mk_arguments false false (lit "SmolDocling") false false)
           (mk_metadata (VStr (lit "Untitled Document")) 1 true false
              false false
              (mk_processing_info true true false false (lit "unknown")
                 (Some (lit "SmolDocling"))))
           eq_refl)).
  reflexivity.
Defined.

Section ProcessPdfFacts.

Variable exn_text : exn -> pystr.
Variables enable_ocr enable_vlm : bool.



End ProcessPdfFacts.



Section MainFacts.

Lemma extract_metadata_ok (version : pystr) (doc : document)
    (args : arguments) :
  well_formed (doc_object doc) = true ->
  exists m, extract_metadata version doc args = Ok m.
Proof.
  unfold well_formed. intro H.
  apply andb_true_iff in H as [H _].
  apply andb_true_iff in H as [H Hmain].
  apply andb_true_iff in H as [H Htitle].
  apply andb_true_iff in H as [H Hpages'].
  apply andb_true_iff in H as [_ Hpages].
  destruct (extract_title_ok (doc_object doc) Htitle Hmain) as (t & Et & _).
  unfold extract_metadata, attr_ok, hasattr, getattr in *.
  destruct (lookup_attr "pages" (attrs_of (doc_object doc))) as [v|].
  - destruct (sized_len v Hpages) as [n Hn]. cbn [bind]. rewrite Hn.
    cbn [bind]. rewrite Et. cbn [bind]. eexists; reflexivity.
  - destruct (lookup_attr "_pages" (attrs_of (doc_object doc))) as [v|].
    + destruct (sized_len v Hpages') as [n Hn]. cbn [bind]. rewrite Hn.
      cbn [bind]. rewrite Et. cbn [bind]. eexists; reflexivity.
    + cbn [bind]. rewrite Et. cbn [bind]. eexists; reflexivity.
Qed.

Lemma image_descriptions_ok (o : pyval) :
  attr_ok o "pictures" is_sized = true ->
  exists ds,
    extract_image_descriptions o = Ok ds
    /\ (ds <> [] -> has_truthy o "pictures" = true).
Proof.
  unfold attr_ok, extract_image_descriptions, has_truthy, hasattr, getattr.
  destruct (lookup_attr "pictures" (attrs_of o)) as [v|].
  - destruct v as [| | |s|items| |]; try discriminate; intros _;
      cbn [bind py_iter]; eexists; (split; [reflexivity|]).
    + destruct s; [intro H; now contradiction H | reflexivity].
    + destruct items; [intro H; now contradiction H | reflexivity].
  - intros _. exists []. split; [reflexivity|]. intro H. now contradiction H.
Qed.

End MainFacts.

(** X18: for a document that is an object and whose fields have the
    converter's types, the assembly of [main] succeeds; its sections are those of
    [process_sections] on the document's Markdown; the code snippets and
    the formulas are in the result exactly when their enrichment was asked
    for, the image descriptions exactly when the VLM components are
    available, VLM is not disabled and the document has a [pictures]
    field; and image descriptions that are present and not empty come
    with [has_images] true.  [main] prints this content when
    [json.dumps] can encode it, and otherwise exits with "Processing
    failed: " and the text of the [TypeError].  Without a document [main]
    exits with "Processing failed: No document content extracted". *)
Theorem main_prints_success (exn_text : exn -> pystr)
    (vlm_available : bool) (version : pystr) (doc : document)
    (args : arguments) :
  well_formed (doc_object doc) = true ->
  (exists c,
     main_content vlm_available version doc args = Ok c
     /\ main_after_conversion exn_text vlm_available version (Some doc) args
        = (if content_json_ok c then Printed c
           else Exited (lit "Processing failed: " ++ exn_text TypeError))
     /\ cd_markdown c = export_to_markdown doc
     /\ cd_sections c = FunctionPath.process_sections (cd_markdown c)
     /\ (cd_code_snippets c <> None <-> enable_code_enrichment args = true)
     /\ (cd_formulas c <> None <-> enable_formula_enrichment args = true)
     /\ (cd_image_descriptions c <> None
         <-> vlm_available && negb (no_vlm args)
             && hasattr (doc_object doc) "pictures" = true)
     /\ (forall ds, cd_image_descriptions c = Some ds -> ds <> [] ->
                    has_images (cd_metadata c) = true))
  /\ main_after_conversion exn_text vlm_available version None args
     = Exited (lit "Processing failed: No document content extracted").
Proof.
  intro Hwf. split; [|reflexivity].
  destruct (extract_metadata_ok version doc args Hwf) as (m & Em).
  pose proof (extract_metadata_flags _ _ _ Em) as (_ & _ & Hi & _).
  assert (Hpic : attr_ok (doc_object doc) "pictures" is_sized = true).
  { unfold well_formed in Hwf. now apply andb_true_iff in Hwf as [_ ?]. }
  destruct (image_descriptions_ok _ Hpic) as (ds & Eds & Hds).
  assert (Hobj : is_object (doc_object doc) = true).
  { unfold well_formed in Hwf. now destruct (is_object (doc_object doc)). }
  assert (Htruth : truth (doc_object doc) = true).
  { now destruct (doc_object doc). }
  unfold main_after_conversion. rewrite Htruth, Hobj. cbn [negb].
  unfold main_content. rewrite Em. cbn [bind].
  destruct (vlm_available && negb (no_vlm args)
            && hasattr (doc_object doc) "pictures") eqn:Ev.
  - rewrite Eds. cbn [bind]. eexists. split; [reflexivity|].
    split; [reflexivity|].
    cbn [cd_markdown cd_sections cd_code_snippets cd_formulas
         cd_image_descriptions cd_metadata].
    repeat split; try (destruct (enable_code_enrichment args); congruence);
      try (destruct (enable_formula_enrichment args); congruence);
      try congruence.
    intros ds' [= <-] Hne. rewrite Hi. now apply Hds.
  - cbn [bind]. eexists. split; [reflexivity|]. split; [reflexivity|].
    cbn [cd_markdown cd_sections cd_code_snippets cd_formulas
         cd_image_descriptions cd_metadata].
    repeat split; try (destruct (enable_code_enrichment args); congruence);
      try (destruct (enable_formula_enrichment args); congruence);
      try congruence.
Qed.

Example main_without_usable_document :
  main_after_conversion (fun _ => lit "no such attribute") true
    (lit "unknown") (Some (mk_document VNone (lit "text")))
    (mk_arguments false false (lit "SmolDocling") false false)
  = Exited (lit "Processing failed: No document content extracted")
  /\ main_after_conversion (fun _ => lit "no such attribute") true
       (lit "unknown") (Some (mk_document (VInt 5) (lit "text")))
       (mk_arguments false false (lit "SmolDocling") false false)
     = Exited (lit "Processing failed: no such attribute").
Proof. split; vm_compute; reflexivity. Qed.

Lemma main_prints_success_witness :
  (exists c,
     main_after_conversion (fun _ => []) true (lit "unknown")
       (Some (mk_document (VObj [("pictures"%string, VList [])])
                          (lit "text")))
       (mk_arguments false false (lit "SmolDocling") true false)
     = Printed c
     /\ cd_image_descriptions c <> None /\ cd_code_snippets c <> None)
  /\ main_after_conversion (fun _ => lit "not serializable") true
       (lit "unknown")
       (Some (mk_document
                (VObj [("pictures"%string,
                        VList [VObj [("description"%string, VObj [])]])])
                (lit "text")))
       (mk_arguments false false (lit "SmolDocling") false false)
     = Exited (lit "Processing failed: not serializable").
Proof.
  split.
  - destruct (@main_prints_success (fun _ => []) true (lit "unknown")
                (mk_document (VObj [("pictures"%string, VList [])])
                             (lit "text"))
                (mk_arguments false false (lit "SmolDocling") true false)
                eq_refl)
      as [(c & E & Ep & _ & _ & Hc & _ & Hd & _) _].
    exists c. split; [|split; [apply Hd | apply Hc]; reflexivity].
    rewrite Ep. injection E as <-. reflexivity.
  - destruct (@main_prints_success (fun _ => lit "not serializable") true
                (lit "unknown")
                (mk_document
                   (VObj [("pictures"%string,
                           VList [VObj [("description"%string, VObj [])]])])
                   (lit "text"))
                (mk_arguments false false (lit "SmolDocling") false false)
                eq_refl)
      as [(c & E & Ep & _) _].
    rewrite Ep. injection E as <-. reflexivity.
Defined.

(** ** The lazy body ends at the first closing text *)

Section LazyFacts.
Import Re.

Lemma startswith_split (c s : pystr) :
  startswith c s = true -> s = c ++ skipn (length c) s.
Proof.
  revert s. induction c as [|a c IH]; intros s H; [reflexivity|].
  destruct s as [|b s]; [discriminate|]. simpl in H.
  apply andb_true_iff in H as [Hab Hs]. apply Ascii.eqb_eq in Hab. subst b.
  simpl. f_equal. now apply IH.
Qed.

Lemma startswith_app_r (c s t : pystr) :
  startswith c s = true -> startswith c (s ++ t) = true.
Proof.
  revert s. induction c as [|a c IH]; intros s H; [reflexivity|].
  destruct s as [|b s]; [discriminate|]. simpl in *.
  apply andb_true_iff in H as [Hab Hs]. now rewrite Hab, IH.
Qed.

(** The matcher on a literal text: one result when the text is ahead,
    none otherwise. *)
Lemma run_text (c : pystr) :
  forall st,
    run (text c) st
    = if startswith c (rest st)
      then [mk_mstate (pos st + length c) (skipn (length c) (rest st))
                      (caps st)]
      else [].
Proof.
  induction c as [|a c IH]; intros [p s cs]; cbn [text run rest pos caps].
  - simpl. now rewrite Nat.add_0_r.
  - destruct s as [|b s]; [reflexivity|].
    cbn [flat_map cmatch startswith]. destruct (ascii_eqb a b); [|reflexivity].
    cbn [flat_map andb]. rewrite app_nil_r, IH. cbn [rest pos caps].
    destruct (startswith c s); [|reflexivity].
    cbn [length skipn]. now rewrite Nat.add_succ_r.
Qed.

Lemma hd_flat_map (A B : Type) (f : A -> list B) (l : list A) (y : B) :
  hd_error (flat_map f l) = Some y ->
  exists x, In x l /\ hd_error (f x) = Some y.
Proof.
  induction l as [|a l IH]; simpl; [discriminate|].
  destruct (f a) as [|b t] eqn:E; simpl.
  - intro H. destruct (IH H) as (x & Hx & Hy). exists x. auto.
  - intros [= <-]. exists a. rewrite E. auto.
Qed.

(** The first result of a lazy group followed by a closing text: the
    body is the shortest one after which the closing text stands. *)
Lemma lazy_first (n p0 : nat) (c : pystr) (s : pystr) :
  forall p cs y,
    hd_error
      (flat_map (run (text c))
         (map (fun st' => mk_mstate (pos st') (rest st')
                                    ((n, (p0, pos st')) :: caps st'))
              (star_lazy AnyChar p s cs)))
    = Some y ->
    exists body, s = body ++ c ++ rest y /\ closes_first c body s.
Proof.
  induction s as [|a s IH]; intros p cs y; cbn [star_lazy map flat_map].
  - rewrite app_nil_r, run_text. cbn [rest].
    destruct (startswith c []) eqn:E; [|discriminate].
    intros [= <-]. exists []. cbn [rest]. split.
    + apply (startswith_split _ _ E).
    + intros j Hj. simpl in Hj. lia.
  - cbn [cmatch]. rewrite run_text. cbn [rest pos caps].
    destruct (startswith c (a :: s)) eqn:E.
    + intros [= <-]. exists []. cbn [rest]. split.
      * apply (startswith_split _ _ E).
      * intros j Hj. simpl in Hj. lia.
    + cbn [app]. intro H. destruct (IH _ _ _ H) as (body & Es & Hmin).
      exists (a :: body). split; [simpl; now rewrite <- Es|].
      intros [|j] Hj; [exact E|]. simpl in Hj. apply Hmin. lia.
Qed.

Lemma first_delimited (opening closing : pystr) (st y : mstate) :
  hd_error (run (delimited opening closing) st) = Some y ->
  exists body,
    rest st = opening ++ body ++ closing ++ rest y
    /\ closes_first closing body (body ++ closing ++ rest y).
Proof.
  unfold delimited. cbn [run]. intro H.
  apply hd_flat_map in H as (st1 & H1 & H).
  rewrite run_text in H1.
  destruct (startswith opening (rest st)) eqn:Eo; [|destruct H1].
  destruct H1 as [<-|[]]. cbn [pos rest caps] in H.
  apply lazy_first in H as (body & Es & Hmin).
  exists body. rewrite <- Es. split; [|exact Hmin].
  apply (startswith_split _ _ Eo).
Qed.

Lemma word_prefix_unique (t1 t2 r1 r2 : pystr) :
  forallb is_word t1 = true -> forallb is_word t2 = true ->
  t1 ++ nl :: r1 = t2 ++ nl :: r2 -> t1 = t2 /\ r1 = r2.
Proof.
  revert t2. induction t1 as [|a t1 IH]; intros [|b t2] H1 H2 E;
    simpl in *.
  - inversion E. auto.
  - inversion E; subst. apply andb_true_iff in H2 as [H2 _]. discriminate.
  - inversion E; subst. apply andb_true_iff in H1 as [H1 _]. discriminate.
  - inversion E; subst.
    apply andb_true_iff in H1 as [_ H1]. apply andb_true_iff in H2 as [_ H2].
    destruct (IH t2 H1 H2 ltac:(assumption)) as [-> ->]. auto.
Qed.

Lemma first_code_block (st y : mstate) :
  hd_error (run code_block_pattern st) = Some y ->
  exists tag body,
    rest st = fence ++ tag ++ nl :: body ++ nl :: fence ++ rest y
    /\ forallb is_word tag = true
    /\ closes_first (nl :: fence) body (body ++ nl :: fence ++ rest y).
Proof.
  unfold code_block_pattern. cbn [run]. intro H.
  apply hd_flat_map in H as (st1 & H1 & H).
  apply hd_flat_map in H as (st2 & H2 & H).
  apply hd_flat_map in H as (st3 & H3 & H).
  apply run_sound, derive_text in H1 as (E1 & _).
  assert (Htag : exists tag, rest st1 = tag ++ rest st2
                             /\ forallb is_word tag = true).
  { apply (run_sound (Opt (Group 1 (Plus WordChar)))) in H2.
    apply derive_opt_inv in H2 as [H2| ->]; [|now exists []].
    apply derive_group_inv in H2 as (st5 & H2 & _ & E5 & _).
    apply derive_plus_inv in H2 as (a & w & E & Ha & Hw & _).
    exists (a :: w). rewrite E, E5. split; [reflexivity|].
    simpl. apply andb_true_iff. split; [exact Ha | exact Hw]. }
  destruct Htag as (tag & E2 & Hw).
  apply (run_sound (One (Char nl))) in H3.
  apply derive_one_inv in H3 as (a & E3 & Ha & _).
  apply Ascii.eqb_eq in Ha. subst a.
  destruct st3 as [p3 s3 c3]. cbn [run] in H. cbn [pos rest caps] in *.
  apply lazy_first in H as (body & Es & Hmin).
  exists tag, body. split; [|split; [exact Hw|]].
  - rewrite E1, E2, E3, Es.
    repeat (rewrite <- app_assoc || rewrite <- app_comm_cons). reflexivity.
  - rewrite <- app_comm_cons in Es.
    change (nl :: fence ++ rest y) with ((nl :: fence) ++ rest y).
    rewrite <- app_comm_cons. rewrite <- Es. exact Hmin.
Qed.

Lemma search_at_first (r : regex) (s : pystr) :
  forall p b st',
    search_at r p s = Some (b, st') ->
    hd_error (run r (mk_mstate b (skipn (b - p) s) [])) = Some st'
    /\ p <= b.
Proof.
  induction s as [|a s IH]; intros p b st' H; simpl in H.
  - destruct (run r (mk_mstate p [] [])) as [|st1 l] eqn:E; [discriminate|].
    inversion H; subst. rewrite Nat.sub_diag. cbn [skipn]. now rewrite E.
  - destruct (run r (mk_mstate p (a :: s) [])) as [|st1 l] eqn:E.
    + destruct (IH _ _ _ H) as (H1 & H2). split; [|lia].
      replace (b - p) with (S (b - S p)) by lia. exact H1.
    + inversion H; subst. rewrite Nat.sub_diag. cbn [skipn].
      now rewrite E.
Qed.

Lemma finditer_from_first (r : regex) (content : pystr) (fuel : nat) :
  forall p,
    p <= length content ->
    Forall (first_match r content)
           (finditer_from fuel r p (skipn p content)).
Proof.
  induction fuel as [|fuel IH]; intros p Hp; simpl; [constructor|].
  destruct (search_at r p (skipn p content)) as [[b st']|] eqn:Es;
    [|constructor].
  pose proof (search_at_first _ _ _ Es) as (Hhd & Hpb).
  apply search_at_spec in Es as (_ & Hbl & Hd).
  rewrite skipn_skipn, Nat.sub_add in Hd, Hhd by exact Hpb.
  rewrite length_skipn in Hbl.
  destruct (@derive_rest r content b st' ltac:(lia) Hd) as (Er & Hbe & Hel).
  assert (Hm : first_match r content (mk_match b (pos st') (caps st'))).
  { unfold first_match. cbn [m_start m_end m_caps]. rewrite Hhd, <- Er.
    now destruct st'. }
  constructor; [exact Hm|].
  destruct (pos st' =? b).
  - destruct (rest st') as [|x t] eqn:Et; [constructor|].
    symmetry in Er. apply skipn_cons_inv in Er as [-> Hl].
    apply IH; lia.
  - rewrite Er. apply IH; lia.
Qed.

Lemma finditer_first (r : regex) (content : pystr) :
  Forall (first_match r content) (finditer r content).
Proof.
  unfold finditer.
  apply (@finditer_from_first r content (S (length content)) 0). lia.
Qed.

(** A text that starts nowhere in [body] is not in [body]. *)
Lemma closes_first_contains (c body tail : pystr) :
  c <> [] -> closes_first c body (body ++ tail) ->
  contains c body = false.
Proof.
  intros Hc. induction body as [|a body IH]; intro H.
  - destruct c; [congruence | reflexivity].
  - cbn [contains]. apply orb_false_iff. split.
    + pose proof (H 0 ltac:(simpl; lia)) as H0. cbn [skipn] in H0.
      destruct (startswith c (a :: body)) eqn:E; [|reflexivity].
      now rewrite (startswith_app_r _ _ tail E) in H0.
    + apply IH. intros j Hj. apply (H (S j)). simpl. lia.
Qed.

Lemma contains_app_l (c w s : pystr) :
  contains c s = true -> contains c (w ++ s) = true.
Proof.
  intro H. induction w as [|a w IH]; [exact H|].
  simpl. rewrite IH. apply orb_true_r.
Qed.

Lemma contains_app_r (c s w : pystr) :
  contains c s = true -> contains c (s ++ w) = true.
Proof.
  induction s as [|a s IH]; intro H.
  - simpl in H. rewrite orb_false_r in H.
    destruct c; [|discriminate]. now destruct w.
  - cbn [contains] in H. apply orb_true_iff in H as [H|H].
    + change ((a :: s) ++ w) with (a :: s ++ w). cbn [contains].
      change (a :: s ++ w) with ((a :: s) ++ w).
      now rewrite (startswith_app_r _ _ w H).
    + change ((a :: s) ++ w) with (a :: s ++ w). cbn [contains].
      rewrite (IH H). apply orb_true_r.
Qed.

(** The stripped text is a part of the text. *)
Lemma strip_infix (s : pystr) : exists w1 w2, s = w1 ++ strip s ++ w2.
Proof.
  unfold strip, rstrip, lstrip.
  destruct (drop_while_split is_space s) as (w1 & E1 & _).
  destruct (drop_while_split is_space (rev (drop_while is_space s)))
    as (w2 & E2 & _).
  apply (f_equal (@rev ascii)) in E2.
  rewrite rev_involutive, rev_app_distr in E2.
  exists w1, (rev w2). now rewrite <- E2.
Qed.

Lemma contains_strip (c s : pystr) :
  contains c s = false -> contains c (strip s) = false.
Proof.
  intro H. destruct (contains c (strip s)) eqn:E; [|reflexivity].
  destruct (strip_infix s) as (w1 & w2 & Es).
  rewrite Es in H.
  now rewrite (contains_app_l _ w1 _ (contains_app_r _ _ w2 E)) in H.
Qed.

End LazyFacts.

Section LazyExtractors.
Import Re.

Lemma formulas_of_closing (opening closing content : pystr)
    (f : Formula.t) :
  closing <> [] ->
  In f (formulas_of (delimited opening closing) content) ->
  contains closing (Formula.formula f) = false.
Proof.
  intros Hc Hin. unfold formulas_of in Hin.
  rewrite fold_formula_step in Hin. simpl in Hin.
  apply in_flat_map in Hin as (m & Hm & Hf).
  apply formula_step_records in Hf as (_ & -> & _).
  pose proof (finditer_first (delimited opening closing) content) as Hfirst.
  rewrite Forall_forall in Hfirst. specialize (Hfirst m Hm).
  apply first_delimited in Hfirst as (body & E & Hmin).
  cbn [rest] in E, Hmin.
  destruct (formula_group_set (finditer_matched _ _ _ Hm))
    as (body' & -> & E').
  rewrite E in E'. apply app_inv_head in E'.
  rewrite !app_assoc in E'. apply app_inv_tail in E'.
  apply app_inv_tail in E'. subst body'.
  cbn [group_strip]. apply contains_strip.
  eapply closes_first_contains; [exact Hc | exact Hmin].
Qed.

Lemma skipn_slice (content : pystr) (b e : nat) :
  b <= e -> skipn b content = slice b e content ++ skipn e content.
Proof.
  intro H. unfold slice.
  rewrite <- (firstn_skipn (e - b) (skipn b content)) at 1.
  rewrite skipn_skipn, Nat.sub_add by exact H. reflexivity.
Qed.

Lemma snippet_code_closing (content : pystr) (m : match_obj) :
  In m (finditer code_block_pattern content) ->
  contains (nl :: fence) (Snippet.code (snippet_of content m)) = false.
Proof.
  intro Hm.
  pose proof (finditer_first code_block_pattern content) as Hfirst.
  rewrite Forall_forall in Hfirst. specialize (Hfirst m Hm).
  apply first_code_block in Hfirst as (tag & body & E & Hw & Hmin).
  cbn [rest] in E, Hmin.
  destruct (finditer_spec code_block_pattern content) as [Hall _].
  rewrite Forall_forall in Hall. destruct (Hall m Hm) as [Hle Hmatch].
  destruct (snippet_of_match Hle Hmatch)
    as (fb & Es & Ee & (_ & Hslice & Hw' & _ & Hcode & _)).
  rewrite Hcode. apply contains_strip.
  rewrite Es, Ee in Hslice.
  rewrite (skipn_slice content Hle), Hslice in E.
  repeat (rewrite <- app_assoc in E || rewrite <- app_comm_cons in E).
  apply app_inv_head in E.
  apply (word_prefix_unique _ _ _ _ Hw' Hw) in E as [_ E].
  change (nl :: fence ++ skipn (m_end m) content)
    with ((nl :: fence) ++ skipn (m_end m) content) in E.
  apply app_inv_tail in E. subst body.
  apply (@closes_first_contains (nl :: fence) (fb_body fb)
           ((nl :: fence) ++ skipn (m_end m) content));
    [discriminate | exact Hmin].
Qed.

End LazyExtractors.

(** X19: a formula ends at the first closing delimiter after its opening
    one: the formula of a display-math record holds no "$$", that of an
    inline-math record no "$", and that of an equation-environment
    record no "\end{equation}". *)
Theorem formula_ends_at_first_closing (content : pystr) (f : Formula.t) :
  (In f (formulas_of display_math content) ->
   contains (lit "$$") (Formula.formula f) = false)
  /\ (In f (formulas_of inline_math content) ->
      contains (lit "$") (Formula.formula f) = false)
  /\ (In f (formulas_of equation_env content) ->
      contains (lit "\end{equation}") (Formula.formula f) = false).
Proof.
  repeat split; apply formulas_of_closing; discriminate.
Qed.

Lemma formula_ends_at_first_closing_witness :
  contains (lit "$") (lit "a") = false.
Proof.
  apply (proj1 (proj2 (formula_ends_at_first_closing
           (lit "$a$ b$")
           (Formula.mk (lit "a") (lit "Mathematical expression: a")
                       (lit "mathematical") 1)))).
  left. reflexivity.
Defined.

(** X20: a code snippet ends at the first closing fence after its opening
    line: its code holds no newline followed by three backquotes. *)
Theorem code_ends_at_first_fence (content : pystr) (sn : Snippet.t) :
  In sn (extract_code_snippets content) ->
  contains (nl :: fence) (Snippet.code sn) = false.
Proof.
  unfold extract_code_snippets. rewrite fold_left_snoc_map. simpl.
  intro Hin. apply in_map_iff in Hin as (m & <- & Hm).
  now apply snippet_code_closing.
Qed.

Lemma code_ends_at_first_fence_witness :
  contains (nl :: fence) (lit "x") = false.
Proof.
  apply (@code_ends_at_first_fence
           (text_of_lines ["```"; "x"; "```"; "y"; "```"]%string)
           (Snippet.mk (lit "x") (lit "unknown")
                       (lit "Code snippet in unknown") 1 3)).
  left. reflexivity.
Defined.
